(** * sm3_agent: alert investigation pipeline and tool-invocation channel

    A shallow embedding of
    - [sm3_agent/backend/api/alerts.py]: the Grafana webhook, the background
      alert task, the AI investigation with its fallback, the mock ServiceNow
      ticket store, and the confidence heuristic;
    - [sm3_agent/backend/tools/mcp_client.py]: the MCP connection manager
      ([connect], [disconnect], [ensure_connected], [invoke_tool]).

    Conventions.  Python [str] is [string], the UTF-8 bytes of the text;
    [len] counts its code points.  [lower], [upper], [strip] and [isdigit]
    act on ASCII letters, spaces and digits: on ASCII text they are the
    methods of [str], and they are what [str.lower] does on the severities
    the code compares against (outside ASCII, Python also converts other
    letters and strips other spaces).  A value typed [Any] is a [pyany]: a string or something
    else, so that a method of [str] called on it, or a [str] field given
    it, can fail as in the source.  A function that can raise returns a
    [result]; a function that mutates an object takes the object and
    returns the updated one.  Logging is left out of the alert pipeline;
    the MCP client's log lines are kept, with their level, next to its
    trace. *)

From Stdlib Require Import ZArith Lia Ascii Floats QArith Qminmax Qround.
From stdpp Require Import base list strings gmap sorting pretty.

Local Open Scope Z_scope.
Local Open Scope nat_scope.

(* Decimal float literals denote the nearest double, as in Python. *)
#[local] Set Warnings "-inexact-float".

(** ** Python preliminaries *)

(** An exception object: its class name, [str(e)], and [__cause__]
    (set by [raise ... from e]). *)
Inductive exn : Type :=
| Exc (type_name : string) (msg : string)
| ExcFrom (type_name : string) (msg : string) (cause : exn).

Definition exn_str (e : exn) : string :=
  match e with Exc _ msg | ExcFrom _ msg _ => msg end.

Definition exn_cause (e : exn) : option exn :=
  match e with Exc _ _ => None | ExcFrom _ _ c => Some c end.

Inductive result (A : Type) : Type :=
| Return (a : A)
| Raise (e : exn).
Arguments Return {A} a.
Arguments Raise {A} e.

Definition ascii_lower (c : ascii) : ascii :=
  let n := nat_of_ascii c in
  if (65 <=? n) && (n <=? 90) then ascii_of_nat (n + 32) else c.

Definition ascii_upper (c : ascii) : ascii :=
  let n := nat_of_ascii c in
  if (97 <=? n) && (n <=? 122) then ascii_of_nat (n - 32) else c.

Fixpoint lower (s : string) : string :=
  match s with
  | EmptyString => EmptyString
  | String c s' => String (ascii_lower c) (lower s')
  end.

Fixpoint upper (s : string) : string :=
  match s with
  | EmptyString => EmptyString
  | String c s' => String (ascii_upper c) (upper s')
  end.

(** [len(s)]: the number of code points of the text.  In UTF-8 every byte
    starts one, except the continuation bytes (0x80 to 0xBF). *)
Fixpoint len (s : string) : nat :=
  match s with
  | EmptyString => 0
  | String c s' =>
      let n := nat_of_ascii c in
      (if (128 <=? n) && (n <? 192) then 0 else 1) + len s'
  end.

(** [s.endswith(suffix)]: some tail of [s] is [suffix]. *)
Fixpoint endswith (s suffix : string) : bool :=
  String.eqb s suffix ||
  match s with
  | EmptyString => false
  | String _ s' => endswith s' suffix
  end.

(** A value typed [Any], as the JSON body of a request gives it: a string,
    [None] (JSON [null]), a [bool], an [int], or something else (a [float],
    a [list] or a [dict]), kept by the name of its type and the text that
    [str] gives for it. *)
Inductive pyany : Type :=
| AnyStr (s : string)
| AnyNone
| AnyBool (b : bool)
| AnyInt (n : Z)
| AnyOther (type_name text : string).

(** [type(v).__name__] *)
Definition py_type_name (v : pyany) : string :=
  match v with
  | AnyStr _ => "str"
  | AnyNone => "NoneType"
  | AnyBool _ => "bool"
  | AnyInt _ => "int"
  | AnyOther type_name _ => type_name
  end.

(** [str(v)], which is also how an f-string renders [{v}]. *)
Definition py_str (v : pyany) : string :=
  match v with
  | AnyStr s => s
  | AnyNone => "None"
  | AnyBool b => if b then "True" else "False"
  | AnyInt n => pretty n
  | AnyOther _ text => text
  end.

(** [v.lower()]: only a [str] has the method. *)
Definition str_lower (v : pyany) : result string :=
  match v with
  | AnyStr s => Return (lower s)
  | _ =>
      Raise (Exc "AttributeError"
               ("'" +:+ py_type_name v +:+ "' object has no attribute 'lower'"))
  end.

(** A [Dict[str, Any]], in key order: the [labels] and [annotations] of an
    alert. *)
Definition anydict : Type := list (string * pyany).

(** [d.get(key, default)] *)
Fixpoint dict_get (d : anydict) (key : string) (default : pyany) : pyany :=
  match d with
  | [] => default
  | (k, v) :: d' => if String.eqb k key then v else dict_get d' key default
  end.

(** [l[:stop]] for a Python [int] [stop]: a negative [stop] counts from the
    end of the list. *)
Definition slice_to {A : Type} (stop : Z) (l : list A) : list A :=
  if (0 <=? stop)%Z then take (Z.to_nat stop) l
  else take (length l - Z.to_nat (- stop)) l.

(** ** [datetime] *)

Module datetime.
Record t : Type := mk {
  year : Z; month : Z; day : Z;
  hour : Z; minute : Z; second : Z; microsecond : Z }.

(** The field ranges of a [datetime] object. *)
Definition valid (d : t) : Prop :=
  (1 <= year d <= 9999 /\ 1 <= month d <= 12 /\ 1 <= day d <= 31 /\
   0 <= hour d <= 23 /\ 0 <= minute d <= 59 /\ 0 <= second d <= 59 /\
   0 <= microsecond d <= 999999)%Z.

Definition fields (d : t) : list Z :=
  [year d; month d; day d; hour d; minute d; second d; microsecond d].

(** Tuples compare field by field, most significant first. *)
Fixpoint lex_lt (l1 l2 : list Z) : Prop :=
  match l1, l2 with
  | x :: l1', y :: l2' => (x < y)%Z \/ (x = y /\ lex_lt l1' l2')
  | _, _ => False
  end.

(** [d1 < d2] *)
Definition lt (d1 d2 : t) : Prop := lex_lt (fields d1) (fields d2).

(** [d1 < d2] once both are cut to the second, that is, [d1] lies in an
    earlier second than [d2]. *)
Definition earlier_second (d1 d2 : t) : Prop :=
  lex_lt (take 6 (fields d1)) (take 6 (fields d2)).

Definition digit (n : Z) : ascii := ascii_of_N (Z.to_N (48 + n mod 10)).

(** [n] in decimal, zero-padded to [width] digits, for [0 <= n < 10 ^ width]. *)
Fixpoint zero_pad (width : nat) (n : Z) : string :=
  match width with
  | 0 => EmptyString
  | S w =>
      String (digit (n / 10 ^ Z.of_nat w)) (zero_pad w (n mod 10 ^ Z.of_nat w))
  end.

(** [d.strftime('%Y%m%d%H%M%S')]: the year with four digits (as for every
    year from 1000 on), the other fields with two. *)
Definition strftime_compact (d : t) : string :=
  zero_pad 4 (year d) +:+ zero_pad 2 (month d) +:+ zero_pad 2 (day d) +:+
  zero_pad 2 (hour d) +:+ zero_pad 2 (minute d) +:+ zero_pad 2 (second d).
End datetime.

(** ** Data model of [alerts.py] *)

Module GrafanaAlert.
(** [values] keeps each metric with its reading. *)
Record t : Type := mk {
  status : string;
  labels : anydict;
  annotations : anydict;
  startsAt : string;
  endsAt : option string;
  generatorURL : option string;
  fingerprint : string;
  values : option (list (string * float)) }.
End GrafanaAlert.

Module GrafanaWebhookPayload.
Record t : Type := mk {
  receiver : string;
  status : string;
  alerts : list GrafanaAlert.t;
  groupLabels : anydict;
  commonLabels : anydict;
  commonAnnotations : anydict;
  externalURL : string;
  version : string;
  groupKey : string;
  truncatedAlerts : Z }.
End GrafanaWebhookPayload.

Module AlertInvestigation.
Record t : Type := mk {
  alert_name : string;
  severity : string;
  summary : string;
  root_cause_hypothesis : string;
  impact_assessment : string;
  recommended_actions : list string;
  related_evidence : list string;
  confidence : float;
  investigated_at : datetime.t }.
End AlertInvestigation.

Module ServiceNowTicket.
Record t : Type := mk {
  ticket_number : string;
  priority : string;
  short_description : string;
  description : string;
  assignment_group : string;
  category : string;
  state : string;
  created_at : datetime.t;
  ai_generated : bool;
  investigation_summary : string }.
End ServiceNowTicket.

(** What [agent_manager.run_chat] returns ([AgentResult]). *)
Module AgentResult.
Record t : Type := mk {
  message : string;
  tool_calls : list string }.
End AgentResult.

(** [SEVERITY_MAPPING] *)
Definition SEVERITY_MAPPING : gmap string (gmap string string) :=
  {[ "critical" := {[ "priority" := "P1"; "snow_priority" := "1"; "action" := "page" ]};
     "high" := {[ "priority" := "P2"; "snow_priority" := "2"; "action" := "ticket" ]};
     "warning" := {[ "priority" := "P3"; "snow_priority" := "3"; "action" := "ticket" ]};
     "info" := {[ "priority" := "P4"; "snow_priority" := "4"; "action" := "email_only" ]} ]}.

(** [d[key]], which raises [KeyError] on a missing key. *)
Definition getitem {V : Type} (d : gmap string V) (key : string) : result V :=
  match d !! key with
  | Some v => Return v
  | None => Raise (Exc "KeyError" key)
  end.

(** ** Webhook ingress *)

(** One call [background_tasks.add_task(process_alert, alert=...,
    common_labels=..., common_annotations=...)]. *)
Record background_task : Type := mk_task {
  task_alert : GrafanaAlert.t;
  task_common_labels : anydict;
  task_common_annotations : anydict }.

(** An entry of the response's ["alerts"] list. *)
Record queued_alert : Type := mk_queued {
  queued_fingerprint : string;
  queued_severity : string;
  queued_status : string }.

(** The two response bodies of the webhook, with the keys of the
    dictionaries the handler returns. *)
Inductive webhook_response : Type :=
| ResponseIgnored (status reason : string)
| ResponseReceived (status : string) (processed_count : nat)
    (alerts : list queued_alert).

Definition response_status (r : webhook_response) : string :=
  match r with
  | ResponseIgnored s _ | ResponseReceived s _ _ => s
  end.

Definition response_reason (r : webhook_response) : option string :=
  match r with
  | ResponseIgnored _ reason => Some reason
  | ResponseReceived _ _ _ => None
  end.

Definition response_alerts (r : webhook_response) : option (list queued_alert) :=
  match r with
  | ResponseIgnored _ _ => None
  | ResponseReceived _ _ l => Some l
  end.

(** The [for alert in payload.alerts] loop of [grafana_webhook]: the state
    is the task queue and the [processed] list.  The loop ends with the
    [processed] list, or with the exception of [.lower()] on a severity
    that is not a string; the tasks added until then are in the queue. *)
Fixpoint webhook_loop (payload : GrafanaWebhookPayload.t)
    (alerts : list GrafanaAlert.t)
    (background_tasks : list background_task) (processed : list queued_alert)
    : list background_task * result (list queued_alert) :=
  match alerts with
  | [] => (background_tasks, Return processed)
  | alert :: rest =>
      match str_lower (dict_get (GrafanaAlert.labels alert) "severity" (AnyStr "info")) with
      | Raise e => (background_tasks, Raise e)
      | Return severity =>
          if negb (bool_decide (severity ∈ ["critical"; "high"])) then
            webhook_loop payload rest background_tasks processed
          else
            webhook_loop payload rest
              (background_tasks ++
                 [mk_task alert (GrafanaWebhookPayload.commonLabels payload)
                    (GrafanaWebhookPayload.commonAnnotations payload)])
              (processed ++
                 [mk_queued (GrafanaAlert.fingerprint alert) severity
                    "queued_for_investigation"])
      end
  end.

(** [grafana_webhook(payload, background_tasks)]: returns the task queue
    as the handler leaves it, and the response or the exception that ends
    the handler.  Queued tasks are not run here: the framework runs them
    after the response is sent. *)
Definition grafana_webhook (payload : GrafanaWebhookPayload.t)
    (background_tasks : list background_task)
    : list background_task * result webhook_response :=
  if negb (String.eqb (GrafanaWebhookPayload.status payload) "firing") then
    (background_tasks,
     Return (ResponseIgnored "ignored"
               ("Alert status is " +:+ GrafanaWebhookPayload.status payload)))
  else
    match webhook_loop payload (GrafanaWebhookPayload.alerts payload)
            background_tasks [] with
    | (background_tasks', Return processed) =>
        (background_tasks',
         Return (ResponseReceived "received" (length processed) processed))
    | (background_tasks', Raise e) => (background_tasks', Raise e)
    end.

(** ** Effects: state passing with exceptions *)

(** A computation over a state [S] that returns an [A] or raises. *)
Definition M (S A : Type) : Type := S -> S * result A.

Definition ret {S A : Type} (a : A) : M S A := fun s => (s, Return a).

Definition raise {S A : Type} (e : exn) : M S A := fun s => (s, Raise e).

Definition bind {S A B : Type} (c : M S A) (k : A -> M S B) : M S B :=
  fun s =>
    match c s with
    | (s', Return a) => k a s'
    | (s', Raise e) => (s', Raise e)
    end.

(** [try: c  except Exception as e: handler e] *)
Definition try_except {S A : Type} (c : M S A) (handler : exn -> M S A) : M S A :=
  fun s =>
    match c s with
    | (s', Return a) => (s', Return a)
    | (s', Raise e) => handler e s'
    end.

Definition lift {S A : Type} (r : result A) : M S A := fun s => (s, r).

Definition modify {S : Type} (f : S -> S) : M S unit := fun s => (f s, Return tt).

Notation "'let*' x ':=' c 'in' k" := (bind c (fun x => k))
  (at level 10, x name, c at level 100, k at level 200).

(** ** Investigation orchestrator *)

(** String rendering and free-text parsing of [alerts.py], kept as
    parameters: the prompt f-string, [extract_section], [extract_actions],
    [extract_evidence], [format_ticket_description] and
    [format_ticket_text].  Nothing below depends on what they compute. *)
Record text_functions : Type := mk_text {
  investigation_prompt :
    pyany -> string -> pyany -> pyany -> list (string * float) -> anydict -> string;
  extract_section : string -> string -> string;
  extract_actions : string -> list string;
  extract_evidence : string -> list string;
  format_ticket_description : AlertInvestigation.t -> string;
  format_ticket_text : ServiceNowTicket.t -> string }.

(** The reasoning engine as the orchestrator reaches it: [agent_setup] is
    [get_settings()], [AgentManager(settings)] and [initialize()];
    [run_chat message session_id] is the chat turn. *)
Record reasoning_engine : Type := mk_engine {
  agent_setup : result unit;
  run_chat : string -> string -> result AgentResult.t }.

(** The readings of [datetime.utcnow()] during one alert task, in the order
    they are taken: for the session id (as the text of its [timestamp()]),
    for [investigated_at], for the ticket number, for [created_at]. *)
Record clock : Type := mk_clock {
  session_timestamp : string;
  investigated_time : datetime.t;
  number_time : datetime.t;
  created_time : datetime.t }.

(** [min(a, b)] on floats: [b] when [b < a], else [a]. *)
Definition py_min (a b : float) : float :=
  if (b <? a)%float then b else a.

(** [float(n)] for a length [n] (a [Py_ssize_t], below [2^63]). *)
Definition float_of_len (n : nat) : float :=
  of_uint63 (Uint63.of_Z (Z.of_nat n)).

(** The integer nearest to [num / den] for [den > 0], ties to even. *)
Definition round_half_even (num den : Z) : Z :=
  let q := (num / den)%Z in
  let r := (num mod den)%Z in
  match (2 * r ?= den)%Z with
  | Lt => q
  | Gt => (q + 1)%Z
  | Eq => if Z.even q then q else (q + 1)%Z
  end.

(** [round(x, 2)] on a float: the exact binary value of [x] is rounded to
    the nearest multiple of [1/100], ties to even, and the result is the
    double nearest to that decimal (the correctly rounded quotient of the
    number of hundredths by 100).  A float with a non-negative exponent is
    an integer and is returned as it is, like NaN and the infinities. *)
Definition round2 (x : float) : float :=
  match Prim2SF x with
  | S754_finite s m e =>
      if (0 <=? e)%Z then x
      else
        let hundredths := round_half_even (100 * Z.pos m) (2 ^ (- e)) in
        let r := (of_uint63 (Uint63.of_Z hundredths) / 100)%float in
        if s then (- r)%float else r
  | _ => x
  end.

(** [calculate_confidence(result)].  An [AgentResult] has both attributes,
    so the two [hasattr] tests hold.  [message_length / 2000] divides two
    integers and rounds once; dividing [float(message_length)] gives the
    same double for lengths below [2^53], and a value above [0.4] beyond. *)
Definition calculate_confidence (result : AgentResult.t) : float :=
  let tool_calls := length (AgentResult.tool_calls result) in
  let message_length := len (AgentResult.message result) in
  let confidence :=
    py_min 1 (float_of_len tool_calls * 0.15 +
              py_min 0.4 (float_of_len message_length / 2000))%float in
  round2 confidence.

(** The [ValidationError] of a model whose fields [fields] are not valid;
    the message is cut to the names of these fields. *)
Definition validation_error (model : string) (fields : list string) : exn :=
  Exc "ValidationError" (model +:+ ": " +:+ String.concat ", " fields).

(** [AlertInvestigation(alert_name=..., ...)]: the model validates its
    fields.  [alert_name] and [summary] come from the labels and
    annotations and are typed [Any]; a [str] field takes a string only.
    The other arguments have the type of their field wherever the
    constructor is called. *)
Definition new_investigation (alert_name : pyany) (severity : string)
    (summary : pyany) (root_cause_hypothesis impact_assessment : string)
    (recommended_actions related_evidence : list string) (confidence : float)
    (investigated_at : datetime.t) : result AlertInvestigation.t :=
  match alert_name, summary with
  | AnyStr alert_name, AnyStr summary =>
      Return
        {| AlertInvestigation.alert_name := alert_name;
           AlertInvestigation.severity := severity;
           AlertInvestigation.summary := summary;
           AlertInvestigation.root_cause_hypothesis := root_cause_hypothesis;
           AlertInvestigation.impact_assessment := impact_assessment;
           AlertInvestigation.recommended_actions := recommended_actions;
           AlertInvestigation.related_evidence := related_evidence;
           AlertInvestigation.confidence := confidence;
           AlertInvestigation.investigated_at := investigated_at |}
  | AnyStr _, _ => Raise (validation_error "AlertInvestigation" ["summary"])
  | _, AnyStr _ => Raise (validation_error "AlertInvestigation" ["alert_name"])
  | _, _ => Raise (validation_error "AlertInvestigation" ["alert_name"; "summary"])
  end.

(** [investigate_alert_with_ai(...)].  The [ValidationError] of the
    constructor in the [try] block is caught like any failure of the
    engine; the one of the constructor in the handler is raised. *)
Definition investigate_alert_with_ai (T : text_functions) (E : reasoning_engine)
    (C : clock)
    (alert_name : pyany) (severity : string) (description summary : pyany)
    (metric_values : list (string * float)) (labels annotations : anydict)
    : result AlertInvestigation.t :=
  let prompt :=
    investigation_prompt T alert_name severity summary description
      metric_values labels in
  let try_body : result AlertInvestigation.t :=
    match agent_setup E with
    | Raise e => Raise e
    | Return _ =>
        let session_id := "alert-investigation-" +:+ session_timestamp C in
        match run_chat E prompt session_id with
        | Raise e => Raise e
        | Return result =>
            let ai_response := AgentResult.message result in
            new_investigation alert_name severity summary
              (extract_section T ai_response "Root Cause")
              (extract_section T ai_response "Impact")
              (extract_actions T ai_response)
              (extract_evidence T ai_response)
              (calculate_confidence result)
              (investigated_time C)
        end
    end in
  match try_body with
  | Return investigation => Return investigation
  | Raise e =>
      new_investigation alert_name severity summary
        "AI investigation failed - manual investigation required"
        ("Alert triggered: " +:+ py_str description)
        ["Check Grafana dashboard"; "Review recent deployments";
         "Check service logs"]
        ["AI investigation unavailable"]
        0%float
        (investigated_time C)
  end.

(** ** Ticket store *)

(** A file of [TICKETS_DIR]: the JSON record of a ticket as
    [create_servicenow_ticket] writes it, another JSON value (such as [{}]
    or a list), kept as its text, or text that is not JSON. *)
Inductive file : Type :=
| JsonFile (ticket : ServiceNowTicket.t)
| OtherJsonFile (value : string)
| TextFile (text : string).

(** What [json.loads] returns for the text of a file: the dictionary of a
    ticket, or another JSON value. *)
Inductive json_data : Type :=
| TicketData (ticket : ServiceNowTicket.t)
| OtherData (value : string).

(** [TICKETS_DIR], by file name. *)
Abbreviation directory := (gmap string file).

(** The file system as the store meets it: [write_error name] is the
    [OSError] that writing [TICKETS_DIR / name] raises, if any. *)
Record filesystem : Type := mk_fs {
  write_error : string -> option exn }.

(** [(TICKETS_DIR / name).write_text(content)] *)
Definition write_text (FS : filesystem) (name : string) (content : file)
    : M directory unit :=
  fun dir =>
    match write_error FS name with
    | Some e => (dir, Raise e)
    | None => (<[name := content]> dir, Return tt)
    end.

(** [(TICKETS_DIR / name).read_text()] followed by [json.loads] *)
Definition read_json (dir : directory) (name : string) : result json_data :=
  match dir !! name with
  | Some (JsonFile ticket) => Return (TicketData ticket)
  | Some (OtherJsonFile value) => Return (OtherData value)
  | Some (TextFile _) => Raise (Exc "JSONDecodeError" name)
  | None => Raise (Exc "FileNotFoundError" name)
  end.

(** The ticket number of a ticket created at clock reading [now]. *)
Definition ticket_number_at (now : datetime.t) : string :=
  "INC" +:+ datetime.strftime_compact now.

(** The priority lookup that opens [create_servicenow_ticket]:
    [SEVERITY_MAPPING.get(severity, SEVERITY_MAPPING["info"])["priority"]].
    The default is evaluated first. *)
Definition priority_of_severity (severity : string) : result string :=
  match getitem SEVERITY_MAPPING "info" with
  | Raise e => Raise e
  | Return info_config =>
      let severity_config := default info_config (SEVERITY_MAPPING !! severity) in
      getitem severity_config "priority"
  end.

(** [create_servicenow_ticket(alert, investigation, severity)] *)
Definition create_servicenow_ticket (T : text_functions) (FS : filesystem)
    (C : clock) (alert : GrafanaAlert.t)
    (investigation : AlertInvestigation.t) (severity : string)
    : M directory ServiceNowTicket.t :=
  let* priority := lift (priority_of_severity severity) in
  let ticket_number := ticket_number_at (number_time C) in
  let description := format_ticket_description T investigation in
  let ticket :=
    {| ServiceNowTicket.ticket_number := ticket_number;
       ServiceNowTicket.priority := priority;
       ServiceNowTicket.short_description :=
         "[" +:+ upper severity +:+ "] " +:+
         AlertInvestigation.alert_name investigation;
       ServiceNowTicket.description := description;
       ServiceNowTicket.assignment_group := "platform-ops";
       ServiceNowTicket.category := "Infrastructure";
       ServiceNowTicket.state := "New";
       ServiceNowTicket.created_at := created_time C;
       ServiceNowTicket.ai_generated := true;
       ServiceNowTicket.investigation_summary :=
         AlertInvestigation.root_cause_hypothesis investigation |} in
  let* _ := write_text FS (ticket_number +:+ ".json") (JsonFile ticket) in
  let* _ := write_text FS (ticket_number +:+ ".txt")
              (TextFile (format_ticket_text T ticket)) in
  ret ticket.

(** [process_alert(alert, common_labels, common_annotations)]: the
    background task.  Whatever the body raises is caught and logged: the
    [AttributeError] of [.lower()] on a severity that is not a string, the
    [ValidationError] of the investigation, an error of a file write. *)
Definition process_alert (T : text_functions) (E : reasoning_engine)
    (FS : filesystem) (C : clock) (alert : GrafanaAlert.t)
    (common_labels common_annotations : anydict) : M directory unit :=
  try_except
    (let alert_name :=
       dict_get (GrafanaAlert.labels alert) "alertname" (AnyStr "Unknown Alert") in
     let* severity :=
       lift (str_lower (dict_get (GrafanaAlert.labels alert) "severity"
                          (AnyStr "unknown"))) in
     let description :=
       dict_get (GrafanaAlert.annotations alert) "description"
         (AnyStr "No description") in
     let summary :=
       dict_get (GrafanaAlert.annotations alert) "summary" alert_name in
     let metric_values := default [] (GrafanaAlert.values alert) in
     let* investigation :=
       lift (investigate_alert_with_ai T E C alert_name severity description
               summary metric_values (GrafanaAlert.labels alert)
               (GrafanaAlert.annotations alert)) in
     let* ticket := create_servicenow_ticket T FS C alert investigation severity in
     ret tt)
    (fun e => ret tt).

(** [TICKETS_DIR.glob("*.json")]: the names that end in [.json]. *)
Definition glob_json (dir : directory) : list string :=
  filter (fun name => endswith name ".json") (map_to_list dir).*1.

(** [sorted(names, reverse=True)] *)
Definition sorted_reverse (names : list string) : list string :=
  merge_sort (flip String.le) names.

(** The body of the response of [list_tickets]. *)
Record ticket_list : Type := mk_ticket_list {
  count : nat;
  tickets : list json_data }.

(** [list_tickets(limit)]; the query parameter is optional and defaults
    to 50.  A file that cannot be read as JSON is logged and skipped. *)
Definition list_tickets (limit : option Z) (dir : directory) : ticket_list :=
  let limit := default 50%Z limit in
  let tickets :=
    foldl
      (fun tickets ticket_file =>
         match read_json dir ticket_file with
         | Return ticket_data => tickets ++ [ticket_data]
         | Raise e => tickets
         end)
      [] (slice_to limit (sorted_reverse (glob_json dir))) in
  {| count := length tickets; tickets := tickets |}.

(** [get_ticket(ticket_number)] *)
Definition get_ticket (ticket_number : string) (dir : directory)
    : result json_data :=
  let ticket_file := ticket_number +:+ ".json" in
  match dir !! ticket_file with
  | None =>
      Raise (Exc "HTTPException" ("Ticket " +:+ ticket_number +:+ " not found"))
  | Some _ => read_json dir ticket_file
  end.

(** [clear_tickets()]: the emptied directory and the number of files
    removed. *)
Definition clear_tickets (dir : directory) : directory * nat :=
  (∅, length (map_to_list dir)).

(** ** Tool result cache *)

(** A JSON scalar, as a value of a tool's [arguments] dictionary. *)
Inductive pyval : Type :=
| PyNone
| PyBool (b : bool)
| PyInt (n : Z)
| PyStr (s : string).

#[global] Instance pyval_eq_dec : EqDecision pyval.
Proof. solve_decision. Defined.

#[global] Instance pyval_countable : Countable pyval.
Proof.
  refine (inj_countable'
    (fun v => match v with
              | PyNone => inl tt
              | PyBool b => inr (inl b)
              | PyInt n => inr (inr (inl n))
              | PyStr s => inr (inr (inr s))
              end)
    (fun x => match x with
              | inl _ => PyNone
              | inr (inl b) => PyBool b
              | inr (inr (inl n)) => PyInt n
              | inr (inr (inr s)) => PyStr s
              end) _).
  intros []; reflexivity.
Defined.

(** A Python [dict] with string keys, as its items in insertion order; the
    keys of a dictionary are distinct. *)
Definition pydict : Type := list (string * pyval).

(** The [content] of a [CallToolResult]: a list of content blocks, here
    their text.  It is a list, never [None]. *)
Definition content : Type := list string.

(** Modelled from the spec: the module [backend.tools.cache] ([get_cache]
    and the cache's [get], [set] and [invalidate]) is imported by
    [mcp_client.py] but is not among the sources.  The spec has the cache
    map (tool name, canonicalized arguments) to a result, the
    canonicalization being deterministic and independent of key order;
    [get] answers the value or absent, [set] stores, and [invalidate] drops
    one entry, or every entry of the tool when no arguments are given.
    The canonical form of a dictionary is here the finite map of its
    items. *)
Definition canonical_arguments (arguments : pydict) : gmap string pyval :=
  list_to_map arguments.

(** Modelled from the spec: the cache, a map from (tool name, canonical
    arguments) to the cached content. *)
Abbreviation tool_cache := (gmap (string * gmap string pyval) content).

(** Modelled from the spec: [get(name, args)], the value or absent. *)
Definition cache_get (c : tool_cache) (name : string) (arguments : pydict)
    : option content :=
  c !! (name, canonical_arguments arguments).

(** Modelled from the spec: [set(name, args, value)]. *)
Definition cache_set (c : tool_cache) (name : string) (arguments : pydict)
    (value : content) : tool_cache :=
  <[(name, canonical_arguments arguments) := value]> c.

(** Modelled from the spec: [invalidate(name, args)]; without arguments,
    every entry of the tool goes. *)
Definition cache_invalidate (c : tool_cache) (name : string)
    (arguments : option pydict) : tool_cache :=
  match arguments with
  | Some a => delete (name, canonical_arguments a) c
  | None => filter (fun entry => entry.1.1 <> name) c
  end.

(** ** MCP client *)

(** What the exit stack holds: the transport context and the session
    context, tagged with the connection attempt that entered them. *)
Inductive resource : Type :=
| Transport (attempt : nat)
| ClientSession (attempt : nat).

#[global] Instance resource_eq_dec : EqDecision resource.
Proof. solve_decision. Defined.

(** How far one connection attempt gets at the server. *)
Inductive connect_outcome : Type :=
| TransportRaises (e : exn)
| SessionRaises (e : exn)
| InitializeRaises (e : exn)
| Connects.

(** The MCP server and the contexts, as the client meets them:
    the outcome of the [n]-th connection attempt made in this process, the
    exception that leaving a context raises (if any), and what the [n]-th
    [call_tool] does: raises, or returns a response, [None] standing for a
    response that is falsy or has no [content]. *)
Record server : Type := mk_server {
  connect_outcome_at : nat -> connect_outcome;
  release_error : resource -> option exn;
  call_tool_at : nat -> string -> pydict -> result (option content) }.

Inductive event : Type :=
| Acquire (r : resource)
| Release (r : resource)
| CallTool (name : string) (arguments : pydict).

(** What the client changes outside itself: how many connection attempts
    and remote calls were made, the contexts entered and left and the
    remote calls in order, the log (level and message), and the process-wide
    cache. *)
Record world : Type := mk_world {
  attempts_started : nat;
  calls_made : nat;
  trace : list event;
  log : list (string * string);
  cache : tool_cache }.

Definition add_event (ev : event) (w : world) : world :=
  mk_world (attempts_started w) (calls_made w) (trace w ++ [ev]) (log w) (cache w).

Definition add_log (level msg : string) (w : world) : world :=
  mk_world (attempts_started w) (calls_made w) (trace w) (log w ++ [(level, msg)])
    (cache w).

Definition count_attempt (w : world) : world :=
  mk_world (S (attempts_started w)) (calls_made w) (trace w) (log w) (cache w).

Definition count_call (w : world) : world :=
  mk_world (attempts_started w) (S (calls_made w)) (trace w) (log w) (cache w).

Definition set_cache (c : tool_cache) (w : world) : world :=
  mk_world (attempts_started w) (calls_made w) (trace w) (log w) c.

(** The fields [__init__] sets, without [settings].  [session] is the
    [ClientSession] of the attempt that opened it; [_exit_stack] is the
    [AsyncExitStack], most recently entered context first. *)
Record MCPClient : Type := mk_client {
  session : option nat;
  _exit_stack : option (list resource);
  _connection_attempts : nat;
  _max_retries : nat }.

(** [MCPClient(settings)] *)
Definition new_client : MCPClient :=
  {| session := None; _exit_stack := None;
     _connection_attempts := 0; _max_retries := 3 |}.

(** [AsyncExitStack.__aexit__(None, None, None)]: the contexts are left
    most recent first, all of them even when one raises; the exception
    raised last is the one that comes out.  The stack is empty
    afterwards. *)
Fixpoint aexit (Srv : server) (stack : list resource) (pending : option exn)
    (w : world) : world * option exn :=
  match stack with
  | [] => (w, pending)
  | r :: rest =>
      aexit Srv rest
        (match release_error Srv r with Some e => Some e | None => pending end)
        (add_event (Release r) w)
  end.

Definition client_state : Type := MCPClient * world.

(** The [try] body of one iteration of the loop of [connect]: a fresh exit
    stack, the transport context, the session context, [initialize()],
    then the counter reset. *)
Definition connect_attempt (Srv : server) : M client_state unit :=
  fun '(self, w) =>
    let n := attempts_started w in
    let w :=
      add_log "info"
        ("Connecting to MCP server (attempt " +:+
         pretty (_connection_attempts self + 1) +:+ "/" +:+
         pretty (_max_retries self) +:+ ")")
        (count_attempt w) in
    let attempts := _connection_attempts self in
    let retries := _max_retries self in
    match connect_outcome_at Srv n with
    | TransportRaises e =>
        ((mk_client (session self) (Some []) attempts retries, w), Raise e)
    | SessionRaises e =>
        ((mk_client (session self) (Some [Transport n]) attempts retries,
          add_event (Acquire (Transport n)) w),
         Raise e)
    | InitializeRaises e =>
        ((mk_client (Some n) (Some [ClientSession n; Transport n]) attempts retries,
          add_event (Acquire (ClientSession n)) (add_event (Acquire (Transport n)) w)),
         Raise e)
    | Connects =>
        ((mk_client (Some n) (Some [ClientSession n; Transport n]) 0 retries,
          add_log "info" "Successfully connected to MCP server"
            (add_event (Acquire (ClientSession n))
               (add_event (Acquire (Transport n)) w))),
         Return tt)
    end.

(** The [except Exception as e] handler of that iteration up to the test
    of the retry bound: count the failure, log it, and leave the exit stack
    (whatever that raises is passed over), then drop stack and session. *)
Definition connect_failed (Srv : server) (e : exn) : M client_state unit :=
  fun '(self, w) =>
    let attempts := _connection_attempts self + 1 in
    let w := add_log "error" ("Failed to connect to MCP server: " +:+ exn_str e) w in
    match _exit_stack self with
    | Some stack =>
        let '(w', _) := aexit Srv stack None w in
        ((mk_client None None attempts (_max_retries self), w'), Return tt)
    | None =>
        ((mk_client (session self) None attempts (_max_retries self), w), Return tt)
    end.

(** The [while self._connection_attempts < self._max_retries] loop of
    [connect].  Every iteration returns, raises, or raises the counter, so
    [_max_retries - _connection_attempts] iterations are enough: [connect]
    starts the loop with that much [fuel]. *)
Fixpoint connect_loop (Srv : server) (fuel : nat) (last_error : option exn)
    : M client_state unit :=
  fun '(self, w) =>
    if _connection_attempts self <? _max_retries self then
      match fuel with
      | 0 => ((self, w), Return tt)
      | S fuel' =>
          match connect_attempt Srv (self, w) with
          | (st, Return _) => (st, Return tt)
          | (st, Raise e) =>
              let last_error := Some e in
              let '((self', w'), _) := connect_failed Srv e st in
              if _max_retries self' <=? _connection_attempts self' then
                ((self', w'),
                 Raise (ExcFrom "Exception"
                          ("Failed to connect to MCP server after " +:+
                           pretty (_max_retries self') +:+ " attempts: " +:+
                           exn_str e) e))
              else connect_loop Srv fuel' last_error (self', w')
          end
      end
    else ((self, w), Return tt).

(** [connect()] *)
Definition connect (Srv : server) : M client_state unit :=
  fun '(self, w) =>
    match session self with
    | Some _ => ((self, add_log "debug" "Already connected to MCP server" w), Return tt)
    | None =>
        connect_loop Srv (_max_retries self - _connection_attempts self) None (self, w)
    end.

(** [disconnect()] *)
Definition disconnect (Srv : server) : M client_state unit :=
  try_except
    (fun '(self, w) =>
       match _exit_stack self with
       | Some stack =>
           let w := add_log "info" "Disconnecting from MCP server" w in
           match aexit Srv stack None w with
           | (w', Some e) =>
               ((mk_client (session self) (Some []) (_connection_attempts self)
                   (_max_retries self), w'),
                Raise e)
           | (w', None) =>
               ((mk_client None None 0 (_max_retries self), w'), Return tt)
           end
       | None => ((self, w), Return tt)
       end)
    (fun e =>
       modify (fun '(self, w) =>
                 (self, add_log "warning" ("Error during disconnect: " +:+ exn_str e) w))).

(** [ensure_connected()] *)
Definition ensure_connected (Srv : server) : M client_state unit :=
  fun '(self, w) =>
    match session self with
    | None =>
        connect Srv
          (self, add_log "warning" "Connection lost, attempting to reconnect" w)
    | Some _ => ((self, w), Return tt)
    end.

(** [self.session.call_tool(name=name, arguments=arguments)] *)
Definition call_tool (Srv : server) (name : string) (arguments : pydict)
    : M client_state (option content) :=
  fun '(self, w) =>
    match session self with
    | None =>
        ((self, w),
         Raise (Exc "AttributeError"
                  "'NoneType' object has no attribute 'call_tool'"))
    | Some _ =>
        ((self, add_event (CallTool name arguments) (count_call w)),
         call_tool_at Srv (calls_made w) name arguments)
    end.

(** What [invoke_tool] returns: the content of the response, or the
    dictionary [{"error": ...}]. *)
Inductive tool_result : Type :=
| ToolContent (c : content)
| ToolError (error : string).

(** [invoke_tool(name, arguments)] *)
Definition invoke_tool (Srv : server) (name : string) (arguments : pydict)
    : M client_state tool_result :=
  fun '(self, w) =>
    match cache_get (cache w) name arguments with
    | Some cached_result =>
        ((self, add_log "info" ("Cache hit for tool: " +:+ name) w),
         Return (ToolContent cached_result))
    | None =>
        try_except
          (let* _ := ensure_connected Srv in
           let* _ := modify (fun '(self, w) =>
                       (self, add_log "debug" ("Invoking tool: " +:+ name) w)) in
           let* response := call_tool Srv name arguments in
           match response with
           | Some result =>
               let* _ := modify (fun '(self, w) =>
                           (self, set_cache (cache_set (cache w) name arguments result) w)) in
               ret (ToolContent result)
           | None =>
               let* _ := modify (fun '(self, w) =>
                           (self, add_log "warning"
                                    ("Tool " +:+ name +:+ " returned no content") w)) in
               ret (ToolError ("No response from tool " +:+ name))
           end)
          (fun e =>
             let* _ := modify (fun '(self, w) =>
                         (self, add_log "error"
                                  ("Tool invocation failed: " +:+ exn_str e) w)) in
             raise (ExcFrom "Exception"
                      ("Failed to invoke tool '" +:+ name +:+ "': " +:+ exn_str e) e))
          (self, w)
    end.

(** [invalidate_cache(tool_name, arguments)] *)
Definition invalidate_cache (tool_name : string) (arguments : option pydict)
    : M client_state unit :=
  modify (fun '(self, w) =>
            (self,
             add_log "info" ("Invalidated cache for: " +:+ tool_name)
               (set_cache (cache_invalidate (cache w) tool_name arguments) w))).

(** The contexts a trace leaves open: entered and not left since. *)
Fixpoint open_resources (tr : list event) (held : list resource) : list resource :=
  match tr with
  | [] => held
  | Acquire r :: tr' => open_resources tr' (r :: held)
  | Release r :: tr' => open_resources tr' (filter (fun r' => r' <> r) held)
  | CallTool _ _ :: tr' => open_resources tr' held
  end.

(** ** Parsing the engine's answer *)

(** The helpers of [alerts.py] that read the free text of the engine's
    answer, with the [str] methods they use.  The investigation above
    takes them as parameters; here they are as the source has them.
    Characters are the bytes of the text; white space, digits and letters
    are the ASCII ones, so that the functions are those of Python on ASCII
    text. *)
Module Parsers.

(** [c.isspace()] on ASCII: tab to carriage return, the separators
    [0x1c] to [0x1f], and the space. *)
Definition isspace (c : ascii) : bool :=
  let n := nat_of_ascii c in
  ((9 <=? n) && (n <=? 13)) || ((28 <=? n) && (n <=? 32)).

(** [c.isdigit()] on ASCII *)
Definition isdigit (c : ascii) : bool :=
  let n := nat_of_ascii c in
  (48 <=? n) && (n <=? 57).

(** [text.split('\n')] *)
Fixpoint split_lines (text : string) : list string :=
  match text with
  | EmptyString => [EmptyString]
  | String c rest =>
      if Ascii.eqb c "010" then EmptyString :: split_lines rest
      else
        match split_lines rest with
        | line :: lines => String c line :: lines
        | [] => [String c EmptyString]
        end
  end.

(** [s.startswith(prefix)] *)
Definition startswith (s prefix : string) : bool := String.prefix prefix s.

(** [sub in s] *)
Fixpoint contains (s sub : string) : bool :=
  String.prefix sub s ||
  match s with
  | EmptyString => false
  | String _ s' => contains s' sub
  end.

(** Dropping the leading characters that satisfy [p]. *)
Fixpoint lstrip_by (p : ascii -> bool) (s : string) : string :=
  match s with
  | EmptyString => EmptyString
  | String c s' => if p c then lstrip_by p s' else s
  end.

(** Dropping the trailing characters that satisfy [p]. *)
Fixpoint rstrip_by (p : ascii -> bool) (s : string) : string :=
  match s with
  | EmptyString => EmptyString
  | String c s' =>
      match rstrip_by p s' with
      | EmptyString => if p c then EmptyString else String c EmptyString
      | rest => String c rest
      end
  end.

(** [s.strip()] *)
Definition strip (s : string) : string :=
  rstrip_by isspace (lstrip_by isspace s).

(** [c in chars] for a character *)
Fixpoint char_in (c : ascii) (chars : string) : bool :=
  match chars with
  | EmptyString => false
  | String c' chars' => Ascii.eqb c c' || char_in c chars'
  end.

(** [s.lstrip(chars)] *)
Definition lstrip_chars (s chars : string) : string :=
  lstrip_by (fun c => char_in c chars) s.

(** The truth value of a string: it is not empty. *)
Definition nonempty (s : string) : bool :=
  match s with
  | EmptyString => false
  | String _ _ => true
  end.

(** [s[0].isdigit()], for a string that is not empty *)
Definition first_isdigit (s : string) : bool :=
  match s with
  | EmptyString => false
  | String c _ => isdigit c
  end.

(** The first test of the loop of [extract_section]: the line names the
    section and carries a marker. *)
Definition section_marker (section_name line : string) : bool :=
  contains (lower line) (lower section_name) &&
  (contains line ":**" || contains line "###" || contains line "**").

(** The loop of [extract_section] over the remaining lines; [break] ends
    it with the lines collected so far. *)
Fixpoint section_loop (section_name : string) (lines : list string)
    (in_section : bool) (section_lines : list string) : list string :=
  match lines with
  | [] => section_lines
  | line :: rest =>
      if section_marker section_name line then
        section_loop section_name rest true section_lines
      else if in_section &&
              (startswith line "**" || startswith line "###" ||
               negb (nonempty (strip line))) then
        match section_lines with
        | _ :: _ => section_lines
        | [] => section_loop section_name rest in_section section_lines
        end
      else if in_section then
        section_loop section_name rest in_section (section_lines ++ [strip line])
      else section_loop section_name rest in_section section_lines
  end.

(** [extract_section(text, section_name)] *)
Definition extract_section (text section_name : string) : string :=
  let lines := split_lines text in
  let section_lines := section_loop section_name lines false [] in
  match section_lines with
  | _ :: _ => String.concat " " section_lines
  | [] => "See full investigation for " +:+ section_name
  end.

(** The first test of the loop of [extract_actions]. *)
Definition actions_heading (line : string) : bool :=
  contains (lower line) "recommended" && contains (lower line) "action".

(** The loop of [extract_actions] over the remaining lines. *)
Fixpoint actions_loop (lines : list string) (in_actions : bool)
    (actions : list string) : list string :=
  match lines with
  | [] => actions
  | line :: rest =>
      if actions_heading line then actions_loop rest true actions
      else if in_actions then
        let stripped := strip line in
        if nonempty stripped &&
           (startswith stripped "-" || startswith stripped "*" ||
            first_isdigit stripped) then
          let action := lstrip_chars stripped "-*0123456789. " in
          if nonempty action then actions_loop rest in_actions (actions ++ [action])
          else actions_loop rest in_actions actions
        else if nonempty stripped && negb (startswith stripped "**") then
          actions_loop rest in_actions (actions ++ [stripped])
        else if startswith stripped "**" || startswith stripped "###" then
          actions
        else actions_loop rest in_actions actions
      else actions_loop rest in_actions actions
  end.

(** [extract_actions(text)] *)
Definition extract_actions (text : string) : list string :=
  let lines := split_lines text in
  let actions := actions_loop lines false [] in
  match actions with
  | _ :: _ => take 5 actions
  | [] => ["Review alert in Grafana"; "Check service logs"; "Escalate if needed"]
  end.

(** The keywords of [extract_evidence]. *)
Definition evidence_keywords : list string :=
  ["metric"; "log"; "dashboard"; "query"; "value"; "error"].

(** The two tests of the loop of [extract_evidence]. *)
Definition evidence_line (line : string) : bool :=
  existsb (fun keyword => contains (lower line) keyword) evidence_keywords &&
  (contains line ":" && negb (startswith line "#")).

(** [extract_evidence(text)] *)
Definition extract_evidence (text : string) : list string :=
  let lines := split_lines text in
  let evidence :=
    foldl (fun evidence line =>
             if evidence_line line then evidence ++ [strip line] else evidence)
      [] lines in
  match evidence with
  | _ :: _ => take 10 evidence
  | [] => ["See investigation details above"]
  end.

End Parsers.

(** The text functions with the parsers of the source in place. *)
Definition with_source_parsers (T : text_functions) : text_functions :=
  {| investigation_prompt := investigation_prompt T;
     extract_section := Parsers.extract_section;
     extract_actions := Parsers.extract_actions;
     extract_evidence := Parsers.extract_evidence;
     format_ticket_description := format_ticket_description T;
     format_ticket_text := format_ticket_text T |}.

(** ** MCP client as a context manager *)

(** [__aenter__()]: connects and returns the client. *)
Definition __aenter__ (Srv : server) : M client_state MCPClient :=
  let* _ := connect Srv in
  fun st => (st, Return st.1).

(** [__aexit__(exc_type, exc_val, exc_tb)]: disconnects; it returns [None],
    so an exception of the block is passed on. *)
Definition __aexit__ (Srv : server) : M client_state unit :=
  disconnect Srv.

(** * Specification-side definitions and sample inputs *)

(** ** Webhook ingress *)

(** The severity the webhook reads for an alert: the [severity] label,
    ["info"] when absent, in lower case; there is none when the label is
    not a string. *)
Definition ingress_severity (alert : GrafanaAlert.t) : result string :=
  str_lower (dict_get (GrafanaAlert.labels alert) "severity" (AnyStr "info")).

(** The alert passes the severity filter of the webhook. *)
Definition major (alert : GrafanaAlert.t) : Prop :=
  exists severity,
    ingress_severity alert = Return severity /\ severity ∈ ["critical"; "high"].

#[global] Instance major_dec alert : Decision (major alert).
Proof.
  unfold major. destruct (ingress_severity alert) as [severity|e].
  - destruct (decide (severity ∈ ["critical"; "high"])) as [Hin|Hout].
    + left. by exists severity.
    + right. intros (s & [= <-] & Hin). by apply Hout.
  - right. by intros (s & [=] & _).
Defined.

(** The severity label of the alert is a string, or absent. *)
Definition has_severity (alert : GrafanaAlert.t) : Prop :=
  exists severity, ingress_severity alert = Return severity.

(** The alerts among [alerts] that the webhook keeps. *)
Definition retained (alerts : list GrafanaAlert.t) : list GrafanaAlert.t :=
  filter major alerts.

(** The alerts of a payload that the webhook keeps. *)
Definition retained_alerts (payload : GrafanaWebhookPayload.t) : list GrafanaAlert.t :=
  retained (GrafanaWebhookPayload.alerts payload).

(** The task the webhook queues for an alert of a payload. *)
Definition task_of (payload : GrafanaWebhookPayload.t) (alert : GrafanaAlert.t)
    : background_task :=
  mk_task alert (GrafanaWebhookPayload.commonLabels payload)
    (GrafanaWebhookPayload.commonAnnotations payload).

(** The entry of the response for an alert; the severity of an alert
    whose label is not a string is never asked for. *)
Definition acknowledgement (alert : GrafanaAlert.t) : queued_alert :=
  mk_queued (GrafanaAlert.fingerprint alert)
    (match ingress_severity alert with Return severity => severity | Raise _ => "" end)
    "queued_for_investigation".

(** An alert named HighCPU with the given [severity] label. *)
Definition alert_with (fingerprint : string) (severity : pyany) : GrafanaAlert.t :=
  {| GrafanaAlert.status := "firing";
     GrafanaAlert.labels := [("alertname", AnyStr "HighCPU"); ("severity", severity)];
     GrafanaAlert.annotations := [("description", AnyStr "CPU above 90%")];
     GrafanaAlert.startsAt := "2024-05-01T10:00:00Z";
     GrafanaAlert.endsAt := None;
     GrafanaAlert.generatorURL := None;
     GrafanaAlert.fingerprint := fingerprint;
     GrafanaAlert.values := None |}.

Definition sample_alert (fingerprint severity : string) : GrafanaAlert.t :=
  {| GrafanaAlert.status := "firing";
     GrafanaAlert.labels :=
       [("alertname", AnyStr "HighCPU"); ("severity", AnyStr severity)];
     GrafanaAlert.annotations := [("description", AnyStr "CPU above 90%")];
     GrafanaAlert.startsAt := "2024-05-01T10:00:00Z";
     GrafanaAlert.endsAt := None;
     GrafanaAlert.generatorURL := None;
     GrafanaAlert.fingerprint := fingerprint;
     GrafanaAlert.values := None |}.

Definition sample_payload (status : string) (alerts : list GrafanaAlert.t)
    : GrafanaWebhookPayload.t :=
  {| GrafanaWebhookPayload.receiver := "sm3";
     GrafanaWebhookPayload.status := status;
     GrafanaWebhookPayload.alerts := alerts;
     GrafanaWebhookPayload.groupLabels := [];
     GrafanaWebhookPayload.commonLabels := [];
     GrafanaWebhookPayload.commonAnnotations := [];
     GrafanaWebhookPayload.externalURL := "http://grafana";
     GrafanaWebhookPayload.version := "4";
     GrafanaWebhookPayload.groupKey := "g";
     GrafanaWebhookPayload.truncatedAlerts := 0 |}.

(** ** Ticket priority *)

(** The mapping of the spec: [critical] to P1, [high] to P2, [warning] to
    P3, anything else to P4. *)
Definition spec_priority (severity : string) : string :=
  if decide (severity = "critical") then "P1"
  else if decide (severity = "high") then "P2"
  else if decide (severity = "warning") then "P3"
  else "P4".

(** ** Investigation fallback *)

(** The em dash, as the three bytes of its UTF-8 encoding. *)
Definition em_dash : string :=
  String (ascii_of_nat 226) (String (ascii_of_nat 128)
    (String (ascii_of_nat 148) EmptyString)).

(** The fallback hypothesis as the spec words it, with an em dash. *)
Definition spec_fallback_hypothesis : string :=
  "AI investigation failed " +:+ em_dash +:+ " manual investigation required".

(** The fallback investigation of the code. *)
Definition fallback_investigation (alert_name severity : string)
    (description : pyany) (summary : string)
    (now : datetime.t) : AlertInvestigation.t :=
  {| AlertInvestigation.alert_name := alert_name;
     AlertInvestigation.severity := severity;
     AlertInvestigation.summary := summary;
     AlertInvestigation.root_cause_hypothesis :=
       "AI investigation failed - manual investigation required";
     AlertInvestigation.impact_assessment :=
       "Alert triggered: " +:+ py_str description;
     AlertInvestigation.recommended_actions :=
       ["Check Grafana dashboard"; "Review recent deployments"; "Check service logs"];
     AlertInvestigation.related_evidence := ["AI investigation unavailable"];
     AlertInvestigation.confidence := 0%float;
     AlertInvestigation.investigated_at := now |}.

Definition sample_text : text_functions :=
  {| investigation_prompt :=
       fun alert_name _ _ _ _ _ => "Investigate " +:+ py_str alert_name;
     extract_section := fun text section_name => text;
     extract_actions := fun text => [text];
     extract_evidence := fun text => [text];
     format_ticket_description := AlertInvestigation.root_cause_hypothesis;
     format_ticket_text := ServiceNowTicket.short_description |}.

(** An engine whose chat turn raises. *)
Definition unreachable_engine : reasoning_engine :=
  {| agent_setup := Return tt;
     run_chat := fun _ _ => Raise (Exc "ConnectionError" "LLM unreachable") |}.

Definition sample_time (second : Z) : datetime.t :=
  datetime.mk 2024 5 1 10 0 second 0.

Definition sample_clock (second : Z) : clock :=
  {| session_timestamp := "1714557600.0";
     investigated_time := sample_time second;
     number_time := sample_time second;
     created_time := sample_time second |}.

(** A file system on which every write succeeds. *)
Definition reliable_fs : filesystem := {| write_error := fun _ => None |}.

(** The empty [TICKETS_DIR]. *)
Definition no_tickets : directory := ∅.

(** ** MCP client *)

(** The exception one connection attempt ends with, if it fails. *)
Definition attempt_error (o : connect_outcome) : option exn :=
  match o with
  | TransportRaises e | SessionRaises e | InitializeRaises e => Some e
  | Connects => None
  end.

(** The contexts one failed attempt enters and the handler leaves again,
    in order. *)
Definition failed_attempt_trace (o : connect_outcome) (n : nat) : list event :=
  match o with
  | TransportRaises _ => []
  | SessionRaises _ => [Acquire (Transport n); Release (Transport n)]
  | InitializeRaises _ =>
      [Acquire (Transport n); Acquire (ClientSession n);
       Release (ClientSession n); Release (Transport n)]
  | Connects => []
  end.

(** What leaving the contexts of a stack raises in the end: the exception
    of the last context that raises, most recent context first. *)
Definition teardown_error (Srv : server) (stack : list resource) (pending : option exn)
    : option exn :=
  foldl (fun p r => match release_error Srv r with Some e => Some e | None => p end)
    pending stack.

(** The message of the exception [connect] raises after [n] failed
    attempts, the last with exception [e]. *)
Definition connect_error (n : nat) (e : exn) : exn :=
  ExcFrom "Exception"
    ("Failed to connect to MCP server after " +:+ pretty n +:+ " attempts: " +:+
     exn_str e) e.

(** The exception [invoke_tool] raises for tool [name] on failure [e]. *)
Definition invocation_error (name : string) (e : exn) : exn :=
  ExcFrom "Exception" ("Failed to invoke tool '" +:+ name +:+ "': " +:+ exn_str e) e.

(** A server that refuses every connection. *)
Definition refusing_server : server :=
  {| connect_outcome_at := fun n => TransportRaises (Exc "ConnectError" ("refused " +:+ pretty n));
     release_error := fun _ => None;
     call_tool_at := fun _ _ _ => Raise (Exc "McpError" "no session") |}.

(** A server that accepts connections and answers every call, and whose
    session context raises when it is left. *)
Definition sticky_server : server :=
  {| connect_outcome_at := fun _ => Connects;
     release_error := fun r =>
       match r with
       | ClientSession _ => Some (Exc "RuntimeError" "session close failed")
       | Transport _ => None
       end;
     call_tool_at := fun _ name _ => Return (Some ["result of " +:+ name]) |}.

(** A server that answers the first call and fails the later ones. *)
Definition flaky_server : server :=
  {| connect_outcome_at := fun _ => Connects;
     release_error := fun _ => None;
     call_tool_at := fun n name _ =>
       match n with
       | 0 => Return (Some ["result of " +:+ name])
       | S _ => Raise (Exc "McpError" "timeout")
       end |}.

Definition fresh_world : world :=
  {| attempts_started := 0; calls_made := 0; trace := []; log := []; cache := ∅ |}.

(** Every connection attempt at the server fails. *)
Definition every_attempt_fails (Srv : server) : Prop :=
  forall n, is_Some (attempt_error (connect_outcome_at Srv n)).

(** The events of the failed attempts number [first], ..., [first + count - 1]. *)
Definition failed_attempts_trace (Srv : server) (first count : nat) : list event :=
  concat (map (fun n => failed_attempt_trace (connect_outcome_at Srv n) n)
            (seq first count)).

(** A client connected by attempt 0. *)
Definition connected_client : MCPClient :=
  mk_client (Some 0) (Some [ClientSession 0; Transport 0]) 0 3.

(** The same arguments in two insertion orders. *)
Definition query_arguments : pydict := [("query", PyStr "up"); ("step", PyInt 15)].
Definition query_arguments_swapped : pydict := [("step", PyInt 15); ("query", PyStr "up")].

(** Connecting makes no remote call and leaves the cache alone. *)
Definition same_calls (w w' : world) : Prop :=
  cache w' = cache w /\ calls_made w' = calls_made w.


(** ** Ticket store *)

(** One call of [create_servicenow_ticket]: its clock readings and its
    arguments. *)
Record ticket_request : Type := mk_request {
  request_clock : clock;
  request_alert : GrafanaAlert.t;
  request_investigation : AlertInvestigation.t;
  request_severity : string }.

(** The calls of [create_servicenow_ticket] for a list of requests, one
    after the other; the tickets they return, in order of creation. *)
Fixpoint create_tickets (T : text_functions) (FS : filesystem)
    (requests : list ticket_request) : M directory (list ServiceNowTicket.t) :=
  match requests with
  | [] => ret []
  | r :: rest =>
      let* ticket :=
        create_servicenow_ticket T FS (request_clock r) (request_alert r)
          (request_investigation r) (request_severity r) in
      let* tickets := create_tickets T FS rest in
      ret (ticket :: tickets)
  end.

(** The clock readings that number the tickets of a list of requests. *)
Definition number_times (requests : list ticket_request) : list datetime.t :=
  map (fun r => number_time (request_clock r)) requests.

(** The name of the JSON file of a ticket. *)
Definition ticket_file (ticket : ServiceNowTicket.t) : string :=
  ServiceNowTicket.ticket_number ticket +:+ ".json".

Definition sample_investigation : AlertInvestigation.t :=
  fallback_investigation "HighCPU" "critical" (AnyStr "CPU above 90%") "CPU is high"
    (sample_time 0).

(** A request for a ticket at second [second] of the sample minute. *)
Definition sample_request (second : Z) : ticket_request :=
  mk_request (sample_clock second) (sample_alert "a1" "critical")
    sample_investigation "critical".

(** The ticket that request makes. *)
Definition sample_ticket (second : Z) : ServiceNowTicket.t :=
  {| ServiceNowTicket.ticket_number := ticket_number_at (sample_time second);
     ServiceNowTicket.priority := "P1";
     ServiceNowTicket.short_description := "[CRITICAL] HighCPU";
     ServiceNowTicket.description :=
       format_ticket_description sample_text sample_investigation;
     ServiceNowTicket.assignment_group := "platform-ops";
     ServiceNowTicket.category := "Infrastructure";
     ServiceNowTicket.state := "New";
     ServiceNowTicket.created_at := sample_time second;
     ServiceNowTicket.ai_generated := true;
     ServiceNowTicket.investigation_summary :=
       AlertInvestigation.root_cause_hypothesis sample_investigation |}.

(** The name of the text file of a ticket. *)
Definition ticket_text_file (ticket : ServiceNowTicket.t) : string :=
  ServiceNowTicket.ticket_number ticket +:+ ".txt".

(** The directory after the two files of each ticket of a list were
    written, in order. *)
Definition store_of (T : text_functions) (tickets : list ServiceNowTicket.t)
    (dir : directory) : directory :=
  foldl (fun d ticket =>
           <[ticket_text_file ticket := TextFile (format_ticket_text T ticket)]>
             (<[ticket_file ticket := JsonFile ticket]> d))
    dir tickets.

(** The tickets of a list are numbered at valid clock readings, each in a
    later second than the one before. *)
Definition numbered_in_order (tickets : list ServiceNowTicket.t)
    (times : list datetime.t) : Prop :=
  map ServiceNowTicket.ticket_number tickets = map ticket_number_at times /\
  Forall datetime.valid times /\
  Sorted datetime.earlier_second times.

(** [t1] is numbered before [t2]: its file names are smaller than those of
    [t2], whatever the extensions. *)
Definition numbered_before (t1 t2 : ServiceNowTicket.t) : Prop :=
  forall ext1 ext2,
    String.compare (ServiceNowTicket.ticket_number t1 +:+ ext1)
      (ServiceNowTicket.ticket_number t2 +:+ ext2) = Lt.

(** Three creations at seconds 1, 2 and 3 of the sample minute. *)
Definition spaced_requests : list ticket_request :=
  [sample_request 1; sample_request 2; sample_request 3].

(** A creation later in second 2 of the sample minute, for a high alert. *)
Definition burst_request : ticket_request :=
  mk_request
    {| session_timestamp := "1714557602.5";
       investigated_time := datetime.mk 2024 5 1 10 0 2 400000;
       number_time := datetime.mk 2024 5 1 10 0 2 500000;
       created_time := datetime.mk 2024 5 1 10 0 2 500100 |}
    (sample_alert "a2" "high") sample_investigation "high".

(** Three creations, the last two within one second. *)
Definition burst_requests : list ticket_request :=
  [sample_request 1; sample_request 2; burst_request].

(** ** Confidence *)

(** A message of [n] characters. *)
Fixpoint text_of_length (n : nat) : string :=
  match n with
  | 0 => EmptyString
  | S n' => String "x" (text_of_length n')
  end.

(** A result of the engine with three tool calls and a message of 1000
    characters. *)
Definition sample_result : AgentResult.t :=
  {| AgentResult.message := text_of_length 1000;
     AgentResult.tool_calls := ["prometheus_query"; "loki_query"; "grafana_dashboard"] |}.

(** A result of the engine without tool calls and with a message of 30
    characters. *)
Definition short_result : AgentResult.t :=
  {| AgentResult.message := text_of_length 30; AgentResult.tool_calls := [] |}.

(** Modelled from the spec: the formula before the rounding, read over the
    rational numbers:
    [min(1.0, toolCallCount*0.15 + min(0.4, messageLength/2000))]. *)
Definition spec_raw_confidence (tool_calls message_length : nat) : Q :=
  Qmin 1 (inject_Z (Z.of_nat tool_calls) * (15 # 100) +
          Qmin (4 # 10) (inject_Z (Z.of_nat message_length) / 2000))%Q.

(** Modelled from the spec: a rational number "rounded to 2 decimals", as
    its number of hundredths: to the nearest, a tie going to the even
    one. *)
Definition hundredths_half_even (x : Q) : Z :=
  round_half_even (Qnum (100 * x)) (Z.pos (Qden (100 * x))).

(** Modelled from the spec: the same with a tie going up. *)
Definition hundredths_half_up (x : Q) : Z := Qfloor (100 * x + (1 # 2))%Q.

(** The number a float stands for, as a fraction of integers; none for an
    infinity or NaN. *)
Definition exact_value (x : spec_float) : option (Z * Z) :=
  match x with
  | S754_zero _ => Some (0, 1)%Z
  | S754_finite s m e =>
      let m := if s then Z.neg m else Z.pos m in
      if (0 <=? e)%Z then Some (m * 2 ^ e, 1)%Z else Some (m, 2 ^ (- e))%Z
  | _ => None
  end.

(** [h] is the whole number of hundredths nearest to [m / den]: at most
    half a hundredth away, and even when exactly half a hundredth away. *)
Definition nearest_hundredths (m den h : Z) : Prop :=
  (Z.abs (2 * (100 * m) - 2 * h * den) <= den)%Z /\
  ((Z.abs (2 * (100 * m) - 2 * h * den) = den)%Z -> Z.even h = true).

(** A float that is not below zero: a zero, a positive number, plus
    infinity, or NaN. *)
Definition not_negative (x : spec_float) : Prop :=
  match x with
  | S754_zero _ | S754_nan => True
  | S754_infinity s | S754_finite s _ _ => s = false
  end.

(** * Further specification-side definitions *)

(** ** Parsing the engine's answer *)

(** The action that [extract_actions] takes from a line below the heading,
    if any: a bullet or numbered line without its marker, any other line
    that is not blank as it is. *)
Definition action_of_line (line : string) : option string :=
  let stripped := Parsers.strip line in
  if Parsers.nonempty stripped &&
     (Parsers.startswith stripped "-" || Parsers.startswith stripped "*" ||
      Parsers.first_isdigit stripped) then
    let action := Parsers.lstrip_chars stripped "-*0123456789. " in
    if Parsers.nonempty action then Some action else None
  else if Parsers.nonempty stripped then Some stripped
  else None.

(** The actions of all lines below the first heading line, further
    heading lines left out, down to the end of the text. *)
Fixpoint actions_below_heading (lines : list string) (in_actions : bool)
    : list string :=
  match lines with
  | [] => []
  | line :: rest =>
      if Parsers.actions_heading line then actions_below_heading rest true
      else if in_actions then
        option_list (action_of_line line) ++ actions_below_heading rest true
      else actions_below_heading rest false
  end.




(** ** The alert task *)

(** Whether a value is a string. *)
Definition is_str (v : pyany) : bool :=
  match v with
  | AnyStr _ => true
  | _ => false
  end.


(** What [process_alert] reads from an alert: the [alertname] and
    [severity] labels and the [summary] annotation, each with its
    default. *)
Definition alert_name_of (alert : GrafanaAlert.t) : pyany :=
  dict_get (GrafanaAlert.labels alert) "alertname" (AnyStr "Unknown Alert").

Definition severity_label_of (alert : GrafanaAlert.t) : pyany :=
  dict_get (GrafanaAlert.labels alert) "severity" (AnyStr "unknown").

Definition summary_of (alert : GrafanaAlert.t) : pyany :=
  dict_get (GrafanaAlert.annotations alert) "summary" (alert_name_of alert).

(** The three are strings: what [process_alert] needs to put the severity
    in lower case and to build an [AlertInvestigation]. *)
Definition string_fields (alert : GrafanaAlert.t) : bool :=
  is_str (alert_name_of alert) && is_str (severity_label_of alert) &&
  is_str (summary_of alert).

(** ** Ticket store *)

(** A directory with a JSON file that holds no ticket, and a file that
    holds no JSON. *)
Definition mixed_directory : directory :=
  <["notes.json" := OtherJsonFile "{}"]> (<["broken.json" := TextFile "{"]> no_tickets).

(** A file system on which the text files cannot be written. *)
Definition json_only_fs : filesystem :=
  {| write_error := fun name =>
       if endswith name ".txt" then Some (Exc "OSError" "No space left on device")
       else None |}.

(** Two clock readings lie in the same second. *)
Definition same_second (d1 d2 : datetime.t) : Prop :=
  take 6 (datetime.fields d1) = take 6 (datetime.fields d2).

(** ** MCP client *)

(** A server whose first two connection attempts fail when the session
    context is entered, and which accepts the later ones. *)
Definition recovering_server : server :=
  {| connect_outcome_at := fun n =>
       if n <? 2 then SessionRaises (Exc "ConnectError" ("refused " +:+ pretty n))
       else Connects;
     release_error := fun _ => None;
     call_tool_at := fun _ name _ => Return (Some ["result of " +:+ name]) |}.

(** A server that accepts connections and answers every call without
    content. *)
Definition silent_server : server :=
  {| connect_outcome_at := fun _ => Connects;
     release_error := fun _ => None;
     call_tool_at := fun _ _ _ => Return None |}.

(** The events of a successful connection attempt. *)
Definition connected_trace (n : nat) : list event :=
  [Acquire (Transport n); Acquire (ClientSession n)].

(** The client that connection attempt [n] leaves connected. *)
Definition connected_by (n retries : nat) : MCPClient :=
  mk_client (Some n) (Some [ClientSession n; Transport n]) 0 retries.

(** A client whose retries are used up: no session, no exit stack, and the
    attempt counter at the bound. *)
Definition exhausted (self : MCPClient) : Prop :=
  session self = None /\ _exit_stack self = None /\
  _max_retries self <= _connection_attempts self.

(** The exception of a call on a missing session. *)
Definition no_session_error : exn :=
  Exc "AttributeError" "'NoneType' object has no attribute 'call_tool'".

(** * Properties *)

(** ** Webhook ingress *)

Lemma eqb_firing (s : string) : String.eqb s "firing" = bool_decide (s = "firing").
Proof.
  destruct (String.eqb_spec s "firing") as [-> | Hne].
  - by rewrite bool_decide_eq_true_2.
  - by rewrite bool_decide_eq_false_2.
Qed.

Lemma ingress_severity_major alert severity :
  ingress_severity alert = Return severity ->
  major alert <-> severity ∈ ["critical"; "high"].
Proof.
  intros Hseverity. unfold major. rewrite Hseverity. split.
  - by intros (s & [= <-] & Hin).
  - intros Hin. by exists severity.
Qed.

(** The loop over alerts whose severity labels are strings. *)
Lemma webhook_loop_spec payload alerts background_tasks processed :
  Forall has_severity alerts ->
  webhook_loop payload alerts background_tasks processed =
  (background_tasks ++ map (task_of payload) (retained alerts),
   Return (processed ++ map acknowledgement (retained alerts))).
Proof.
  intros Hall. revert background_tasks processed.
  induction Hall as [|alert rest [severity Hseverity] _ IH];
    intros background_tasks processed; simpl.
  - by rewrite !app_nil_r.
  - pose proof (ingress_severity_major alert severity Hseverity) as Hmajor.
    unfold retained. rewrite filter_cons. fold (retained rest).
    change (str_lower (dict_get (GrafanaAlert.labels alert) "severity" (AnyStr "info")))
      with (ingress_severity alert).
    rewrite Hseverity.
    destruct (decide (major alert)) as [Hin | Hout].
    + rewrite bool_decide_eq_true_2 by by apply Hmajor. simpl.
      rewrite IH. unfold acknowledgement at 2. rewrite Hseverity.
      by rewrite <- !app_assoc.
    + rewrite bool_decide_eq_false_2 by (intros ?; by apply Hout, Hmajor). simpl.
      apply IH.
Qed.

(** The loop up to the first alert whose severity label is not a string:
    [.lower()] raises there, after the tasks of the alerts before it were
    queued. *)
Lemma webhook_loop_raises payload before alert after background_tasks processed e :
  Forall has_severity before ->
  ingress_severity alert = Raise e ->
  webhook_loop payload (before ++ alert :: after) background_tasks processed =
  (background_tasks ++ map (task_of payload) (retained before), Raise e).
Proof.
  intros Hall Hraise. revert background_tasks processed.
  induction Hall as [|first rest [severity Hseverity] _ IH];
    intros background_tasks processed; simpl.
  - change (str_lower (dict_get (GrafanaAlert.labels alert) "severity" (AnyStr "info")))
      with (ingress_severity alert).
    rewrite Hraise. by rewrite app_nil_r.
  - pose proof (ingress_severity_major first severity Hseverity) as Hmajor.
    unfold retained. rewrite filter_cons. fold (retained rest).
    change (str_lower (dict_get (GrafanaAlert.labels first) "severity" (AnyStr "info")))
      with (ingress_severity first).
    rewrite Hseverity.
    destruct (decide (major first)) as [Hin | Hout].
    + rewrite bool_decide_eq_true_2 by by apply Hmajor. simpl.
      rewrite IH. by rewrite <- !app_assoc.
    + rewrite bool_decide_eq_false_2 by (intros ?; by apply Hout, Hmajor). simpl.
      apply IH.
Qed.

(** C4, as the code has it: a payload whose status is not ["firing"] leaves
    the task queue as it was, and the response is
    [{"status": "ignored", "reason": "Alert status is <status>"}]. *)
Theorem webhook_ignores_non_firing payload background_tasks :
  GrafanaWebhookPayload.status payload <> "firing" ->
  grafana_webhook payload background_tasks =
    (background_tasks,
     Return (ResponseIgnored "ignored"
               ("Alert status is " +:+ GrafanaWebhookPayload.status payload))).
Proof.
  intros Hstatus. unfold grafana_webhook.
  rewrite eqb_firing, bool_decide_eq_false_2 by done. reflexivity.
Qed.

Lemma webhook_ignores_non_firing_witness :
  grafana_webhook (sample_payload "resolved" []) [] =
    ([], Return (ResponseIgnored "ignored" "Alert status is resolved")).
Proof.
  apply (webhook_ignores_non_firing (sample_payload "resolved" []) []).
  discriminate.
Defined.

(** C4 as claimed fails: for a payload with status ["resolved"] the reason
    in the response is not the status. *)
Lemma webhook_reason_is_not_the_status :
  GrafanaWebhookPayload.status (sample_payload "resolved" []) <> "firing" /\
  exists response,
    (grafana_webhook (sample_payload "resolved" []) []).2 = Return response /\
    response_reason response <>
      Some (GrafanaWebhookPayload.status (sample_payload "resolved" [])).
Proof. split; [discriminate|]. eexists. split; [reflexivity | discriminate]. Qed.

(** C5, as the code has it.  For a firing payload whose severity labels are
    strings (or absent, then ["info"]), the handler queues one task per
    alert whose severity, in lower case, is ["critical"] or ["high"], in
    payload order, and answers with one entry
    [{fingerprint, severity, status: "queued_for_investigation"}] per such
    alert; the tasks are left in the queue, none has run; an alert with any
    other severity gets neither a task nor an entry.  But a severity label
    that is not a string (the labels are [Dict[str, Any]]) is not skipped:
    [.lower()] raises [AttributeError] on it, the handler ends without a
    response, and the alerts after it are not looked at. *)
Theorem webhook_filters_by_severity payload background_tasks :
  GrafanaWebhookPayload.status payload = "firing" ->
  (Forall has_severity (GrafanaWebhookPayload.alerts payload) ->
   grafana_webhook payload background_tasks =
     (background_tasks ++ map (task_of payload) (retained_alerts payload),
      Return (ResponseReceived "received" (length (retained_alerts payload))
                (map acknowledgement (retained_alerts payload)))) /\
   forall alert, alert ∈ GrafanaWebhookPayload.alerts payload ->
     if decide (major alert) then
       (task_of payload alert ∈ map (task_of payload) (retained_alerts payload) /\
        acknowledgement alert ∈ map acknowledgement (retained_alerts payload))
     else
       ((task_of payload alert ∉ map (task_of payload) (retained_alerts payload)) /\
        (acknowledgement alert ∉ map acknowledgement (retained_alerts payload)))) /\
  (forall before alert after value,
     GrafanaWebhookPayload.alerts payload = before ++ alert :: after ->
     Forall has_severity before ->
     dict_get (GrafanaAlert.labels alert) "severity" (AnyStr "info") = value ->
     (forall s, value <> AnyStr s) ->
     grafana_webhook payload background_tasks =
       (background_tasks ++ map (task_of payload) (retained before),
        Raise (Exc "AttributeError"
                 ("'" +:+ py_type_name value +:+
                  "' object has no attribute 'lower'")))).
Proof.
  intros Hstatus. split.
  - intros Hall. split.
    + unfold grafana_webhook. rewrite Hstatus. simpl.
      rewrite webhook_loop_spec by done. fold (retained_alerts payload).
      simpl. by rewrite length_map.
    + intros alert Hin. unfold retained_alerts, retained.
      destruct (decide (major alert)) as [Hsev | Hsev].
      * assert (alert ∈ filter major (GrafanaWebhookPayload.alerts payload)) as Hkept
          by (apply list_elem_of_filter; done).
        split; apply (list_elem_of_fmap_2 _ _ _ Hkept).
      * rewrite Forall_forall in Hall. destruct (Hall alert Hin) as [severity Hseverity].
        split; intros Hmem; apply list_elem_of_fmap in Hmem as (other & Heq & Hother);
          apply list_elem_of_filter in Hother as [Hmajor _]; apply Hsev.
        -- unfold task_of in Heq. by injection Heq as ->.
        -- destruct Hmajor as (s & Hs & Hin').
           unfold acknowledgement in Heq. rewrite Hs, Hseverity in Heq.
           injection Heq as _ ->. by exists s.
  - intros before alert after value Halerts Hall Hvalue Hother.
    unfold grafana_webhook. rewrite Hstatus, Halerts. simpl.
    rewrite (webhook_loop_raises payload before alert after background_tasks []
               (Exc "AttributeError"
                  ("'" +:+ py_type_name value +:+ "' object has no attribute 'lower'")));
      [done | done |].
    unfold ingress_severity. rewrite Hvalue.
    destruct value as [s| | | |]; [by destruct (Hother s) | done..].
Qed.

(** The failing input of C5: a critical alert, an alert whose severity is
    [null], a high alert.  The handler queues the task of the first and
    raises; there is no response. *)
Lemma webhook_filters_by_severity_witness :
  grafana_webhook
    (sample_payload "firing"
       [sample_alert "a1" "Critical"; alert_with "a2" AnyNone;
        sample_alert "a3" "HIGH"]) [] =
    ([task_of (sample_payload "firing" []) (sample_alert "a1" "Critical")],
     Raise (Exc "AttributeError" "'NoneType' object has no attribute 'lower'")).
Proof.
  apply (proj2 (webhook_filters_by_severity
                  (sample_payload "firing"
                     [sample_alert "a1" "Critical"; alert_with "a2" AnyNone;
                      sample_alert "a3" "HIGH"]) [] eq_refl)
           [sample_alert "a1" "Critical"] (alert_with "a2" AnyNone)
           [sample_alert "a3" "HIGH"] AnyNone).
  - reflexivity.
  - constructor; [by eexists | constructor].
  - reflexivity.
  - discriminate.
Defined.

(** ** Ticket priority *)

Lemma priority_of_severity_spec severity :
  priority_of_severity severity = Return (spec_priority severity).
Proof.
  unfold spec_priority.
  destruct (decide (severity = "critical")) as [-> | Hc]; [by vm_compute|].
  destruct (decide (severity = "high")) as [-> | Hh]; [by vm_compute|].
  destruct (decide (severity = "warning")) as [-> | Hw]; [by vm_compute|].
  destruct (decide (severity = "info")) as [-> | Hi]; [by vm_compute|].
  unfold priority_of_severity, getitem.
  assert (SEVERITY_MAPPING !! severity = None) as ->.
  { unfold SEVERITY_MAPPING. rewrite !lookup_insert_ne by done.
    by rewrite lookup_singleton_ne. }
  by vm_compute.
Qed.

(** C7: the priority lookup of ticket creation never raises, and gives P1
    for ["critical"], P2 for ["high"], P3 for ["warning"] and P4 for every
    other string. *)
Theorem priority_of_severity_total severity :
  priority_of_severity severity =
    Return (if decide (severity = "critical") then "P1"
            else if decide (severity = "high") then "P2"
            else if decide (severity = "warning") then "P3"
            else "P4").
Proof. apply priority_of_severity_spec. Qed.

(** ** Investigation fallback *)

(** C3, as the code has it: for an alert whose name and summary are
    strings, when reaching the engine or the chat turn raises,
    [investigate_alert_with_ai] does not raise; it returns the fallback
    investigation, whose hypothesis is the fixed string
    ["AI investigation failed - manual investigation required"] (with a
    hyphen), whose impact is ["Alert triggered: "] followed by the alert's
    description, with the fixed list of three actions, the fixed evidence
    placeholder and confidence [0.0]. *)
Theorem investigation_falls_back T E C (alert_name severity : string)
    (description : pyany) (summary : string) metric_values labels annotations e :
  agent_setup E = Raise e \/
  run_chat E
    (investigation_prompt T (AnyStr alert_name) severity (AnyStr summary) description
       metric_values labels)
    ("alert-investigation-" +:+ session_timestamp C) = Raise e ->
  investigate_alert_with_ai T E C (AnyStr alert_name) severity description
    (AnyStr summary) metric_values labels annotations =
  Return (fallback_investigation alert_name severity description summary
            (investigated_time C)) /\
  AlertInvestigation.root_cause_hypothesis
    (fallback_investigation alert_name severity description summary
       (investigated_time C)) <> "" /\
  AlertInvestigation.impact_assessment
    (fallback_investigation alert_name severity description summary
       (investigated_time C)) = "Alert triggered: " +:+ py_str description /\
  length (AlertInvestigation.recommended_actions
            (fallback_investigation alert_name severity description summary
               (investigated_time C))) = 3 /\
  AlertInvestigation.confidence
    (fallback_investigation alert_name severity description summary
       (investigated_time C)) = 0%float.
Proof.
  intros Hraise. split; [|by repeat split].
  unfold investigate_alert_with_ai, fallback_investigation.
  destruct Hraise as [Hsetup | Hchat].
  - by rewrite Hsetup.
  - destruct (agent_setup E) as [[]|e']; [|done]. by rewrite Hchat.
Qed.

Lemma investigation_falls_back_witness :
  investigate_alert_with_ai sample_text unreachable_engine (sample_clock 0)
    (AnyStr "HighCPU") "critical" (AnyStr "CPU above 90%") (AnyStr "CPU is high")
    [] [] [] =
  Return (fallback_investigation "HighCPU" "critical" (AnyStr "CPU above 90%")
            "CPU is high" (sample_time 0)).
Proof.
  apply (investigation_falls_back sample_text unreachable_engine (sample_clock 0)
           "HighCPU" "critical" (AnyStr "CPU above 90%") "CPU is high" [] [] []
           (Exc "ConnectionError" "LLM unreachable")).
  right. reflexivity.
Defined.

(** C3 as claimed fails: with an engine whose chat turn raises, the
    hypothesis of the returned investigation is not the string with the em
    dash. *)
Lemma fallback_hypothesis_has_no_em_dash :
  exists investigation,
    investigate_alert_with_ai sample_text unreachable_engine (sample_clock 0)
      (AnyStr "HighCPU") "critical" (AnyStr "CPU above 90%") (AnyStr "CPU is high")
      [] [] [] =
    Return investigation /\
    AlertInvestigation.root_cause_hypothesis investigation <> spec_fallback_hypothesis.
Proof. eexists. split; [reflexivity | discriminate]. Qed.

(** Every outcome of the investigation: it returns when the alert name and
    the summary are strings, whatever the engine does, and raises the
    [ValidationError] of the model when one of them is not, also from the
    fallback. *)
Lemma investigation_outcome T E C alert_name severity description summary
    metric_values labels annotations :
  match alert_name, summary with
  | AnyStr name, AnyStr text =>
      exists investigation,
        investigate_alert_with_ai T E C alert_name severity description summary
          metric_values labels annotations = Return investigation /\
        AlertInvestigation.alert_name investigation = name /\
        AlertInvestigation.summary investigation = text
  | _, _ =>
      exists fields,
        investigate_alert_with_ai T E C alert_name severity description summary
          metric_values labels annotations =
        Raise (validation_error "AlertInvestigation" fields)
  end.
Proof.
  unfold investigate_alert_with_ai, new_investigation.
  destruct alert_name, summary;
    (destruct (agent_setup E) as [[]|e]; [destruct (run_chat E _ _) as [result|e]|]);
    eauto.
Qed.

(** ** The webhook pipeline *)

Lemma major_cases (s : string) :
  s ∈ ["critical"; "high"] -> s = "critical" \/ s = "high".
Proof.
  intros Hs. apply elem_of_cons in Hs as [-> | Hs]; [by left|].
  apply elem_of_cons in Hs as [-> | Hs]; [by right|]. by apply elem_of_nil in Hs.
Qed.

Lemma lower_info_not_major : lower "info" ∉ ["critical"; "high"].
Proof. by apply (bool_decide_unpack (lower "info" ∉ ["critical"; "high"])). Qed.

(** A severity that passes the ingress filter comes from the label, so the
    default of the lookup does not matter. *)
Lemma major_severity_label (d : anydict) (default1 default2 : string) severity :
  lower default1 ∉ ["critical"; "high"] ->
  str_lower (dict_get d "severity" (AnyStr default1)) = Return severity ->
  severity ∈ ["critical"; "high"] ->
  dict_get d "severity" (AnyStr default2) = dict_get d "severity" (AnyStr default1).
Proof.
  intros Hdefault. induction d as [|[k v] d IH]; simpl; intros Hseverity Hin.
  - injection Hseverity as <-. by destruct Hdefault.
  - destruct (String.eqb k "severity"); [done | by apply IH].
Qed.

(** The body of [process_alert] once the severity was read: the
    investigation, then the ticket; whatever they raise ends the task. *)
Lemma process_alert_body T E FS C alert common_labels common_annotations dir severity :
  str_lower (dict_get (GrafanaAlert.labels alert) "severity" (AnyStr "unknown")) =
    Return severity ->
  process_alert T E FS C alert common_labels common_annotations dir =
    match
      investigate_alert_with_ai T E C
        (dict_get (GrafanaAlert.labels alert) "alertname" (AnyStr "Unknown Alert"))
        severity
        (dict_get (GrafanaAlert.annotations alert) "description"
           (AnyStr "No description"))
        (dict_get (GrafanaAlert.annotations alert) "summary"
           (dict_get (GrafanaAlert.labels alert) "alertname" (AnyStr "Unknown Alert")))
        (default [] (GrafanaAlert.values alert))
        (GrafanaAlert.labels alert) (GrafanaAlert.annotations alert)
    with
    | Return investigation =>
        ((create_servicenow_ticket T FS C alert investigation severity dir).1,
         Return tt)
    | Raise _ => (dir, Return tt)
    end.
Proof.
  intros Hseverity. unfold process_alert, try_except, bind, lift, ret.
  rewrite Hseverity.
  destruct (investigate_alert_with_ai _ _ _ _ _ _ _ _ _ _) as [investigation|e];
    [|done].
  by destruct (create_servicenow_ticket _ _ _ _ _ _ dir) as [dir' [ticket|e']].
Qed.

(** A severity label that is not a string ends the task at once. *)
Lemma process_alert_without_severity T E FS C alert common_labels common_annotations
    dir e :
  str_lower (dict_get (GrafanaAlert.labels alert) "severity" (AnyStr "unknown")) =
    Raise e ->
  process_alert T E FS C alert common_labels common_annotations dir = (dir, Return tt).
Proof.
  intros Hseverity. unfold process_alert, try_except, bind, lift, ret.
  by rewrite Hseverity.
Qed.

(** C10: an alert that passes the ingress filter has severity ["critical"]
    or ["high"]; after [process_alert] has run on it, every ticket record
    of the directory is either one that was there before, or has priority
    P1 (for ["critical"]) or P2 (for ["high"]).  The task itself never
    raises. *)
Theorem webhook_tickets_are_P1_or_P2 T E FS C alert common_labels
    common_annotations dir severity :
  ingress_severity alert = Return severity ->
  severity ∈ ["critical"; "high"] ->
  (process_alert T E FS C alert common_labels common_annotations dir).2 = Return tt /\
  forall name ticket,
    (process_alert T E FS C alert common_labels common_annotations dir).1 !! name =
      Some (JsonFile ticket) ->
    dir !! name = Some (JsonFile ticket) \/
    (severity = "critical" /\ ServiceNowTicket.priority ticket = "P1") \/
    (severity = "high" /\ ServiceNowTicket.priority ticket = "P2").
Proof.
  intros Hseverity Hmajor. unfold ingress_severity in Hseverity.
  rewrite (process_alert_body T E FS C alert common_labels common_annotations dir
             severity)
    by by rewrite (major_severity_label _ "info" "unknown" severity
                     lower_info_not_major Hseverity Hmajor).
  destruct (investigate_alert_with_ai _ _ _ _ _ _ _ _ _ _) as [investigation|e];
    [|by eauto].
  unfold create_servicenow_ticket, bind, lift, ret, write_text.
  rewrite priority_of_severity_spec.
  assert (spec_priority severity = "P1" /\ severity = "critical" \/
          spec_priority severity = "P2" /\ severity = "high") as Hprio.
  { destruct (major_cases _ Hmajor) as [-> | ->]; [left | right]; done. }
  destruct (write_error FS (_ +:+ ".json")) as [e1|]; simpl; [by eauto|].
  destruct (write_error FS (_ +:+ ".txt")) as [e2|]; simpl.
  - split; [done|]. intros name ticket.
    rewrite lookup_insert. case_decide; [|by eauto].
    intros [= <-]. simpl. destruct Hprio as [[-> ->] | [-> ->]]; eauto.
  - split; [done|]. intros name ticket.
    rewrite lookup_insert. case_decide; [done|].
    rewrite lookup_insert. case_decide; [|by eauto].
    intros [= <-]. simpl. destruct Hprio as [[-> ->] | [-> ->]]; eauto.
Qed.

Lemma webhook_tickets_are_P1_or_P2_witness :
  ingress_severity (sample_alert "a1" "CRITICAL") = Return "critical" /\
  exists ticket,
    (process_alert sample_text unreachable_engine reliable_fs (sample_clock 0)
       (sample_alert "a1" "CRITICAL") [] [] no_tickets).1 !! "INC20240501100000.json" =
      Some (JsonFile ticket) /\
    ServiceNowTicket.priority ticket = "P1".
Proof.
  split; [reflexivity|].
  eexists. split; [vm_compute; reflexivity|].
  lazymatch goal with
  | |- ServiceNowTicket.priority ?ticket = _ =>
      destruct (proj2 (webhook_tickets_are_P1_or_P2 sample_text unreachable_engine
                         reliable_fs (sample_clock 0) (sample_alert "a1" "CRITICAL")
                         [] [] no_tickets "critical" eq_refl
                         ltac:(vm_compute; left))
                  "INC20240501100000.json" ticket
                  ltac:(vm_compute; reflexivity))
        as [Hold | [[_ Hpriority] | [Hhigh _]]]
  end.
  - vm_compute in Hold. discriminate Hold.
  - exact Hpriority.
  - discriminate Hhigh.
Defined.

(** ** MCP client: leaving the exit stack *)

Lemma aexit_spec Srv stack pending w :
  aexit Srv stack pending w =
  (mk_world (attempts_started w) (calls_made w) (trace w ++ map Release stack)
     (log w) (cache w),
   teardown_error Srv stack pending).
Proof.
  revert pending w. induction stack as [|r stack IH]; intros pending w; simpl.
  - rewrite app_nil_r. by destruct w.
  - rewrite IH. unfold add_event; simpl. by rewrite <- app_assoc.
Qed.

Lemma teardown_error_pending Srv stack e :
  is_Some (teardown_error Srv stack (Some e)).
Proof.
  revert e. induction stack as [|r stack IH]; intros e; simpl; [by eexists|].
  destruct (release_error Srv r); apply IH.
Qed.

Lemma teardown_error_some Srv stack pending :
  Exists (fun r => is_Some (release_error Srv r)) stack ->
  is_Some (teardown_error Srv stack pending).
Proof.
  intros Hex. revert pending.
  induction Hex as [r stack [e He] | r stack _ IH]; intros pending; simpl.
  - rewrite He. apply teardown_error_pending.
  - apply IH.
Qed.

Lemma teardown_error_none Srv stack :
  Forall (fun r => release_error Srv r = None) stack ->
  teardown_error Srv stack None = None.
Proof.
  induction 1 as [|r stack Hr _ IH]; simpl; [done|]. by rewrite Hr.
Qed.

(** ** MCP client: [connect] *)

Lemma open_resources_app tr1 tr2 held :
  open_resources (tr1 ++ tr2) held = open_resources tr2 (open_resources tr1 held).
Proof.
  revert held. induction tr1 as [|[r|r|name arguments] tr1 IH]; intros held; simpl; auto.
Qed.

(** A failed attempt leaves no context open. *)
Lemma failed_attempt_leaves_nothing_open o n :
  open_resources (failed_attempt_trace o n) [] = [].
Proof.
  destruct o; simpl; rewrite ?decide_False, ?decide_True by done; try done.
  all: repeat (rewrite ?filter_cons, ?filter_nil; simpl; try case_decide; try done).
Qed.

Lemma failed_attempts_leave_nothing_open Srv first count :
  open_resources (failed_attempts_trace Srv first count) [] = [].
Proof.
  revert first. induction count as [|count IH]; intros first; [done|].
  unfold failed_attempts_trace. simpl. rewrite open_resources_app.
  rewrite failed_attempt_leaves_nothing_open. apply IH.
Qed.

(** One iteration of the loop whose attempt fails: the handler leaves what
    the attempt entered, most recent first, and drops stack and session. *)
Lemma connect_iteration_fails Srv self w e :
  attempt_error (connect_outcome_at Srv (attempts_started w)) = Some e ->
  exists st w',
    connect_attempt Srv (self, w) = (st, Raise e) /\
    connect_failed Srv e st =
      ((mk_client None None (_connection_attempts self + 1) (_max_retries self), w'),
       Return tt) /\
    attempts_started w' = S (attempts_started w) /\
    calls_made w' = calls_made w /\
    cache w' = cache w /\
    trace w' =
      trace w ++
      failed_attempt_trace (connect_outcome_at Srv (attempts_started w))
        (attempts_started w).
Proof.
  intros Herr. unfold connect_attempt.
  destruct (connect_outcome_at Srv (attempts_started w)) as [e'|e'|e'|];
    simplify_eq/=; eexists _, _; (split; [reflexivity|]);
    unfold connect_failed; cbn [_exit_stack _connection_attempts _max_retries session];
    rewrite aexit_spec; (split; [reflexivity|]); simpl;
    rewrite <- ?app_assoc; by rewrite ?app_nil_r.
Qed.

(** With every attempt failing, the loop makes exactly the attempts the
    counter leaves room for, then raises, wrapping the last failure. *)
Lemma connect_loop_exhausts Srv k :
  every_attempt_fails Srv ->
  forall fuel self w last_error,
    _connection_attempts self + S k = _max_retries self ->
    S k <= fuel ->
    exists w' e,
      connect_loop Srv fuel last_error (self, w) =
        ((mk_client None None (_max_retries self) (_max_retries self), w'),
         Raise (connect_error (_max_retries self) e)) /\
      attempt_error (connect_outcome_at Srv (attempts_started w + k)) = Some e /\
      attempts_started w' = attempts_started w + S k /\
      calls_made w' = calls_made w /\
      cache w' = cache w /\
      trace w' = trace w ++ failed_attempts_trace Srv (attempts_started w) (S k).
Proof.
  intros Hfail. induction k as [|k IH]; intros fuel self w last_error Hroom Hfuel;
    (destruct fuel as [|fuel]; [lia|]);
    destruct (Hfail (attempts_started w)) as [e He];
    destruct (connect_iteration_fails Srv self w e He)
      as (st & w1 & Hattempt & Hhandler & Hn & Hcalls & Hcache & Htrace);
    cbn [connect_loop];
    (destruct (Nat.ltb_spec (_connection_attempts self) (_max_retries self)); [|lia]);
    rewrite Hattempt, Hhandler; cbn [_max_retries _connection_attempts].
  - destruct (Nat.leb_spec (_max_retries self) (_connection_attempts self + 1)); [|lia].
    exists w1, e. rewrite Nat.add_0_r.
    replace (_connection_attempts self + 1) with (_max_retries self) by lia.
    unfold failed_attempts_trace; simpl. rewrite app_nil_r.
    repeat split; try done; lia.
  - destruct (Nat.leb_spec (_max_retries self) (_connection_attempts self + 1)); [lia|].
    destruct (IH fuel (mk_client None None (_connection_attempts self + 1)
                         (_max_retries self)) w1 (Some e))
      as (w' & e' & Hloop & He' & Hn' & Hcalls' & Hcache' & Htrace');
      [simpl; lia | lia |].
    exists w', e'. simpl in Hloop. rewrite Hloop.
    rewrite Hn in He', Hn', Htrace'.
    replace (attempts_started w + S k) with (S (attempts_started w) + k) by lia.
    repeat split; try done; try lia; try congruence.
    rewrite Htrace', Htrace. unfold failed_attempts_trace.
    rewrite <- app_assoc. reflexivity.
Qed.

(** C1, as the code has it.  From a fresh client, with every attempt
    failing, [connect] makes exactly three attempts, leaves every context
    an attempt entered before the next attempt starts (so none stays open),
    and raises an exception that wraps the failure of the third attempt;
    session and exit stack are then [None].  But the attempt counter stays at 3: it is not
    reset, and the next [connect] makes no attempt at all and returns
    normally, with no session. *)
Theorem connect_exhausted_keeps_counter Srv w :
  every_attempt_fails Srv ->
  exists w' e,
    connect Srv (new_client, w) =
      ((mk_client None None 3 3, w'), Raise (connect_error 3 e)) /\
    attempt_error (connect_outcome_at Srv (attempts_started w + 2)) = Some e /\
    exn_cause (connect_error 3 e) = Some e /\
    attempts_started w' = attempts_started w + 3 /\
    trace w' = trace w ++ failed_attempts_trace Srv (attempts_started w) 3 /\
    open_resources (failed_attempts_trace Srv (attempts_started w) 3) [] = [] /\
    connect Srv (mk_client None None 3 3, w') =
      ((mk_client None None 3 3, w'), Return tt).
Proof.
  intros Hfail.
  destruct (connect_loop_exhausts Srv 2 Hfail 3 new_client w None)
    as (w' & e & Hloop & He & Hn & _ & _ & Htrace); [done | done |].
  exists w', e. unfold connect. cbn [session new_client].
  change (_max_retries new_client - _connection_attempts new_client) with 3.
  rewrite Hloop. repeat split; try done.
  apply failed_attempts_leave_nothing_open.
Qed.

Lemma connect_exhausted_keeps_counter_witness :
  exists w' e,
    connect refusing_server (new_client, fresh_world) =
      ((mk_client None None 3 3, w'), Raise (connect_error 3 e)) /\
    attempt_error (connect_outcome_at refusing_server (attempts_started fresh_world + 2)) =
      Some e /\
    exn_cause (connect_error 3 e) = Some e /\
    attempts_started w' = attempts_started fresh_world + 3 /\
    trace w' =
      trace fresh_world ++
      failed_attempts_trace refusing_server (attempts_started fresh_world) 3 /\
    open_resources
      (failed_attempts_trace refusing_server (attempts_started fresh_world) 3) [] = [] /\
    connect refusing_server (mk_client None None 3 3, w') =
      ((mk_client None None 3 3, w'), Return tt).
Proof.
  apply (connect_exhausted_keeps_counter refusing_server fresh_world).
  intros n. simpl. by eexists.
Defined.

(** ** MCP client: the loop of [connect] ends *)

Lemma connect_attempt_counters Srv self w self1 w1 e :
  connect_attempt Srv (self, w) = ((self1, w1), Raise e) ->
  _connection_attempts self1 = _connection_attempts self /\
  _max_retries self1 = _max_retries self.
Proof.
  unfold connect_attempt.
  destruct (connect_outcome_at Srv (attempts_started w)); by intros [= <- _ _].
Qed.

Lemma connect_failed_counters Srv e self w :
  _connection_attempts (connect_failed Srv e (self, w)).1.1 =
    _connection_attempts self + 1 /\
  _max_retries (connect_failed Srv e (self, w)).1.1 = _max_retries self.
Proof.
  unfold connect_failed.
  destruct (_exit_stack self); [rewrite aexit_spec|]; done.
Qed.

(** The fuel [connect] gives the loop is enough: more fuel changes
    nothing, so the loop never stops for want of fuel. *)
Lemma connect_loop_fuel Srv fuel last_error self w :
  _max_retries self - _connection_attempts self <= fuel ->
  connect_loop Srv fuel last_error (self, w) =
  connect_loop Srv (_max_retries self - _connection_attempts self) last_error (self, w).
Proof.
  revert last_error self w.
  induction fuel as [|fuel IH]; intros last_error self w Hfuel.
  - by replace (_max_retries self - _connection_attempts self) with 0 by lia.
  - destruct (_max_retries self - _connection_attempts self) as [|k] eqn:Hroom.
    + cbn [connect_loop].
      by destruct (Nat.ltb_spec (_connection_attempts self) (_max_retries self)); [lia|].
    + cbn [connect_loop].
      destruct (_connection_attempts self <? _max_retries self); [|done].
      destruct (connect_attempt Srv (self, w)) as [[self1 w1] [[]|e]] eqn:Hattempt;
        [done|].
      apply connect_attempt_counters in Hattempt as [Hn1 Hmax1].
      pose proof (connect_failed_counters Srv e self1 w1) as [Hn2 Hmax2].
      destruct (connect_failed Srv e (self1, w1)) as [[self2 w2] r2]. simpl in Hn2, Hmax2.
      destruct (_max_retries self2 <=? _connection_attempts self2); [done|].
      rewrite IH by lia. f_equal. lia.
Qed.

(** ** MCP client: [disconnect] *)

(** [disconnect] never raises. *)
Lemma disconnect_never_raises Srv st : (disconnect Srv st).2 = Return tt.
Proof.
  destruct st as [self w]. unfold disconnect, try_except, modify.
  destruct (_exit_stack self) as [stack|]; [|done].
  rewrite aexit_spec. by destruct (teardown_error Srv stack None).
Qed.

(** When no context raises on exit, [disconnect] leaves the contexts of the
    stack, most recent first, and the client is disconnected. *)
Lemma disconnect_clean Srv self w stack :
  _exit_stack self = Some stack ->
  Forall (fun r => release_error Srv r = None) stack ->
  exists w',
    disconnect Srv (self, w) = ((mk_client None None 0 (_max_retries self), w'), Return tt) /\
    trace w' = trace w ++ map Release stack.
Proof.
  intros Hstack Hquiet. unfold disconnect, try_except.
  rewrite Hstack, aexit_spec, (teardown_error_none _ _ Hquiet).
  eexists. split; reflexivity.
Qed.

(** Without an exit stack [disconnect] changes nothing: after an exhausted
    [connect] the attempt counter stays where it was. *)
Lemma disconnect_without_stack Srv self w :
  _exit_stack self = None -> disconnect Srv (self, w) = ((self, w), Return tt).
Proof. intros Hnone. unfold disconnect, try_except. by rewrite Hnone. Qed.

(** C9, as the code has it.  [disconnect] never raises, leaves every held
    context, most recent first, and logs a teardown error as a warning.
    But when leaving a context raises, the three assignments after
    [__aexit__] are skipped: the client keeps its session and its (now
    empty) exit stack, and the attempt counter is not reset. *)
Theorem disconnect_keeps_state_on_teardown_error Srv self w stack :
  _exit_stack self = Some stack ->
  Exists (fun r => is_Some (release_error Srv r)) stack ->
  exists e w',
    teardown_error Srv stack None = Some e /\
    disconnect Srv (self, w) =
      ((mk_client (session self) (Some []) (_connection_attempts self)
          (_max_retries self), w'),
       Return tt) /\
    trace w' = trace w ++ map Release stack /\
    log w' =
      log w ++ [("info", "Disconnecting from MCP server");
                ("warning", "Error during disconnect: " +:+ exn_str e)].
Proof.
  intros Hstack Hraises.
  destruct (teardown_error_some Srv stack None Hraises) as [e He].
  unfold disconnect, try_except, modify.
  rewrite Hstack, aexit_spec, He. simpl.
  eexists _, _. split; [reflexivity|]. split; [reflexivity|]. simpl.
  split; [reflexivity|]. by rewrite <- app_assoc.
Qed.

Lemma disconnect_keeps_state_on_teardown_error_witness :
  exists e w',
    teardown_error sticky_server [ClientSession 0; Transport 0] None = Some e /\
    disconnect sticky_server
      (mk_client (Some 0) (Some [ClientSession 0; Transport 0]) 0 3, fresh_world) =
      ((mk_client (Some 0) (Some []) 0 3, w'), Return tt) /\
    trace w' = trace fresh_world ++ map Release [ClientSession 0; Transport 0] /\
    log w' =
      log fresh_world ++ [("info", "Disconnecting from MCP server");
                          ("warning", "Error during disconnect: " +:+ exn_str e)].
Proof.
  apply (disconnect_keeps_state_on_teardown_error sticky_server
           (mk_client (Some 0) (Some [ClientSession 0; Transport 0]) 0 3)
           fresh_world [ClientSession 0; Transport 0]).
  - reflexivity.
  - apply Exists_cons_hd. simpl. by eexists.
Defined.

(** A first attempt that succeeds connects the client: session and exit
    stack are set, transport entered before session, counter at 0. *)
Lemma connect_first_try Srv w :
  connect_outcome_at Srv (attempts_started w) = Connects ->
  exists w',
    connect Srv (new_client, w) =
      ((mk_client (Some (attempts_started w))
          (Some [ClientSession (attempts_started w); Transport (attempts_started w)]) 0 3,
        w'), Return tt) /\
    trace w' = trace w ++ [Acquire (Transport (attempts_started w));
                          Acquire (ClientSession (attempts_started w))].
Proof.
  intros Hok. unfold connect. simpl. unfold connect_attempt. rewrite Hok. simpl.
  eexists. split; [reflexivity|]. simpl. by rewrite <- app_assoc.
Qed.

(** ** MCP client: [invoke_tool] and the cache *)

Lemma connect_attempt_same_calls Srv self w :
  same_calls w (connect_attempt Srv (self, w)).1.2.
Proof.
  unfold connect_attempt, same_calls.
  by destruct (connect_outcome_at Srv (attempts_started w)).
Qed.

Lemma connect_failed_same_calls Srv e self w :
  same_calls w (connect_failed Srv e (self, w)).1.2.
Proof.
  unfold connect_failed, same_calls.
  destruct (_exit_stack self); [rewrite aexit_spec|]; done.
Qed.

Lemma connect_loop_same_calls Srv fuel last_error self w :
  same_calls w (connect_loop Srv fuel last_error (self, w)).1.2.
Proof.
  revert last_error self w.
  induction fuel as [|fuel IH]; intros last_error self w; cbn [connect_loop];
    destruct (_connection_attempts self <? _max_retries self); try done.
  pose proof (connect_attempt_same_calls Srv self w) as [Hc1 Hn1].
  destruct (connect_attempt Srv (self, w)) as [[self1 w1] [[]|e]]; [done|].
  pose proof (connect_failed_same_calls Srv e self1 w1) as [Hc2 Hn2].
  destruct (connect_failed Srv e (self1, w1)) as [[self2 w2] r2].
  simpl in *.
  destruct (_max_retries self2 <=? _connection_attempts self2).
  - split; simpl; congruence.
  - destruct (IH (Some e) self2 w2) as [Hc3 Hn3]. split; congruence.
Qed.

Lemma ensure_connected_same_calls Srv self w :
  same_calls w (ensure_connected Srv (self, w)).1.2.
Proof.
  unfold ensure_connected, connect.
  destruct (session self); [done|].
  apply (connect_loop_same_calls Srv _ None self
           (add_log "warning" "Connection lost, attempting to reconnect" w)).
Qed.

(** A connected client stays as it is in [ensure_connected]. *)
Lemma ensure_connected_connected Srv self w n :
  session self = Some n -> ensure_connected Srv (self, w) = ((self, w), Return tt).
Proof. intros Hs. unfold ensure_connected. by rewrite Hs. Qed.

(** Equal dictionaries, whatever the order of their items, have the same
    canonical form. *)
Lemma canonical_arguments_perm (args1 args2 : pydict) :
  NoDup args1.*1 -> args1 ≡ₚ args2 ->
  canonical_arguments args1 = canonical_arguments args2.
Proof. apply list_to_map_proper. Qed.

Lemma cache_get_set c name arguments value :
  cache_get (cache_set c name arguments value) name arguments = Some value.
Proof. unfold cache_get, cache_set. apply lookup_insert_eq. Qed.

(** A cache hit: the cached value is returned; the client is untouched
    and the world only gains a log line. *)
Lemma invoke_tool_hit Srv name arguments self w v :
  cache_get (cache w) name arguments = Some v ->
  invoke_tool Srv name arguments (self, w) =
    ((self, add_log "info" ("Cache hit for tool: " +:+ name) w), Return (ToolContent v)).
Proof. intros Hhit. unfold invoke_tool. by rewrite Hhit. Qed.

(** Every outcome of [invoke_tool]: content is in the cache afterwards; an
    error dictionary or an exception leaves the cache as it was, and the
    exception is the invocation error of the tool. *)
Lemma invoke_tool_outcome Srv name arguments self w :
  match invoke_tool Srv name arguments (self, w) with
  | (st', Return (ToolContent v)) => cache_get (cache st'.2) name arguments = Some v
  | (st', Return (ToolError _)) => cache st'.2 = cache w
  | (st', Raise e) =>
      (exists cause, e = invocation_error name cause) /\ cache st'.2 = cache w
  end.
Proof.
  unfold invoke_tool.
  destruct (cache_get (cache w) name arguments) as [v|] eqn:Hget; [done|].
  unfold try_except, bind, modify, raise, ret.
  pose proof (ensure_connected_same_calls Srv self w) as [Hcache _].
  destruct (ensure_connected Srv (self, w)) as [[self1 w1] [[]|e]]; simpl in Hcache.
  - unfold call_tool. destruct (session self1) as [n|]; simpl.
    + destruct (call_tool_at Srv (calls_made w1) name arguments) as [[v|]|e]; simpl.
      * apply cache_get_set.
      * done.
      * split; [by exists e | done].
    + split; [by eexists (Exc _ _) | done].
  - simpl. split; [by exists e | done].
Qed.

(** C2.  For argument dictionaries [args1] and [args2] with the same items
    in any order:
    - a call that returns content leaves it in the cache under both, and
      the same call with [args2] after it returns that content from the
      cache, with the client as it was and the world changed by one log
      line only: no remote call, no connection step;
    - on a miss with a session, a remote call that answers content is made
      once and its content is stored and returned;
    - on a miss with a session, a remote call that raises makes
      [invoke_tool] raise the invocation error that names the tool, and the
      cache is as before;
    - any exception [invoke_tool] raises is such an invocation error, and
      leaves the cache as before. *)
Theorem invoke_tool_caches Srv name (args1 args2 : pydict) self w :
  NoDup args1.*1 -> args1 ≡ₚ args2 ->
  (forall st1 v,
     invoke_tool Srv name args1 (self, w) = (st1, Return (ToolContent v)) ->
     cache_get (cache st1.2) name args2 = Some v /\
     invoke_tool Srv name args2 st1 =
       ((st1.1, add_log "info" ("Cache hit for tool: " +:+ name) st1.2),
        Return (ToolContent v))) /\
  (forall n v,
     session self = Some n ->
     cache_get (cache w) name args1 = None ->
     call_tool_at Srv (calls_made w) name args1 = Return (Some v) ->
     exists w1,
       invoke_tool Srv name args1 (self, w) = ((self, w1), Return (ToolContent v)) /\
       calls_made w1 = S (calls_made w) /\
       cache w1 = cache_set (cache w) name args1 v) /\
  (forall n e,
     session self = Some n ->
     cache_get (cache w) name args1 = None ->
     call_tool_at Srv (calls_made w) name args1 = Raise e ->
     exists w1,
       invoke_tool Srv name args1 (self, w) =
         ((self, w1), Raise (invocation_error name e)) /\
       cache w1 = cache w) /\
  (forall st1 e,
     invoke_tool Srv name args1 (self, w) = (st1, Raise e) ->
     (exists cause, e = invocation_error name cause) /\ cache st1.2 = cache w).
Proof.
  intros Hkeys Hperm. split; [|split; [|split]].
  - intros [self1 w1] v Hcall.
    pose proof (invoke_tool_outcome Srv name args1 self w) as Hout.
    rewrite Hcall in Hout. simpl in Hout.
    assert (cache_get (cache w1) name args2 = Some v) as Hhit.
    { unfold cache_get in *. by rewrite <- (canonical_arguments_perm args1 args2). }
    split; [exact Hhit|]. by apply invoke_tool_hit.
  - intros n v Hsession Hmiss Hanswer. unfold invoke_tool. rewrite Hmiss.
    unfold try_except, bind, modify, ret.
    rewrite (ensure_connected_connected Srv self w n Hsession).
    unfold call_tool. rewrite Hsession. simpl. rewrite Hanswer.
    eexists. split; [reflexivity|]. by split.
  - intros n e Hsession Hmiss Hraise. unfold invoke_tool. rewrite Hmiss.
    unfold try_except, bind, modify, raise.
    rewrite (ensure_connected_connected Srv self w n Hsession).
    unfold call_tool. rewrite Hsession. simpl. rewrite Hraise.
    eexists. split; reflexivity.
  - intros st1 e Hcall.
    pose proof (invoke_tool_outcome Srv name args1 self w) as Hout.
    by rewrite Hcall in Hout.
Qed.

Lemma invoke_tool_caches_witness :
  exists st1 v,
    invoke_tool flaky_server "prometheus_query" query_arguments
      (connected_client, fresh_world) = (st1, Return (ToolContent v)) /\
    calls_made st1.2 = 1 /\
    invoke_tool flaky_server "prometheus_query" query_arguments_swapped st1 =
      ((st1.1, add_log "info" "Cache hit for tool: prometheus_query" st1.2),
       Return (ToolContent v)).
Proof.
  assert (NoDup query_arguments.*1) as Hkeys
    by (apply (bool_decide_unpack (NoDup query_arguments.*1)); vm_compute; exact I).
  assert (query_arguments ≡ₚ query_arguments_swapped) as Hperm by apply perm_swap.
  destruct (invoke_tool_caches flaky_server "prometheus_query" query_arguments
              query_arguments_swapped connected_client fresh_world Hkeys Hperm)
    as (Hpair & Hstore & _ & _).
  destruct (Hstore 0 ["result of prometheus_query"] eq_refl
              ltac:(vm_compute; reflexivity) eq_refl)
    as (w1 & Hcall & Hcalls & _).
  exists (connected_client, w1), ["result of prometheus_query"].
  split; [exact Hcall|]. split; [exact Hcalls|].
  apply (Hpair (connected_client, w1) ["result of prometheus_query"] Hcall).
Defined.

(** ** Strings: suffixes and order *)

Lemma append_cons c s t : String c s +:+ t = String c (s +:+ t).
Proof. reflexivity. Qed.

Lemma append_assoc (s t u : string) : (s +:+ t) +:+ u = s +:+ (t +:+ u).
Proof. induction s as [|c s IH]; [done|]. rewrite !append_cons. by f_equal. Qed.

Lemma length_append (s t : string) :
  String.length (s +:+ t) = String.length s + String.length t.
Proof. induction s as [|c s IH]; [done|]. rewrite append_cons. simpl. by f_equal. Qed.

Lemma endswith_append s suffix : endswith (s +:+ suffix) suffix = true.
Proof.
  induction s as [|c s IH].
  - change ("" +:+ suffix) with suffix. destruct suffix as [|c suffix]; [done|].
    cbn [endswith]. by rewrite String.eqb_refl.
  - rewrite append_cons. cbn [endswith]. rewrite IH. apply orb_true_r.
Qed.

Lemma endswith_shorter s suffix :
  String.length s < String.length suffix -> endswith s suffix = false.
Proof.
  induction s as [|c s IH]; intros Hlen.
  - destruct suffix; simpl in *; [lia | done].
  - cbn [endswith]. rewrite IH by (simpl in Hlen; lia). rewrite orb_false_r.
    apply String.eqb_neq. intros <-. lia.
Qed.

(** A name that ends in another suffix of the same length does not end in
    [suffix]. *)
Lemma endswith_other s other suffix :
  String.length other = String.length suffix -> other <> suffix ->
  endswith (s +:+ other) suffix = false.
Proof.
  intros Hlen Hne. induction s as [|c s IH].
  - destruct other as [|c other]; [by destruct suffix|].
    change ("" +:+ String c other) with (String c other).
    cbn [endswith]. rewrite endswith_shorter by (simpl in Hlen; lia).
    rewrite orb_false_r. by apply String.eqb_neq.
  - rewrite append_cons. cbn [endswith]. rewrite IH, orb_false_r.
    apply String.eqb_neq. intros Heq.
    apply (f_equal String.length) in Heq. simpl in Heq.
    rewrite length_append in Heq. lia.
Qed.

Lemma digit_compare (x y : Z) :
  (0 <= x < 10)%Z -> (0 <= y < 10)%Z ->
  Ascii.compare (datetime.digit x) (datetime.digit y) = (x ?= y)%Z.
Proof.
  intros Hx Hy. unfold Ascii.compare, datetime.digit.
  rewrite !N_ascii_embedding by (rewrite !Z.mod_small by lia; lia).
  rewrite !Z.mod_small by lia.
  rewrite Z2N.inj_compare by lia. apply Z.add_compare_mono_l.
Qed.

(** Zero-padded numbers of one width compare as the numbers do; on a tie
    the comparison goes on behind them. *)
Lemma zero_pad_compare (width : nat) (a b : Z) (s t : string) :
  (0 <= a < 10 ^ Z.of_nat width)%Z -> (0 <= b < 10 ^ Z.of_nat width)%Z ->
  String.compare (datetime.zero_pad width a +:+ s) (datetime.zero_pad width b +:+ t) =
  match (a ?= b)%Z with
  | Eq => String.compare s t
  | c => c
  end.
Proof.
  revert a b. induction width as [|w IH]; intros a b Ha Hb.
  - simpl in Ha, Hb. assert (a = 0%Z) as -> by lia. assert (b = 0%Z) as -> by lia.
    reflexivity.
  - rewrite Nat2Z.inj_succ, Z.pow_succ_r in Ha, Hb by lia.
    assert (0 < 10 ^ Z.of_nat w)%Z as Hpos by (apply Z.pow_pos_nonneg; lia).
    cbn [datetime.zero_pad]. rewrite !append_cons. cbn [String.compare].
    pose proof (Z.div_mod a (10 ^ Z.of_nat w) ltac:(lia)) as Hda.
    pose proof (Z.div_mod b (10 ^ Z.of_nat w) ltac:(lia)) as Hdb.
    pose proof (Z.mod_pos_bound a (10 ^ Z.of_nat w) Hpos) as Hma.
    pose proof (Z.mod_pos_bound b (10 ^ Z.of_nat w) Hpos) as Hmb.
    assert (0 <= a / 10 ^ Z.of_nat w < 10)%Z as Hqa.
    { split; [apply Z.div_pos; lia | apply Z.div_lt_upper_bound; lia]. }
    assert (0 <= b / 10 ^ Z.of_nat w < 10)%Z as Hqb.
    { split; [apply Z.div_pos; lia | apply Z.div_lt_upper_bound; lia]. }
    rewrite digit_compare by done. rewrite IH by done.
    destruct (Z.compare_spec (a / 10 ^ Z.of_nat w) (b / 10 ^ Z.of_nat w)) as [Heq|Hlt|Hgt].
    + rewrite Heq in Hda.
      destruct (Z.compare_spec (a mod 10 ^ Z.of_nat w) (b mod 10 ^ Z.of_nat w));
        destruct (Z.compare_spec a b); try done; lia.
    + destruct (Z.compare_spec a b); try done; nia.
    + destruct (Z.compare_spec a b); try done; nia.
Qed.

(** ** Ticket numbers follow the clock *)

Lemma earlier_second_spec d1 d2 :
  datetime.earlier_second d1 d2 <->
  ((datetime.year d1 < datetime.year d2) \/ datetime.year d1 = datetime.year d2 /\
   ((datetime.month d1 < datetime.month d2) \/ datetime.month d1 = datetime.month d2 /\
    ((datetime.day d1 < datetime.day d2) \/ datetime.day d1 = datetime.day d2 /\
     ((datetime.hour d1 < datetime.hour d2) \/ datetime.hour d1 = datetime.hour d2 /\
      ((datetime.minute d1 < datetime.minute d2) \/
       datetime.minute d1 = datetime.minute d2 /\
       datetime.second d1 < datetime.second d2)))))%Z.
Proof. unfold datetime.earlier_second. simpl. tauto. Qed.

#[global] Instance earlier_second_transitive : Transitive datetime.earlier_second.
Proof. intros d1 d2 d3. rewrite !earlier_second_spec. lia. Qed.

(** A ticket numbered in an earlier second has the smaller file name,
    whatever the extensions. *)
Lemma ticket_name_compare d1 d2 ext1 ext2 :
  datetime.valid d1 -> datetime.valid d2 ->
  datetime.earlier_second d1 d2 ->
  String.compare (ticket_number_at d1 +:+ ext1) (ticket_number_at d2 +:+ ext2) = Lt.
Proof.
  intros Hv1 Hv2 Hlt. apply earlier_second_spec in Hlt.
  unfold datetime.valid in Hv1, Hv2.
  unfold ticket_number_at, datetime.strftime_compact.
  rewrite !append_assoc.
  change ("INC" +:+ ?s) with (String "I" (String "N" (String "C" s))).
  cbn [String.compare].
  change (Ascii.compare "I" "I") with Eq. change (Ascii.compare "N" "N") with Eq.
  change (Ascii.compare "C" "C") with Eq. cbv iota.
  rewrite !zero_pad_compare by (simpl; lia).
  repeat (match goal with
          | |- context [(?a ?= ?b)%Z] => destruct (Z.compare_spec a b)
          end; try done; try lia).
Qed.

(** ** Ticket store: creation *)

Lemma create_ticket_success T FS C alert investigation severity dir dir' ticket :
  create_servicenow_ticket T FS C alert investigation severity dir =
    (dir', Return ticket) ->
  ServiceNowTicket.ticket_number ticket = ticket_number_at (number_time C) /\
  dir' = store_of T [ticket] dir.
Proof.
  unfold create_servicenow_ticket, bind, lift, ret, write_text.
  rewrite priority_of_severity_spec.
  destruct (write_error FS (_ +:+ ".json")); [done|].
  destruct (write_error FS (_ +:+ ".txt")); [done|].
  intros [= <- <-]. done.
Qed.

Lemma store_of_app T tickets1 tickets2 dir :
  store_of T (tickets1 ++ tickets2) dir = store_of T tickets2 (store_of T tickets1 dir).
Proof. unfold store_of. apply foldl_app. Qed.

Lemma create_tickets_success T FS requests dir dir' tickets :
  create_tickets T FS requests dir = (dir', Return tickets) ->
  map ServiceNowTicket.ticket_number tickets =
    map ticket_number_at (number_times requests) /\
  dir' = store_of T tickets dir.
Proof.
  revert dir dir' tickets.
  induction requests as [|r requests IH]; intros dir dir' tickets.
  - intros [= <- <-]. done.
  - cbn [create_tickets]. unfold bind at 1.
    destruct (create_servicenow_ticket _ _ _ _ _ _ dir) as [dir1 [ticket|e]] eqn:Hcreate;
      [|done].
    apply create_ticket_success in Hcreate as [Hnumber ->].
    unfold bind, ret.
    destruct (create_tickets T FS requests _) as [dir2 [rest|e]] eqn:Hrest; [|done].
    apply IH in Hrest as [Hnumbers ->].
    intros [= <- <-]. split.
    + simpl. by rewrite Hnumber, Hnumbers.
    + apply (store_of_app T [ticket] rest dir).
Qed.

(** ** Ticket store: the directory after the creations *)

Lemma compare_refl (s : string) : String.compare s s = Eq.
Proof.
  induction s as [|c s IH]; [done|]. simpl.
  unfold Ascii.compare. by rewrite N.compare_refl.
Qed.

Lemma compare_lt_ne (s t : string) : String.compare s t = Lt -> s <> t.
Proof. intros Hlt ->. by rewrite compare_refl in Hlt. Qed.

Lemma compare_lt_le (s t : string) : String.compare s t = Lt -> String.le s t.
Proof. intros Hlt. unfold String.le, String.leb. by rewrite Hlt. Qed.

Lemma numbered_after_all d t times tickets :
  datetime.valid d -> Forall datetime.valid times ->
  Forall (datetime.earlier_second d) times ->
  ServiceNowTicket.ticket_number t = ticket_number_at d ->
  map ServiceNowTicket.ticket_number tickets = map ticket_number_at times ->
  Forall (numbered_before t) tickets.
Proof.
  intros Hd Hvalid Hall Ht. revert tickets.
  induction Hall as [|d' times Hlt Hall IH]; intros [|t' tickets] Hnumbers;
    try discriminate Hnumbers; [constructor|].
  injection Hnumbers as Ht' Hnumbers.
  apply Forall_cons in Hvalid as [Hd' Hvalid].
  constructor; [|by apply IH].
  intros ext1 ext2. rewrite Ht, Ht'. by apply ticket_name_compare.
Qed.

Lemma numbered_in_order_sorted tickets times :
  numbered_in_order tickets times -> StronglySorted numbered_before tickets.
Proof.
  intros (Hnumbers & Hvalid & Hsorted).
  apply Sorted_StronglySorted in Hsorted; [|apply _].
  revert tickets Hnumbers.
  induction Hsorted as [|d times Hsorted IH Hall]; intros [|t tickets] Hnumbers;
    try discriminate Hnumbers; [constructor|].
  injection Hnumbers as Ht Hnumbers.
  apply Forall_cons in Hvalid as [Hd Hvalid].
  constructor; [by apply IH|].
  by apply (numbered_after_all d t times tickets).
Qed.

Lemma ticket_files_differ (t : ServiceNowTicket.t) : ticket_text_file t <> ticket_file t.
Proof. unfold ticket_text_file, ticket_file. by intros ?%(inj (String.app _)). Qed.

(** Writing the files of tickets leaves every other name as it was. *)
Lemma store_of_other T tickets dir name :
  Forall (fun t => name <> ticket_file t /\ name <> ticket_text_file t) tickets ->
  store_of T tickets dir !! name = dir !! name.
Proof.
  intros Hother. revert dir.
  induction Hother as [|t tickets [Hjson Htext] _ IH]; intros dir; [done|].
  change (store_of T (t :: tickets) dir) with
    (store_of T tickets (store_of T [t] dir)).
  rewrite IH. unfold store_of; simpl. by rewrite !lookup_insert_ne.
Qed.

(** The JSON file of each ticket holds that ticket. *)
Lemma store_of_json T tickets dir t :
  StronglySorted numbered_before tickets -> t ∈ tickets ->
  store_of T tickets dir !! ticket_file t = Some (JsonFile t).
Proof.
  intros Hsorted. revert dir.
  induction Hsorted as [|t0 tickets Hsorted IH Hbefore]; intros dir Hin.
  - by apply elem_of_nil in Hin.
  - change (store_of T (t0 :: tickets) dir) with
      (store_of T tickets (store_of T [t0] dir)).
    apply elem_of_cons in Hin as [-> | Hin]; [|by apply IH].
    rewrite store_of_other.
    + unfold store_of; simpl.
      rewrite lookup_insert_ne by apply ticket_files_differ.
      apply lookup_insert_eq.
    + eapply Forall_impl; [exact Hbefore|]. intros t' Hlt. simpl in Hlt.
      split; apply compare_lt_ne, Hlt.
Qed.

(** The names in the directory are the two files of each ticket. *)
Lemma store_of_names T tickets dir name :
  is_Some (store_of T tickets dir !! name) <->
  is_Some (dir !! name) \/
  exists t, t ∈ tickets /\ (name = ticket_file t \/ name = ticket_text_file t).
Proof.
  revert dir. induction tickets as [|t tickets IH]; intros dir.
  - split; [by left|]. intros [H | (t & Hin & _)]; [done | by apply elem_of_nil in Hin].
  - change (store_of T (t :: tickets) dir) with
      (store_of T tickets (store_of T [t] dir)).
    rewrite IH. unfold store_of at 1; simpl. rewrite !lookup_insert_is_Some.
    split.
    + intros [[Htext | [_ [Hjson | [_ Hdir]]]] | (t' & Hin & Hname)].
      * right. exists t. split; [left | right]; done.
      * right. exists t. split; [left | left]; done.
      * by left.
      * right. exists t'. split; [by right | done].
    + intros [Hdir | (t' & Hin & Hname)].
      * left. destruct (decide (ticket_text_file t = name)); [by left|].
        right. split; [done|].
        destruct (decide (ticket_file t = name)); [by left|]. by right.
      * apply elem_of_cons in Hin as [-> | Hin]; [|right; by exists t'].
        left. destruct Hname as [-> | ->]; [|by left].
        right. split; [apply ticket_files_differ | by left].
Qed.

(** ** Ticket store: listing *)

(** A string that ends in [c + suffix] ends in [suffix]. *)
Lemma endswith_tail s c suffix :
  endswith s (String c suffix) = true -> endswith s suffix = true.
Proof.
  induction s as [|c' s IH]; cbn [endswith].
  - by rewrite orb_false_r.
  - intros [Heq%String.eqb_eq | Hrec]%orb_true_iff.
    + injection Heq as -> ->. destruct suffix as [|c'' suffix]; [done|].
      cbn [endswith]. rewrite String.eqb_refl. by rewrite orb_true_r.
    + rewrite (IH Hrec). apply orb_true_r.
Qed.

(** A [.txt] file is not matched by [*.json]. *)
Lemma txt_is_not_json s : endswith (s +:+ ".txt") ".json" = false.
Proof.
  destruct (endswith (s +:+ ".txt") ".json") eqn:Hjson; [|done].
  apply endswith_tail in Hjson. by rewrite endswith_other in Hjson.
Qed.

Lemma ticket_files_nodup tickets :
  StronglySorted numbered_before tickets -> NoDup (ticket_file <$> tickets).
Proof.
  induction 1 as [|t tickets _ IH Hbefore]; csimpl; constructor; [|done].
  intros (t' & Hname & Hin)%list_elem_of_fmap.
  rewrite Forall_forall in Hbefore.
  by apply (compare_lt_ne _ _ (Hbefore t' Hin ".json" ".json")).
Qed.

(** The JSON files of a directory made from the empty one are those of the
    tickets. *)
Lemma glob_json_store T tickets :
  StronglySorted numbered_before tickets ->
  glob_json (store_of T tickets ∅) ≡ₚ ticket_file <$> tickets.
Proof.
  intros Hsorted. apply NoDup_Permutation.
  - apply NoDup_filter, NoDup_fst_map_to_list.
  - by apply ticket_files_nodup.
  - intros name. unfold glob_json.
    rewrite list_elem_of_filter, list_elem_of_fmap. split.
    + intros (Hjson & [name' v] & -> & Hin). simpl in *.
      apply elem_of_map_to_list in Hin.
      assert (is_Some (store_of T tickets ∅ !! name')) as Hsome by by eexists.
      apply store_of_names in Hsome as [[? Hempty] | (t & Ht & [-> | ->])].
      * by rewrite lookup_empty in Hempty.
      * by apply list_elem_of_fmap_2.
      * unfold ticket_text_file in Hjson.
        by rewrite txt_is_not_json in Hjson.
    + intros (t & -> & Hin)%list_elem_of_fmap. split.
      * unfold ticket_file. by rewrite endswith_append.
      * exists (ticket_file t, JsonFile t). split; [done|].
        apply elem_of_map_to_list. by apply store_of_json.
Qed.

#[global] Instance flip_string_le_transitive : Transitive (flip String.le).
Proof. intros s1 s2 s3 H12 H23. unfold flip in *. by etrans. Qed.

#[global] Instance flip_string_le_antisymm : AntiSymm (=) (flip String.le).
Proof. intros s1 s2 H12 H21. unfold flip in *. by apply (anti_symm String.le). Qed.

#[global] Instance flip_string_le_total : Total (flip String.le).
Proof. intros s1 s2. unfold flip. apply (total String.le). Qed.

(** Sorted in reverse, the JSON files are those of the tickets, newest
    first. *)
Lemma sorted_reverse_store T tickets :
  StronglySorted numbered_before tickets ->
  sorted_reverse (glob_json (store_of T tickets ∅)) = ticket_file <$> reverse tickets.
Proof.
  intros Hsorted. unfold sorted_reverse.
  apply (Sorted_unique (flip String.le)).
  - apply Sorted_merge_sort. apply _.
  - rewrite fmap_reverse. apply Sorted_reverse.
    apply StronglySorted_Sorted.
    apply (StronglySorted_fmap ticket_file numbered_before); [|done].
    intros t1 t2 Hlt. apply compare_lt_le, Hlt.
  - rewrite merge_sort_Permutation, glob_json_store by done.
    by rewrite reverse_Permutation.
Qed.

Lemma slice_to_fmap {A B : Type} (f : A -> B) (stop : Z) (l : list A) :
  slice_to stop (f <$> l) = f <$> slice_to stop l.
Proof. unfold slice_to. rewrite length_fmap. by destruct (0 <=? stop)%Z; rewrite fmap_take. Qed.

Lemma slice_to_subseteq {A : Type} (stop : Z) (l : list A) : slice_to stop l ⊆ l.
Proof.
  unfold slice_to. intros x. destruct (0 <=? stop)%Z; apply (subseteq_take _ l).
Qed.

(** Reading the JSON files of tickets that the directory holds gives the
    tickets back, in order. *)
Lemma read_tickets dir (tickets : list ServiceNowTicket.t) (acc : list json_data) :
  Forall (fun t => dir !! ticket_file t = Some (JsonFile t)) tickets ->
  foldl (fun tickets ticket_file =>
           match read_json dir ticket_file with
           | Return ticket_data => tickets ++ [ticket_data]
           | Raise e => tickets
           end) acc (ticket_file <$> tickets) = acc ++ (TicketData <$> tickets).
Proof.
  intros Hread. revert acc.
  induction Hread as [|t tickets Ht _ IH]; intros acc; csimpl.
  - by rewrite app_nil_r.
  - unfold read_json at 2. rewrite Ht, IH. by rewrite <- app_assoc.
Qed.

(** C8, as the code has it.  Tickets are filed under the second of their
    creation.  When tickets were created from the empty directory, each in
    a later second than the one before, [list_tickets(limit)] (50 when no
    limit is given) returns them newest first, cut by the slice
    [[:limit]]: for a limit that is not negative, the [limit] newest. *)
Theorem list_tickets_newest_first T FS requests dir created limit :
  create_tickets T FS requests no_tickets = (dir, Return created) ->
  Forall datetime.valid (number_times requests) ->
  Sorted datetime.earlier_second (number_times requests) ->
  list_tickets limit dir =
    {| count := length (slice_to (default 50%Z limit) (reverse created));
       tickets := TicketData <$> slice_to (default 50%Z limit) (reverse created) |} /\
  ((0 <= default 50%Z limit)%Z ->
   slice_to (default 50%Z limit) (reverse created) =
     take (Z.to_nat (default 50%Z limit)) (reverse created)).
Proof.
  intros Hcreate Hvalid Hordered.
  apply create_tickets_success in Hcreate as [Hnumbers ->].
  assert (StronglySorted numbered_before created) as Hsorted
    by by apply (numbered_in_order_sorted created (number_times requests)).
  split.
  - unfold list_tickets, no_tickets.
    rewrite sorted_reverse_store, slice_to_fmap by done.
    rewrite read_tickets; [cbn [app]; by rewrite length_fmap|].
    apply Forall_forall. intros t Hin. apply store_of_json; [done|].
    apply slice_to_subseteq in Hin.
    exact (proj1 (elem_of_reverse t created) Hin).
  - intros Hlimit. unfold slice_to.
    destruct (Z.leb_spec 0 (default 50%Z limit)); [done | lia].
Qed.

Lemma list_tickets_newest_first_witness :
  list_tickets (Some 2%Z)
    (create_tickets sample_text reliable_fs spaced_requests no_tickets).1 =
    {| count := 2;
       tickets := [TicketData (sample_ticket 3); TicketData (sample_ticket 2)] |}.
Proof.
  refine (proj1 (list_tickets_newest_first sample_text reliable_fs spaced_requests
                   (create_tickets sample_text reliable_fs spaced_requests no_tickets).1
                   [sample_ticket 1; sample_ticket 2; sample_ticket 3] (Some 2%Z)
                   _ _ _)).
  - vm_compute. reflexivity.
  - repeat constructor; simpl; lia.
  - repeat constructor; apply earlier_second_spec; simpl; lia.
Defined.

(** C8 as claimed fails: of three tickets created in the seconds 1, 2 and
    2, the third is written over the second, and [list_tickets(2)] does not
    return the two created last. *)
Lemma list_tickets_misses_same_second :
  exists dir t1 t2 t3,
    create_tickets sample_text reliable_fs burst_requests no_tickets =
      (dir, Return [t1; t2; t3]) /\
    tickets (list_tickets (Some 2%Z) dir) = [TicketData t3; TicketData t1] /\
    tickets (list_tickets (Some 2%Z) dir) <> [TicketData t3; TicketData t2].
Proof.
  eexists _, _, _, _. split; [vm_compute; reflexivity|].
  split; [vm_compute; reflexivity|]. vm_compute. discriminate.
Qed.

(** ** Confidence: signs of float operations *)

Lemma binary_round_aux_not_negative mx ex lx :
  not_negative (binary_round_aux prec emax false mx ex lx).
Proof.
  unfold binary_round_aux.
  destruct (shr_fexp prec emax mx ex lx) as [mrs' e'].
  destruct (shr_fexp prec emax _ e' loc_Exact) as [mrs'' e''].
  destruct (shr_m mrs''); [done | | done].
  by destruct (e'' <=? emax - prec)%Z.
Qed.

Lemma binary_normalize_not_negative m e :
  (0 <= m)%Z -> not_negative (binary_normalize prec emax m e false).
Proof.
  intros Hm. destruct m as [|m|m]; [done | | lia].
  unfold binary_normalize, binary_round.
  destruct (shl_align m e _). apply binary_round_aux_not_negative.
Qed.

Lemma SFmul_not_negative x y :
  not_negative x -> not_negative y -> not_negative (SFmul prec emax x y).
Proof.
  destruct x as [sx|sx| |sx mx ex], y as [sy|sy| |sy my ey]; simpl;
    intros Hx Hy; subst; try done.
  apply binary_round_aux_not_negative.
Qed.

Lemma SFadd_not_negative x y :
  not_negative x -> not_negative y -> not_negative (SFadd prec emax x y).
Proof.
  destruct x as [sx|sx| |sx mx ex], y as [sy|sy| |sy my ey]; simpl;
    intros Hx Hy; subst; try done.
  - by destruct sx, sy.
  - apply binary_normalize_not_negative. simpl. lia.
Qed.

Lemma SFdiv_not_negative x my ey :
  not_negative x -> not_negative (SFdiv prec emax x (S754_finite false my ey)).
Proof.
  destruct x as [sx|sx| |sx mx ex]; simpl; intros Hx; subst; try done.
  destruct (SFdiv_core_binary prec emax (Z.pos mx) ex (Z.pos my) ey) as [[mz ez] lz].
  apply binary_round_aux_not_negative.
Qed.

Lemma float_of_len_not_negative n : not_negative (Prim2SF (float_of_len n)).
Proof.
  unfold float_of_len. rewrite of_uint63_spec.
  apply binary_normalize_not_negative. apply Uint63.to_Z_bounded.
Qed.

Lemma py_min_not_negative a b :
  not_negative (Prim2SF a) -> not_negative (Prim2SF b) ->
  not_negative (Prim2SF (py_min a b)).
Proof. intros Ha Hb. unfold py_min. by destruct (b <? a)%float. Qed.

(** The sum that [calculate_confidence] caps at 1 is not below zero. *)
Lemma raw_confidence_not_negative tool_calls message_length :
  not_negative
    (Prim2SF (float_of_len tool_calls * 0.15 +
              py_min 0.4 (float_of_len message_length / 2000))%float).
Proof.
  rewrite add_spec. apply SFadd_not_negative.
  - rewrite mul_spec. apply SFmul_not_negative; [apply float_of_len_not_negative | done].
  - apply py_min_not_negative; [done|].
    rewrite div_spec. apply (SFdiv_not_negative _ 8796093022208000 (-42)).
    apply float_of_len_not_negative.
Qed.

(** ** Confidence: the range *)

Lemma digits2_pos_bound (m : positive) : (Z.pos m < 2 ^ Z.pos (digits2_pos m))%Z.
Proof.
  induction m as [m IH | m IH |]; simpl; [| |done];
    rewrite Pos2Z.inj_succ, Z.pow_succ_r by lia; lia.
Qed.

(** The mantissa of a double has at most 53 bits. *)
Lemma mantissa_bound (x : float) s m e :
  Prim2SF x = S754_finite s m e -> (Z.pos m < 2 ^ 53)%Z.
Proof.
  intros Hx. pose proof (Prim2SF_valid x) as Hvalid. rewrite Hx in Hvalid.
  simpl in Hvalid. unfold bounded, canonical_mantissa, fexp in Hvalid.
  apply andb_prop in Hvalid as [Hcanonical _]. apply Z.eqb_eq in Hcanonical.
  pose proof (digits2_pos_bound m) as Hdigits.
  assert (Z.pos (digits2_pos m) <= 53)%Z as Hle by (unfold prec in Hcanonical; lia).
  eapply Z.lt_le_trans; [exact Hdigits|]. apply Z.pow_le_mono_r; lia.
Qed.

(** A float that is not negative and below 1 is a zero, or a positive
    number [m * 2^e] with [e < 0] and [m <= 2^(-e)]. *)
Lemma below_one (y : float) :
  not_negative (Prim2SF y) -> (y <? 1)%float = true ->
  (exists s, Prim2SF y = S754_zero s) \/
  (exists m e, Prim2SF y = S754_finite false m e /\ (e < 0)%Z /\
               (Z.pos m <= 2 ^ (- e))%Z).
Proof.
  intros Hsign Hlt. rewrite ltb_spec in Hlt.
  change (Prim2SF 1) with (S754_finite false 4503599627370496 (-52)) in Hlt.
  destruct (Prim2SF y) as [s|s| |s m e] eqn:Hy; simpl in Hsign; subst.
  - left. by exists s.
  - done.
  - done.
  - right. exists m, e. split; [done|].
    pose proof (mantissa_bound y false m e Hy) as Hm.
    unfold SFltb, SFcompare in Hlt.
    destruct (Z.compare_spec e (-52)) as [-> | He | He]; [| |done].
    + split; [lia|]. rewrite Pos.compare_cont_spec in Hlt. simpl in Hlt.
      destruct (Pos.compare_spec m 4503599627370496) as [? | Hlt' | ?]; try done.
      change (2 ^ (- -52))%Z with 4503599627370496%Z.
      apply Pos2Z.pos_le_pos, Pos.lt_le_incl, Hlt'.
    + split; [lia|]. etrans; [apply Z.lt_le_incl, Hm|].
      apply Z.pow_le_mono_r; clear - He; lia.
Qed.

Lemma round_half_even_bound (m den : Z) :
  (0 <= m <= den)%Z -> (0 < den)%Z ->
  (0 <= round_half_even (100 * m) den <= 100)%Z.
Proof.
  intros Hm Hden. unfold round_half_even.
  pose proof (Z.div_mod (100 * m) den ltac:(lia)) as Hdiv.
  pose proof (Z.mod_pos_bound (100 * m) den Hden) as Hmod.
  assert (0 <= 100 * m / den)%Z as Hq0 by (apply Z.div_pos; lia).
  assert (100 * m / den <= 100)%Z as Hq1
    by (apply Z.div_le_upper_bound; lia).
  destruct (Z.compare_spec (2 * ((100 * m) mod den)) den) as [Heq | Hlt | Hgt].
  - destruct (Z.even (100 * m / den)); nia.
  - lia.
  - nia.
Qed.

(** The double nearest to a number of hundredths between 0 and 100 lies
    between 0 and 1. *)
Lemma hundredths_in_unit (h : Z) :
  (0 <= h <= 100)%Z ->
  (0 <=? of_uint63 (Uint63.of_Z h) / 100)%float = true /\
  (of_uint63 (Uint63.of_Z h) / 100 <=? 1)%float = true.
Proof.
  intros Hh.
  assert (forallb (fun n => ((0 <=? of_uint63 (Uint63.of_Z (Z.of_nat n)) / 100) &&
                           (of_uint63 (Uint63.of_Z (Z.of_nat n)) / 100 <=? 1))%float)
            (seq 0 101) = true) as Hall by (vm_compute; reflexivity).
  rewrite forallb_forall in Hall.
  specialize (Hall (Z.to_nat h)). rewrite Z2Nat.id in Hall by lia.
  apply andb_prop. apply Hall. apply in_seq. lia.
Qed.

(** [round(x, 2)] keeps a float between 0 and 1 there. *)
Lemma round2_in_unit (c : float) :
  not_negative (Prim2SF c) -> ((c <? 1)%float = true \/ c = 1%float) ->
  (0 <=? round2 c)%float = true /\ (round2 c <=? 1)%float = true.
Proof.
  intros Hsign [Hlt | ->]; [|by vm_compute].
  destruct (below_one c Hsign Hlt) as [[s Hzero] | (m & e & Hfinite & He & Hm)].
  - unfold round2. rewrite Hzero. rewrite !leb_spec, Hzero. by destruct s.
  - unfold round2. rewrite Hfinite.
    destruct (Z.leb_spec 0 e); [lia|].
    apply hundredths_in_unit, round_half_even_bound; [lia|].
    apply Z.pow_pos_nonneg; lia.
Qed.

(** The doubles nearest to the hundredths from 0 to 100 are numbers: each
    equals itself. *)
Lemma hundredths_eqb (h : Z) :
  (0 <= h <= 100)%Z ->
  (of_uint63 (Uint63.of_Z h) / 100 =? of_uint63 (Uint63.of_Z h) / 100)%float = true.
Proof.
  intros Hh.
  assert (forallb (fun n => (of_uint63 (Uint63.of_Z (Z.of_nat n)) / 100 =?
                             of_uint63 (Uint63.of_Z (Z.of_nat n)) / 100)%float)
            (seq 0 101) = true) as Hall by (vm_compute; reflexivity).
  rewrite forallb_forall in Hall.
  specialize (Hall (Z.to_nat h)). rewrite Z2Nat.id in Hall by lia.
  apply Hall. apply in_seq. lia.
Qed.

(** Rounding to the nearest integer, ties to even, gives the nearest whole
    number of hundredths. *)
Lemma round_half_even_nearest (m den : Z) :
  (0 < den)%Z -> nearest_hundredths m den (round_half_even (100 * m) den).
Proof.
  intros Hden. unfold nearest_hundredths, round_half_even.
  pose proof (Z.div_mod (100 * m) den ltac:(lia)) as Hdiv.
  pose proof (Z.mod_pos_bound (100 * m) den Hden) as Hmod.
  set (q := (100 * m / den)%Z) in *. set (r := ((100 * m) mod den)%Z) in *.
  destruct (Z.compare_spec (2 * r) den) as [Heq | Hlt | Hgt].
  - destruct (Z.even q) eqn:Heven.
    + split; [nia | done].
    + split; [nia|]. intros _. rewrite Z.even_add, Heven. done.
  - split; [nia | nia].
  - split; [nia | nia].
Qed.

(** [round(c, 2)] for a float [c] from 0 to 1: the double nearest to
    [h / 100], for the whole number [h] of hundredths nearest to the number
    that [c] stands for. *)
Lemma round2_nearest (c : float) :
  not_negative (Prim2SF c) -> ((c <? 1)%float = true \/ c = 1%float) ->
  exists m den h : Z,
    exact_value (Prim2SF c) = Some (m, den) /\
    nearest_hundredths m den h /\
    (0 <= h <= 100)%Z /\
    (round2 c =? of_uint63 (Uint63.of_Z h) / 100)%float = true.
Proof.
  intros Hsign [Hlt | ->].
  - destruct (below_one c Hsign Hlt) as [[s Hzero] | (m & e & Hfinite & He & Hm)].
    + exists 0%Z, 1%Z, 0%Z. rewrite Hzero. split; [done|].
      split; [by split|]. split; [lia|].
      unfold round2. rewrite Hzero. rewrite FloatAxioms.eqb_spec, Hzero. by destruct s.
    + exists (Z.pos m), (2 ^ (- e))%Z, (round_half_even (100 * Z.pos m) (2 ^ (- e))).
      assert (0 < 2 ^ (- e))%Z as Hden by (apply Z.pow_pos_nonneg; lia).
      assert (0 <= round_half_even (100 * Z.pos m) (2 ^ (- e)) <= 100)%Z as Hh
        by (apply round_half_even_bound; [lia | done]).
      rewrite Hfinite. cbn [exact_value].
      destruct (Z.leb_spec 0 e); [lia|].
      split; [done|]. split; [by apply round_half_even_nearest|].
      split; [exact Hh|]. unfold round2. rewrite Hfinite.
      destruct (Z.leb_spec 0 e); [lia|]. by apply hundredths_eqb.
  - exists 4503599627370496%Z, 4503599627370496%Z, 100%Z.
    split; [by vm_compute|]. split; [|split; [lia | by vm_compute]].
    split; [by vm_compute|]. intros _. reflexivity.
Qed.

(** C6, as the code has it.  The confidence is [round(c, 2)] for the double
    [c] that [min(1.0, tool_calls * 0.15 + min(0.4, message_length / 2000))]
    gives in double arithmetic: the double nearest to [h / 100], where [h]
    is the whole number of hundredths nearest to the number [c] stands for
    (a tie going to the even one), between 0 and 100.  With 3 tool calls
    and a message of 1000 characters it is the double 0.85; and it always
    lies between 0.0 and 1.0. *)
Theorem calculate_confidence_rounds_the_double (result : AgentResult.t) :
  let tool_calls := length (AgentResult.tool_calls result) in
  let message_length := len (AgentResult.message result) in
  let capped :=
    py_min 1 (float_of_len tool_calls * 0.15 +
              py_min 0.4 (float_of_len message_length / 2000))%float in
  (exists m den h : Z,
     exact_value (Prim2SF capped) = Some (m, den) /\
     nearest_hundredths m den h /\
     (0 <= h <= 100)%Z /\
     (calculate_confidence result =? of_uint63 (Uint63.of_Z h) / 100)%float = true) /\
  (tool_calls = 3 -> message_length = 1000 ->
   calculate_confidence result = 0.85%float) /\
  (0 <=? calculate_confidence result)%float = true /\
  (calculate_confidence result <=? 1)%float = true.
Proof.
  intros tool_calls message_length capped.
  assert (not_negative (Prim2SF capped)) as Hsign
    by (apply py_min_not_negative; [done | apply raw_confidence_not_negative]).
  assert ((capped <? 1)%float = true \/ capped = 1%float) as Hunit.
  { unfold capped.
    set (raw := (float_of_len tool_calls * 0.15 +
                 py_min 0.4 (float_of_len message_length / 2000))%float).
    change (py_min 1 raw) with (if (raw <? 1)%float then raw else 1%float).
    destruct (raw <? 1)%float eqn:Hlt; [by left | by right]. }
  split; [|split].
  - apply (round2_nearest capped Hsign Hunit).
  - intros Htools Hlength. unfold calculate_confidence.
    fold tool_calls message_length. rewrite Htools, Hlength.
    vm_compute. reflexivity.
  - apply (round2_in_unit capped Hsign Hunit).
Qed.

Lemma calculate_confidence_rounds_the_double_witness :
  calculate_confidence sample_result = 0.85%float.
Proof.
  apply (calculate_confidence_rounds_the_double sample_result); vm_compute; reflexivity.
Defined.

(** C6 as claimed fails.  Without tool calls and with a message of 30
    characters the formula gives the number 0.015, which rounds to 0.02
    (it lies halfway; a tie going up or to the even hundredth gives 2
    hundredths).  The code gives the double 0.01: the double that
    [30 / 2000] gives lies below 0.015. *)
Lemma confidence_rounds_the_double_not_the_number :
  (spec_raw_confidence (length (AgentResult.tool_calls short_result))
     (len (AgentResult.message short_result)) == 15 # 1000)%Q /\
  hundredths_half_even
    (spec_raw_confidence (length (AgentResult.tool_calls short_result))
       (len (AgentResult.message short_result))) = 2%Z /\
  hundredths_half_up
    (spec_raw_confidence (length (AgentResult.tool_calls short_result))
       (len (AgentResult.message short_result))) = 2%Z /\
  calculate_confidence short_result = 0.01%float /\
  (calculate_confidence short_result =? 0.02)%float = false.
Proof. repeat split; vm_compute; reflexivity. Qed.
(** * Further properties *)

(** ** Parsing: [extract_actions] *)

Lemma startswith_two_stars s :
  Parsers.startswith s "**" = true -> Parsers.startswith s "*" = true.
Proof.
  unfold Parsers.startswith. destruct s as [|c s]; [done|].
  cbn [String.prefix]. destruct (Ascii.ascii_dec "*" c); [|done]. by destruct s.
Qed.

Lemma startswith_hashes_not_stars s :
  Parsers.startswith s "###" = true -> Parsers.startswith s "**" = false.
Proof.
  unfold Parsers.startswith. destruct s as [|c s]; [done|].
  cbn [String.prefix]. destruct (Ascii.ascii_dec "#" c) as [<-|]; [|done].
  intros _. by destruct (Ascii.ascii_dec "*" "#").
Qed.

Lemma startswith_nonempty s c prefix :
  Parsers.startswith s (String c prefix) = true -> Parsers.nonempty s = true.
Proof. by destruct s. Qed.

Lemma actions_loop_spec lines in_actions actions :
  Parsers.actions_loop lines in_actions actions =
  actions ++ actions_below_heading lines in_actions.
Proof.
  revert in_actions actions.
  induction lines as [|line rest IH]; intros in_actions actions; simpl.
  { by rewrite app_nil_r. }
  destruct (Parsers.actions_heading line); [apply IH|].
  destruct in_actions; [|apply IH].
  unfold action_of_line.
  destruct (Parsers.nonempty (Parsers.strip line)) eqn:Hne; simpl.
  - destruct (Parsers.startswith (Parsers.strip line) "-" ||
              Parsers.startswith (Parsers.strip line) "*" ||
              Parsers.first_isdigit (Parsers.strip line)) eqn:Hb; simpl.
    + destruct (Parsers.nonempty (Parsers.lstrip_chars _ _)); simpl;
        rewrite IH; [|done].
      by rewrite <- app_assoc.
    + destruct (Parsers.startswith (Parsers.strip line) "**") eqn:H2.
      { apply startswith_two_stars in H2. rewrite H2 in Hb.
        by rewrite orb_true_r in Hb. }
      simpl. rewrite IH. by rewrite <- app_assoc.
  - destruct (Parsers.startswith (Parsers.strip line) "**") eqn:H2.
    { apply startswith_nonempty in H2. congruence. }
    destruct (Parsers.startswith (Parsers.strip line) "###") eqn:H3.
    { apply startswith_nonempty in H3. congruence. }
    simpl. apply IH.
Qed.

Lemma action_of_line_nonempty line action :
  action_of_line line = Some action -> Parsers.nonempty action = true.
Proof.
  unfold action_of_line. intros H.
  repeat match type of H with
         | context [if ?b then _ else _] => destruct b eqn:?
         end; try done; injection H as <-; done.
Qed.

Lemma actions_below_heading_nonempty lines in_actions :
  Forall (fun action => Parsers.nonempty action = true)
    (actions_below_heading lines in_actions).
Proof.
  revert in_actions. induction lines as [|line rest IH]; intros in_actions; simpl.
  { constructor. }
  destruct (Parsers.actions_heading line); [apply IH|].
  destruct in_actions; [|apply IH].
  apply Forall_app. split; [|apply IH].
  destruct (action_of_line line) as [action|] eqn:Haction; simpl; [|constructor].
  constructor; [|constructor]. by apply action_of_line_nonempty with line.
Qed.

(** X1: [extract_actions] reads every line below the first heading line
    ("recommended" and "action") down to the end of the text.  The [break]
    of its loop is never taken: a line that starts with [**] starts with
    [*] and is read as a bullet, and a line that starts with [###] is not
    empty and is read as plain text.  So the headings and the text of
    later sections are returned as actions too; the result is the first
    five of all these, or the three default actions when there is none. *)
Theorem extract_actions_reads_to_the_end text :
  Parsers.extract_actions text =
    match actions_below_heading (Parsers.split_lines text) false with
    | [] => ["Review alert in Grafana"; "Check service logs"; "Escalate if needed"]
    | actions => take 5 actions
    end.
Proof.
  unfold Parsers.extract_actions. rewrite actions_loop_spec. simpl.
  by destruct (actions_below_heading _ _).
Qed.

Lemma extract_actions_range text :
  1 <= length (Parsers.extract_actions text) <= 5 /\
  Forall (fun action => Parsers.nonempty action = true) (Parsers.extract_actions text).
Proof.
  unfold Parsers.extract_actions. rewrite actions_loop_spec. cbn [app].
  pose proof (actions_below_heading_nonempty (Parsers.split_lines text) false) as Hall.
  destruct (actions_below_heading _ _) as [|action actions] eqn:Hactions.
  { split; [simpl; lia|]. by repeat constructor. }
  split.
  - rewrite length_take. cbn [length]. lia.
  - eapply Forall_forall. intros x Hx. eapply Forall_forall in Hall; [exact Hall|].
    by apply (subseteq_take 5). 
Qed.

(** ** Parsing: [extract_section] *)

Lemma section_loop_nonempty section_name lines in_section section_lines :
  Forall (fun line => Parsers.nonempty line = true) section_lines ->
  Forall (fun line => Parsers.nonempty line = true)
    (Parsers.section_loop section_name lines in_section section_lines).
Proof.
  revert in_section section_lines.
  induction lines as [|line rest IH]; intros in_section section_lines Hall; simpl.
  { done. }
  destruct (Parsers.section_marker section_name line); [by apply IH|].
  destruct in_section; simpl; [|by apply IH].
  destruct (Parsers.startswith line "**" || Parsers.startswith line "###" ||
            negb (Parsers.nonempty (Parsers.strip line))) eqn:Hend.
  - destruct section_lines; [by apply IH | done].
  - apply IH, Forall_app. split; [done|]. constructor; [|constructor].
    apply orb_false_elim in Hend as [_ Hend]. by apply negb_false_iff.
Qed.

Lemma nonempty_append s t :
  Parsers.nonempty s = true -> Parsers.nonempty (s +:+ t) = true.
Proof. by destruct s. Qed.

Lemma nonempty_concat sep line lines :
  Parsers.nonempty line = true ->
  Parsers.nonempty (String.concat sep (line :: lines)) = true.
Proof.
  intros Hline. destruct lines; simpl; [done|]. by apply nonempty_append.
Qed.

Lemma extract_section_nonempty text section_name :
  Parsers.nonempty (Parsers.extract_section text section_name) = true.
Proof.
  unfold Parsers.extract_section.
  pose proof (section_loop_nonempty section_name (Parsers.split_lines text) false []
                ltac:(constructor)) as Hall.
  destruct (Parsers.section_loop _ _ _ _) as [|line lines]; [done|].
  apply nonempty_concat. by inversion Hall.
Qed.

Lemma split_lines_cons text : exists line lines, Parsers.split_lines text = line :: lines.
Proof.
  destruct text as [|c rest]; simpl; [by eexists _, _|].
  destruct (Ascii.eqb c "010"); [by eexists _, _|].
  destruct (Parsers.split_lines rest); by eexists _, _.
Qed.

Lemma prefix_empty (s : string) : String.prefix "" s = true.
Proof. by destruct s. Qed.

Lemma prefix_trans (s t u : string) :
  String.prefix s t = true -> String.prefix t u = true -> String.prefix s u = true.
Proof.
  revert t u. induction s as [|c s IH]; intros t u; [intros; apply prefix_empty|].
  destruct t as [|c' t]; [done|]. destruct u as [|c'' u]; [done|].
  cbn [String.prefix].
  destruct (Ascii.ascii_dec c c') as [->|]; [|done].
  destruct (Ascii.ascii_dec c' c''); [|done]. apply IH.
Qed.

Lemma prefix_cons c s t :
  String.prefix (String c s) (String c t) = String.prefix s t.
Proof. cbn [String.prefix]. by destruct (Ascii.ascii_dec c c). Qed.

Lemma first_line_prefix text line lines :
  Parsers.split_lines text = line :: lines -> String.prefix line text = true.
Proof.
  revert line lines. induction text as [|c rest IH]; intros line lines; simpl.
  { by intros [= <- <-]. }
  destruct (Ascii.eqb c "010"); [by intros [= <- <-]|].
  destruct (Parsers.split_lines rest) as [|line' lines'] eqn:Hrest.
  - intros [= <- <-]. destruct (ascii_dec c c); [|done]. apply prefix_empty.
  - intros [= <- <-]. destruct (ascii_dec c c); [|done]. by apply (IH line' lines').
Qed.

Lemma contains_empty s : Parsers.contains s "" = true.
Proof. by destruct s. Qed.

Lemma contains_cons c s sub :
  Parsers.contains s sub = true -> Parsers.contains (String c s) sub = true.
Proof. intros H. cbn [Parsers.contains]. rewrite H. apply orb_true_r. Qed.

(** What a line of a text contains, the text contains. *)
Lemma contains_line text line sub :
  line ∈ Parsers.split_lines text ->
  Parsers.contains line sub = true -> Parsers.contains text sub = true.
Proof.
  revert line. induction text as [|c rest IH]; intros line;
    cbn [Parsers.split_lines Parsers.contains].
  { intros Hin. apply list_elem_of_singleton in Hin as ->. done. }
  destruct (Ascii.eqb c "010").
  - intros [->|Hin]%elem_of_cons Hsub.
    + by destruct sub.
    + rewrite (IH line Hin Hsub). apply orb_true_r.
  - destruct (Parsers.split_lines rest) as [|line' lines'] eqn:Hrest.
    { by destruct (split_lines_cons rest) as (? & ? & ?); congruence. }
    intros [->|Hin]%elem_of_cons Hsub.
    + cbn [Parsers.contains] in Hsub.
      apply orb_true_iff in Hsub as [Hsub|Hsub].
      * apply orb_true_iff. left. apply prefix_trans with (String c line'); [done|].
        rewrite prefix_cons. by apply first_line_prefix with lines'.
      * rewrite (IH line' ltac:(left) Hsub). apply orb_true_r.
    + rewrite (IH line ltac:(by right) Hsub). apply orb_true_r.
Qed.

(** A text with a longer marker has the shorter one. *)
Lemma contains_suffix s c sub :
  Parsers.contains s (String c sub) = true -> Parsers.contains s sub = true.
Proof.
  induction s as [|c' s IH]; [done|].
  cbn [Parsers.contains]. intros [H|H]%orb_true_iff.
  - apply orb_true_iff. right. cbn [String.prefix] in H.
    destruct (Ascii.ascii_dec c c'); [|done].
    destruct s, sub; try done; simpl in *; rewrite ?H; done.
  - apply orb_true_iff. right. by apply IH.
Qed.

Lemma section_loop_outside section_name lines section_lines :
  Forall (fun line => Parsers.section_marker section_name line = false) lines ->
  Parsers.section_loop section_name lines false section_lines = section_lines.
Proof.
  induction 1 as [|line rest Hline _ IH]; simpl; [done|]. by rewrite Hline.
Qed.

(** X2: on a text without [**] and without [###], [extract_section] finds
    no section, whatever the name: it returns the pointer to the full
    investigation. *)
Theorem extract_section_plain_text text section_name :
  Parsers.contains text "**" = false ->
  Parsers.contains text "###" = false ->
  Parsers.extract_section text section_name =
    "See full investigation for " +:+ section_name.
Proof.
  intros Hstars Hhashes. unfold Parsers.extract_section.
  rewrite section_loop_outside; [done|].
  apply Forall_forall. intros line Hline. unfold Parsers.section_marker.
  assert (Parsers.contains line "**" = false) as ->.
  { destruct (Parsers.contains line "**") eqn:H; [|done].
    by rewrite (contains_line text line "**" Hline H) in Hstars. }
  assert (Parsers.contains line "###" = false) as ->.
  { destruct (Parsers.contains line "###") eqn:H; [|done].
    by rewrite (contains_line text line "###" Hline H) in Hhashes. }
  assert (Parsers.contains line ":**" = false) as ->.
  { destruct (Parsers.contains line ":**") eqn:H; [|done].
    apply contains_suffix in H.
    by rewrite (contains_line text line "**" Hline H) in Hstars. }
  apply andb_false_r.
Qed.

Lemma extract_section_plain_text_witness :
  Parsers.extract_section "The disk filled up: rotate the logs." "Root Cause" =
    "See full investigation for Root Cause".
Proof.
  apply (extract_section_plain_text "The disk filled up: rotate the logs."
           "Root Cause"); vm_compute; reflexivity.
Defined.




(** ** Parsing: [extract_evidence] *)

Lemma contains_char_cons (c c' : ascii) s :
  Parsers.contains (String c' s) (String c "") =
  Ascii.eqb c c' || Parsers.contains s (String c "").
Proof.
  cbn [Parsers.contains String.prefix].
  destruct (Ascii.ascii_dec c c') as [->|Hne].
  - by rewrite Ascii.eqb_refl, prefix_empty.
  - by apply Ascii.eqb_neq in Hne as ->.
Qed.

Lemma contains_char_nonempty c s :
  Parsers.contains s (String c "") = true -> Parsers.nonempty s = true.
Proof. by destruct s. Qed.

Lemma contains_char_lstrip (p : ascii -> bool) c s :
  p c = false ->
  Parsers.contains s (String c "") = true ->
  Parsers.contains (Parsers.lstrip_by p s) (String c "") = true.
Proof.
  intros Hp. induction s as [|c' s IH]; [done|].
  cbn [Parsers.lstrip_by]. destruct (p c') eqn:Hc'; [|done].
  rewrite contains_char_cons. intros [Heq|H]%orb_true_iff; [|by apply IH].
  apply Ascii.eqb_eq in Heq as ->. congruence.
Qed.

Lemma contains_char_rstrip (p : ascii -> bool) c s :
  p c = false ->
  Parsers.contains s (String c "") = true ->
  Parsers.contains (Parsers.rstrip_by p s) (String c "") = true.
Proof.
  intros Hp. induction s as [|c' s IH]; [done|].
  rewrite contains_char_cons. cbn [Parsers.rstrip_by].
  intros [Heq|H]%orb_true_iff.
  - apply Ascii.eqb_eq in Heq as <-. rewrite Hp.
    destruct (Parsers.rstrip_by p s); rewrite contains_char_cons;
      by rewrite Ascii.eqb_refl.
  - specialize (IH H). destruct (Parsers.rstrip_by p s) as [|c'' s'] eqn:Hs; [done|].
    rewrite contains_char_cons, IH. apply orb_true_r.
Qed.

Lemma contains_char_strip c s :
  Parsers.isspace c = false ->
  Parsers.contains s (String c "") = true ->
  Parsers.contains (Parsers.strip s) (String c "") = true.
Proof.
  intros Hc H. by apply contains_char_rstrip, contains_char_lstrip.
Qed.

Lemma evidence_loop_colon lines evidence :
  Forall (fun item => Parsers.contains item ":" = true) evidence ->
  Forall (fun item => Parsers.contains item ":" = true)
    (foldl (fun evidence line =>
              if Parsers.evidence_line line then evidence ++ [Parsers.strip line]
              else evidence) evidence lines).
Proof.
  revert evidence. induction lines as [|line rest IH]; intros evidence Hall; simpl.
  { done. }
  apply IH. destruct (Parsers.evidence_line line) eqn:Hline; [|done].
  apply Forall_app. split; [done|]. constructor; [|constructor].
  apply contains_char_strip; [done|].
  unfold Parsers.evidence_line in Hline.
  apply andb_true_iff in Hline as [_ Hline].
  by apply andb_true_iff in Hline as [Hline _].
Qed.

Lemma evidence_loop_items lines0 lines evidence :
  lines ⊆ lines0 ->
  Forall (fun item => exists line, line ∈ lines0 /\ Parsers.evidence_line line = true /\
                                   item = Parsers.strip line) evidence ->
  Forall (fun item => exists line, line ∈ lines0 /\ Parsers.evidence_line line = true /\
                                   item = Parsers.strip line)
    (foldl (fun evidence line =>
              if Parsers.evidence_line line then evidence ++ [Parsers.strip line]
              else evidence) evidence lines).
Proof.
  revert evidence. induction lines as [|line rest IH]; intros evidence Hsub Hall; simpl.
  { done. }
  apply IH; [set_solver|].
  destruct (Parsers.evidence_line line) eqn:Hline; [|done].
  apply Forall_app. split; [done|]. constructor; [|constructor].
  exists line. split; [set_solver | done].
Qed.

(** X4: [extract_evidence] returns at most ten items.  They are the single
    default item, or each is a line of the text, stripped, that names one
    of the keywords, has a colon and does not start with [#]; the colon is
    still in the item. *)
Theorem extract_evidence_items text :
  length (Parsers.extract_evidence text) <= 10 /\
  (Parsers.extract_evidence text = ["See investigation details above"] \/
   Forall (fun item =>
             Parsers.contains item ":" = true /\
             exists line,
               line ∈ Parsers.split_lines text /\
               Parsers.evidence_line line = true /\
               item = Parsers.strip line)
     (Parsers.extract_evidence text)).
Proof.
  unfold Parsers.extract_evidence.
  pose proof (evidence_loop_colon (Parsers.split_lines text) [] ltac:(constructor))
    as Hcolon.
  pose proof (evidence_loop_items (Parsers.split_lines text) (Parsers.split_lines text)
                [] ltac:(done) ltac:(constructor)) as Hitems.
  destruct (foldl _ _ _) as [|item evidence].
  { split; [simpl; lia | by left]. }
  split.
  - rewrite length_take. lia.
  - right. apply Forall_forall. intros x Hx. apply (subseteq_take 10) in Hx.
    rewrite Forall_forall in Hcolon, Hitems. split; [by apply Hcolon | by apply Hitems].
Qed.

Lemma extract_evidence_range text :
  1 <= length (Parsers.extract_evidence text) <= 10 /\
  Forall (fun item => item = "See investigation details above" \/
                      Parsers.contains item ":" = true)
    (Parsers.extract_evidence text).
Proof.
  unfold Parsers.extract_evidence.
  pose proof (evidence_loop_colon (Parsers.split_lines text) [] ltac:(constructor))
    as Hall.
  destruct (foldl _ _ _) as [|item evidence].
  { split; [simpl; lia|]. constructor; [by left | constructor]. }
  split.
  - rewrite length_take. cbn [length]. lia.
  - apply Forall_forall. intros x Hx. right.
    eapply Forall_forall in Hall; [exact Hall|]. by apply (subseteq_take 10).
Qed.

(** ** The investigation with the parsers of the source *)

Lemma nonempty_ne s : Parsers.nonempty s = true -> s <> "".
Proof. by destruct s. Qed.

Lemma calculate_confidence_in_unit (result : AgentResult.t) :
  (0 <=? calculate_confidence result)%float = true /\
  (calculate_confidence result <=? 1)%float = true.
Proof.
  unfold calculate_confidence.
  set (raw := (float_of_len (length (AgentResult.tool_calls result)) * 0.15 +
               py_min 0.4 (float_of_len (len (AgentResult.message result)) /
                           2000))%float).
  apply round2_in_unit.
  - apply py_min_not_negative; [done | apply raw_confidence_not_negative].
  - change (py_min 1 raw) with (if (raw <? 1)%float then raw else 1%float).
    destruct (raw <? 1)%float eqn:Hlt; [by left | by right].
Qed.

(** X5: [investigate_alert_with_ai] with the parsers of the source.  When
    the alert name and the summary are strings it returns, whatever the
    engine answers and also when it fails, an investigation with that name
    and summary whose hypothesis and impact are not empty, with one to five
    recommended actions, one to ten items of evidence, and a confidence
    between 0.0 and 1.0.  When one of the two is not a string (labels and
    annotations hold any JSON value) it returns nothing: it raises the
    [ValidationError] of [AlertInvestigation] that names the fields, out of
    the fallback too. *)
Theorem investigation_is_well_formed T E C alert_name severity description summary
    metric_values labels annotations :
  match alert_name, summary with
  | AnyStr name, AnyStr text =>
      exists investigation,
        investigate_alert_with_ai (with_source_parsers T) E C alert_name severity
          description summary metric_values labels annotations =
          Return investigation /\
        AlertInvestigation.alert_name investigation = name /\
        AlertInvestigation.summary investigation = text /\
        AlertInvestigation.root_cause_hypothesis investigation <> "" /\
        AlertInvestigation.impact_assessment investigation <> "" /\
        1 <= length (AlertInvestigation.recommended_actions investigation) <= 5 /\
        1 <= length (AlertInvestigation.related_evidence investigation) <= 10 /\
        (0 <=? AlertInvestigation.confidence investigation)%float = true /\
        (AlertInvestigation.confidence investigation <=? 1)%float = true
  | AnyStr _, _ =>
      investigate_alert_with_ai (with_source_parsers T) E C alert_name severity
        description summary metric_values labels annotations =
        Raise (validation_error "AlertInvestigation" ["summary"])
  | _, AnyStr _ =>
      investigate_alert_with_ai (with_source_parsers T) E C alert_name severity
        description summary metric_values labels annotations =
        Raise (validation_error "AlertInvestigation" ["alert_name"])
  | _, _ =>
      investigate_alert_with_ai (with_source_parsers T) E C alert_name severity
        description summary metric_values labels annotations =
        Raise (validation_error "AlertInvestigation" ["alert_name"; "summary"])
  end.
Proof.
  unfold investigate_alert_with_ai, new_investigation.
  destruct alert_name as [name| | | |], summary as [summary_text| | | |];
    (destruct (agent_setup E) as [[]|e]; [destruct (run_chat E _ _) as [result|e]|]);
    try reflexivity.
  - eexists. split; [reflexivity|]. cbn.
    split; [done|]. split; [done|].
    split; [apply nonempty_ne, extract_section_nonempty|].
    split; [apply nonempty_ne, extract_section_nonempty|].
    split; [apply extract_actions_range|].
    split; [apply extract_evidence_range|].
    apply calculate_confidence_in_unit.
  - eexists. split; [reflexivity|]. cbn. repeat split; try done; lia.
  - eexists. split; [reflexivity|]. cbn. repeat split; try done; lia.
Qed.

(** ** The alert task *)

Lemma get_ticket_stored T ticket dir :
  get_ticket (ServiceNowTicket.ticket_number ticket) (store_of T [ticket] dir) =
    Return (TicketData ticket).
Proof.
  unfold get_ticket, read_json, store_of. simpl.
  fold (ticket_file ticket). fold (ticket_text_file ticket).
  rewrite lookup_insert_ne by apply ticket_files_differ.
  by rewrite lookup_insert_eq.
Qed.

(** X6: a ticket that [create_servicenow_ticket] returns can be read back:
    [get_ticket] with its number gives the same ticket.  The creation
    touches the two files of the ticket only. *)
Theorem get_ticket_after_create T FS C alert investigation severity dir dir' ticket :
  create_servicenow_ticket T FS C alert investigation severity dir =
    (dir', Return ticket) ->
  get_ticket (ticket_number_at (number_time C)) dir' = Return (TicketData ticket) /\
  forall name,
    name <> ticket_number_at (number_time C) +:+ ".json" ->
    name <> ticket_number_at (number_time C) +:+ ".txt" ->
    dir' !! name = dir !! name.
Proof.
  intros Hcreate. apply create_ticket_success in Hcreate as [<- ->]. split.
  - apply get_ticket_stored.
  - intros name Hjson Htext. apply store_of_other. by repeat constructor.
Qed.

Lemma get_ticket_after_create_witness :
  get_ticket (ticket_number_at (number_time (sample_clock 1)))
    (create_servicenow_ticket sample_text reliable_fs (sample_clock 1)
       (sample_alert "a1" "critical") sample_investigation "critical" no_tickets).1 =
    Return (TicketData (sample_ticket 1)).
Proof.
  apply (get_ticket_after_create sample_text reliable_fs (sample_clock 1)
           (sample_alert "a1" "critical") sample_investigation "critical"
           no_tickets _ (sample_ticket 1)).
  vm_compute. reflexivity.
Defined.

(** The task on an alert whose name, severity and summary are strings: the
    investigation is returned, and the ticket is created from it. *)
Lemma process_alert_string_fields T E FS C alert common_labels common_annotations dir :
  string_fields alert = true ->
  exists investigation,
    AlertInvestigation.alert_name investigation = py_str (alert_name_of alert) /\
    process_alert T E FS C alert common_labels common_annotations dir =
      ((create_servicenow_ticket T FS C alert investigation
          (lower (py_str (severity_label_of alert))) dir).1, Return tt).
Proof.
  unfold string_fields, summary_of, alert_name_of, severity_label_of.
  intros Hstrings.
  destruct (dict_get (GrafanaAlert.labels alert) "alertname" (AnyStr "Unknown Alert"))
    as [name| | | |] eqn:Hname; try done.
  destruct (dict_get (GrafanaAlert.labels alert) "severity" (AnyStr "unknown"))
    as [severity| | | |] eqn:Hseverity; try done.
  destruct (dict_get (GrafanaAlert.annotations alert) "summary" (AnyStr name))
    as [summary_text| | | |] eqn:Hsummary; try done.
  rewrite (process_alert_body T E FS C alert common_labels common_annotations dir
             (lower severity)) by by rewrite Hseverity.
  rewrite Hname, Hsummary.
  pose proof (investigation_outcome T E C (AnyStr name) (lower severity)
                (dict_get (GrafanaAlert.annotations alert) "description"
                   (AnyStr "No description"))
                (AnyStr summary_text) (default [] (GrafanaAlert.values alert))
                (GrafanaAlert.labels alert) (GrafanaAlert.annotations alert))
    as (investigation & -> & Hinvestigation & _).
  by exists investigation.
Qed.

(** The task on any other alert: [.lower()] or the model raises, the
    handler of the task logs it, and no file is written. *)
Lemma process_alert_other_fields T E FS C alert common_labels common_annotations dir :
  string_fields alert = false ->
  process_alert T E FS C alert common_labels common_annotations dir = (dir, Return tt).
Proof.
  unfold string_fields, summary_of, alert_name_of, severity_label_of.
  intros Hother.
  destruct (str_lower (dict_get (GrafanaAlert.labels alert) "severity"
                         (AnyStr "unknown"))) as [severity|e] eqn:Hseverity;
    [|by apply (process_alert_without_severity _ _ _ _ _ _ _ _ e)].
  rewrite (process_alert_body T E FS C alert common_labels common_annotations dir
             severity) by done.
  pose proof (investigation_outcome T E C
                (dict_get (GrafanaAlert.labels alert) "alertname"
                   (AnyStr "Unknown Alert"))
                severity
                (dict_get (GrafanaAlert.annotations alert) "description"
                   (AnyStr "No description"))
                (dict_get (GrafanaAlert.annotations alert) "summary"
                   (dict_get (GrafanaAlert.labels alert) "alertname"
                      (AnyStr "Unknown Alert")))
                (default [] (GrafanaAlert.values alert))
                (GrafanaAlert.labels alert) (GrafanaAlert.annotations alert))
    as Houtcome.
  destruct (dict_get (GrafanaAlert.labels alert) "severity" (AnyStr "unknown"))
    as [label| | | |]; try done.
  destruct (dict_get (GrafanaAlert.labels alert) "alertname" (AnyStr "Unknown Alert"))
    as [name| | | |];
    destruct (dict_get (GrafanaAlert.annotations alert) "summary" _)
      as [summary_text| | | |];
    try done; by destruct Houtcome as [fields ->].
Qed.



(** X8: [process_alert] never raises, for any alert, engine and file
    system, and it leaves every file alone except the two named by the
    ticket number of the moment. *)
Theorem process_alert_never_raises T E FS C alert common_labels common_annotations dir :
  (process_alert T E FS C alert common_labels common_annotations dir).2 = Return tt /\
  forall name,
    name <> ticket_number_at (number_time C) +:+ ".json" ->
    name <> ticket_number_at (number_time C) +:+ ".txt" ->
    (process_alert T E FS C alert common_labels common_annotations dir).1 !! name =
      dir !! name.
Proof.
  destruct (string_fields alert) eqn:Hstrings;
    [|by rewrite process_alert_other_fields].
  destruct (process_alert_string_fields T E FS C alert common_labels
              common_annotations dir Hstrings) as (investigation & _ & ->).
  split; [done|]. cbn [fst].
  unfold create_servicenow_ticket, bind, lift, ret, write_text.
  rewrite priority_of_severity_spec.
  destruct (write_error FS (_ +:+ ".json")) as [e1|]; [done|].
  destruct (write_error FS (_ +:+ ".txt")) as [e2|]; simpl.
  - intros name Hjson Htext. by rewrite lookup_insert_ne.
  - intros name Hjson Htext. by rewrite !lookup_insert_ne.
Qed.

(** X9: when the JSON file is written and writing the text file fails,
    [process_alert] swallows the error and the ticket stays filed:
    [get_ticket] returns it, without a text file having been written.
    This is for an alert whose name, severity and summary are strings;
    for any other alert no ticket is made at all. *)
Theorem process_alert_text_write_fails T E FS C alert common_labels
    common_annotations dir e :
  string_fields alert = true ->
  write_error FS (ticket_number_at (number_time C) +:+ ".json") = None ->
  write_error FS (ticket_number_at (number_time C) +:+ ".txt") = Some e ->
  exists ticket,
    process_alert T E FS C alert common_labels common_annotations dir =
      (<[ticket_number_at (number_time C) +:+ ".json" := JsonFile ticket]> dir,
       Return tt) /\
    get_ticket (ticket_number_at (number_time C))
      (process_alert T E FS C alert common_labels common_annotations dir).1 =
      Return (TicketData ticket).
Proof.
  intros Hstrings Hjson Htext.
  destruct (process_alert_string_fields T E FS C alert common_labels
              common_annotations dir Hstrings) as (investigation & _ & ->).
  unfold create_servicenow_ticket, bind, lift, ret, write_text.
  rewrite priority_of_severity_spec, Hjson, Htext. simpl.
  eexists. split; [reflexivity|].
  unfold get_ticket, read_json. by rewrite lookup_insert_eq.
Qed.

Lemma process_alert_text_write_fails_witness :
  exists ticket,
    process_alert sample_text unreachable_engine json_only_fs (sample_clock 0)
      (sample_alert "a1" "critical") [] [] no_tickets =
      (<[ticket_number_at (number_time (sample_clock 0)) +:+ ".json" := JsonFile ticket]>
         no_tickets, Return tt) /\
    get_ticket (ticket_number_at (number_time (sample_clock 0)))
      (process_alert sample_text unreachable_engine json_only_fs (sample_clock 0)
         (sample_alert "a1" "critical") [] [] no_tickets).1 =
      Return (TicketData ticket).
Proof.
  apply (process_alert_text_write_fails sample_text unreachable_engine json_only_fs
           (sample_clock 0) (sample_alert "a1" "critical") [] [] no_tickets
           (Exc "OSError" "No space left on device")).
  - reflexivity.
  - vm_compute. reflexivity.
  - vm_compute. reflexivity.
Defined.

(** ** Ticket store *)

Lemma same_second_number d1 d2 :
  same_second d1 d2 -> ticket_number_at d1 = ticket_number_at d2.
Proof.
  unfold same_second, ticket_number_at, datetime.strftime_compact.
  destruct d1, d2; simpl. by intros [= -> -> -> -> -> ->].
Qed.

(** X10: two tickets created within the same second get the same number;
    the second is written over the first, so that the directory is as if
    only the second had been created, and [get_ticket] with the number of
    the first returns the second. *)
Theorem ticket_overwritten_within_a_second T FS C1 C2 alert1 alert2
    investigation1 investigation2 severity1 severity2 dir dir1 dir2 t1 t2 :
  same_second (number_time C1) (number_time C2) ->
  create_servicenow_ticket T FS C1 alert1 investigation1 severity1 dir =
    (dir1, Return t1) ->
  create_servicenow_ticket T FS C2 alert2 investigation2 severity2 dir1 =
    (dir2, Return t2) ->
  ServiceNowTicket.ticket_number t1 = ServiceNowTicket.ticket_number t2 /\
  dir2 = store_of T [t2] dir /\
  get_ticket (ServiceNowTicket.ticket_number t1) dir2 = Return (TicketData t2).
Proof.
  intros Hsame%same_second_number Hfirst Hsecond.
  apply create_ticket_success in Hfirst as [Hn1 ->].
  apply create_ticket_success in Hsecond as [Hn2 ->].
  assert (ServiceNowTicket.ticket_number t1 = ServiceNowTicket.ticket_number t2)
    as Hnumber by congruence.
  split; [done|]. split.
  - unfold store_of; simpl. unfold ticket_file, ticket_text_file. rewrite Hnumber.
    apply map_eq. intros name.
    rewrite !lookup_insert. by repeat case_decide.
  - rewrite Hnumber. apply get_ticket_stored.
Qed.

Lemma ticket_overwritten_within_a_second_witness :
  exists t1 t2,
    ServiceNowTicket.priority t1 = "P1" /\ ServiceNowTicket.priority t2 = "P2" /\
    get_ticket (ServiceNowTicket.ticket_number t1)
      (create_tickets sample_text reliable_fs [sample_request 2; burst_request]
         no_tickets).1 = Return (TicketData t2).
Proof.
  destruct (create_servicenow_ticket sample_text reliable_fs
              (request_clock (sample_request 2)) (request_alert (sample_request 2))
              (request_investigation (sample_request 2))
              (request_severity (sample_request 2)) no_tickets)
    as [dir1 r1] eqn:Hfirst.
  destruct (create_servicenow_ticket sample_text reliable_fs
              (request_clock burst_request) (request_alert burst_request)
              (request_investigation burst_request)
              (request_severity burst_request) dir1)
    as [dir2 r2] eqn:Hsecond.
  vm_compute in Hfirst. injection Hfirst as <- <-.
  vm_compute in Hsecond. injection Hsecond as <- <-.
  eexists _, _. split; [|split]; cycle 2.
  - refine (proj2 (proj2 (ticket_overwritten_within_a_second sample_text reliable_fs
                            (request_clock (sample_request 2))
                            (request_clock burst_request)
                            (request_alert (sample_request 2))
                            (request_alert burst_request)
                            (request_investigation (sample_request 2))
                            (request_investigation burst_request)
                            (request_severity (sample_request 2))
                            (request_severity burst_request)
                            no_tickets _ _ _ _ _ _ _))).
    + reflexivity.
    + vm_compute. reflexivity.
    + vm_compute. reflexivity.
  - reflexivity.
  - reflexivity.
Defined.
Lemma store_of_size T tickets :
  StronglySorted numbered_before tickets ->
  size (store_of T tickets ∅) = 2 * length tickets.
Proof.
  induction tickets as [|t tickets IH] using rev_ind; intros Hsorted; [done|].
  apply StronglySorted_app in Hsorted as (Hbefore & Hsorted & _).
  rewrite store_of_app, length_app. unfold store_of at 1. simpl.
  assert (forall name, (name = ticket_file t \/ name = ticket_text_file t) ->
            store_of T tickets ∅ !! name = None) as Hfresh.
  { intros name Hname. apply eq_None_not_Some.
    intros [[? Hempty] | (t' & Hin & Hname')]%store_of_names.
    - by rewrite lookup_empty in Hempty.
    - specialize (Hbefore t' t Hin ltac:(left)).
      destruct Hname as [-> | ->], Hname' as [Heq | Heq];
        symmetry in Heq; by apply (compare_lt_ne _ _ (Hbefore _ _)) in Heq. }
  rewrite map_size_insert_None.
  - rewrite map_size_insert_None by (apply Hfresh; by left). rewrite IH by done. lia.
  - rewrite lookup_insert_ne by (apply not_eq_sym, ticket_files_differ).
    apply Hfresh. by right.
Qed.

Lemma list_tickets_empty limit :
  list_tickets limit no_tickets = {| count := 0; tickets := [] |}.
Proof.
  unfold list_tickets, glob_json, no_tickets. rewrite map_to_list_empty.
  change (sorted_reverse _) with (@nil string).
  unfold slice_to. by destruct (0 <=? default 50%Z limit)%Z; rewrite take_nil.
Qed.

(** X11: [clear_tickets] counts files, not tickets: after tickets were
    created from the empty directory, each in a later second than the one
    before, it reports twice their number (each has a JSON and a text
    file).  Afterwards the listing is empty and every [get_ticket] raises
    the not-found error. *)
Theorem clear_tickets_counts_every_file T FS requests dir created :
  create_tickets T FS requests no_tickets = (dir, Return created) ->
  Forall datetime.valid (number_times requests) ->
  Sorted datetime.earlier_second (number_times requests) ->
  clear_tickets dir = (no_tickets, 2 * length requests) /\
  (forall limit,
     list_tickets limit (clear_tickets dir).1 = {| count := 0; tickets := [] |}) /\
  (forall number,
     get_ticket number (clear_tickets dir).1 =
       Raise (Exc "HTTPException" ("Ticket " +:+ number +:+ " not found"))).
Proof.
  intros Hcreate Hvalid Hordered.
  apply create_tickets_success in Hcreate as [Hnumbers ->].
  assert (StronglySorted numbered_before created) as Hsorted
    by by apply (numbered_in_order_sorted created (number_times requests)).
  assert (length created = length requests) as Hlength.
  { apply (f_equal length) in Hnumbers. unfold number_times in Hnumbers.
    by rewrite !length_map in Hnumbers. }
  split; [|split].
  - unfold clear_tickets, no_tickets.
    by rewrite length_map_to_list, store_of_size, Hlength.
  - intros limit. apply list_tickets_empty.
  - intros number. unfold clear_tickets, get_ticket. simpl.
    by rewrite lookup_empty.
Qed.

Lemma clear_tickets_counts_every_file_witness :
  clear_tickets (create_tickets sample_text reliable_fs spaced_requests no_tickets).1 =
    (no_tickets, 6).
Proof.
  refine (proj1 (clear_tickets_counts_every_file sample_text reliable_fs spaced_requests
                   (create_tickets sample_text reliable_fs spaced_requests no_tickets).1
                   [sample_ticket 1; sample_ticket 2; sample_ticket 3] _ _ _)).
  - vm_compute. reflexivity.
  - repeat constructor; simpl; lia.
  - repeat constructor; apply earlier_second_spec; simpl; lia.
Defined.

(** The loop of [list_tickets]: the files that [json.loads] reads, in the
    order of the names. *)
Lemma read_loop_spec dir names acc :
  foldl (fun tickets ticket_file =>
           match read_json dir ticket_file with
           | Return ticket_data => tickets ++ [ticket_data]
           | Raise e => tickets
           end) acc names =
  acc ++ omap (fun name => match read_json dir name with
                           | Return ticket_data => Some ticket_data
                           | Raise _ => None
                           end) names.
Proof.
  revert acc. induction names as [|name names IH]; intros acc; simpl.
  { by rewrite app_nil_r. }
  rewrite IH. destruct (read_json dir name) as [ticket_data|e]; [|done].
  by rewrite <- app_assoc.
Qed.

Lemma length_omap_le {A B : Type} (f : A -> option B) (l : list A) :
  length (omap f l) <= length l.
Proof.
  induction l as [|a l IH]; [done|].
  change (omap f (a :: l)) with (match f a with
                                 | Some b => b :: omap f l
                                 | None => omap f l
                                 end).
  destruct (f a); simpl; lia.
Qed.

Lemma length_slice_to {A : Type} (stop : Z) (l : list A) :
  length (slice_to stop l) <= length l /\
  ((0 <= stop)%Z -> length (slice_to stop l) <= Z.to_nat stop) /\
  ((stop < 0)%Z -> length (slice_to stop l) = length l - Z.to_nat (- stop)).
Proof.
  unfold slice_to. destruct (Z.leb_spec 0 stop); rewrite length_take; lia.
Qed.

(** X12: for any directory and any limit, the [count] of [list_tickets] is
    the length of its [tickets]; it is at most the number of JSON files
    and, for a limit that is not negative, at most the limit; a negative
    limit leaves out that many files.  What is listed is what [json.loads]
    gives for the [.json] files taken, in their order: a file is left out
    only when reading it raises, so a [.json] file that holds another JSON
    value than a ticket is listed as it is.  In [mixed_directory] the
    file with [{}] is listed and the file that holds no JSON is not. *)
Theorem list_tickets_bounds limit dir :
  count (list_tickets limit dir) = length (tickets (list_tickets limit dir)) /\
  count (list_tickets limit dir) <= length (glob_json dir) /\
  ((0 <= default 50%Z limit)%Z ->
   count (list_tickets limit dir) <= Z.to_nat (default 50%Z limit)) /\
  ((default 50%Z limit < 0)%Z ->
   count (list_tickets limit dir) <=
     length (glob_json dir) - Z.to_nat (- default 50%Z limit)) /\
  tickets (list_tickets limit dir) =
    omap (fun name => match read_json dir name with
                      | Return ticket_data => Some ticket_data
                      | Raise _ => None
                      end)
      (slice_to (default 50%Z limit) (sorted_reverse (glob_json dir))) /\
  (forall item, item ∈ tickets (list_tickets limit dir) ->
     exists name, endswith name ".json" = true /\ read_json dir name = Return item) /\
  list_tickets None mixed_directory = {| count := 1; tickets := [OtherData "{}"] |}.
Proof.
  unfold list_tickets at 1 2 3 4 5 6 7 8. cbn [count tickets].
  set (names := slice_to (default 50%Z limit) (sorted_reverse (glob_json dir))).
  rewrite read_loop_spec. cbn [app].
  set (read := fun name => match read_json dir name with
                           | Return ticket_data => Some ticket_data
                           | Raise _ => None
                           end).
  pose proof (length_omap_le read names) as Hlength.
  destruct (length_slice_to (default 50%Z limit) (sorted_reverse (glob_json dir)))
    as (Hall & Hlimit & Hnegative).
  fold names in Hall, Hlimit, Hnegative.
  assert (length (sorted_reverse (glob_json dir)) = length (glob_json dir)) as Hsorted.
  { apply Permutation_length, merge_sort_Permutation. }
  rewrite Hsorted in Hall, Hnegative.
  split; [done|]. split; [lia|]. split; [intros H; specialize (Hlimit H); lia|].
  split; [intros H; specialize (Hnegative H); lia|].
  split; [done|]. split; [|by vm_compute].
  intros item Hitem. apply list_elem_of_omap in Hitem as (name & Hname & Hread).
  exists name. split.
  - apply slice_to_subseteq in Hname. unfold sorted_reverse in Hname.
    rewrite merge_sort_Permutation in Hname.
    unfold glob_json in Hname. apply list_elem_of_filter in Hname as [Hjson _].
    by apply Is_true_true in Hjson.
  - unfold read in Hread. by destruct (read_json dir name); simplify_eq.
Qed.
(** ** MCP client: retries *)

Lemma connect_attempt_connects Srv self w :
  connect_outcome_at Srv (attempts_started w) = Connects ->
  exists w',
    connect_attempt Srv (self, w) =
      ((connected_by (attempts_started w) (_max_retries self), w'), Return tt) /\
    attempts_started w' = S (attempts_started w) /\
    calls_made w' = calls_made w /\
    cache w' = cache w /\
    trace w' = trace w ++ connected_trace (attempts_started w).
Proof.
  intros Hok. unfold connect_attempt. rewrite Hok.
  eexists. split; [reflexivity|]. simpl. by rewrite <- app_assoc.
Qed.

Lemma connect_loop_succeeds Srv k :
  forall fuel self w last_error,
    (forall i, i < k ->
       is_Some (attempt_error (connect_outcome_at Srv (attempts_started w + i)))) ->
    connect_outcome_at Srv (attempts_started w + k) = Connects ->
    _connection_attempts self + k < _max_retries self ->
    k < fuel ->
    exists w',
      connect_loop Srv fuel last_error (self, w) =
        ((connected_by (attempts_started w + k) (_max_retries self), w'), Return tt) /\
      attempts_started w' = attempts_started w + S k /\
      calls_made w' = calls_made w /\
      cache w' = cache w /\
      trace w' =
        trace w ++ failed_attempts_trace Srv (attempts_started w) k ++
        connected_trace (attempts_started w + k).
Proof.
  induction k as [|k IH]; intros fuel self w last_error Hfail Hok Hroom Hfuel;
    (destruct fuel as [|fuel]; [lia|]); cbn [connect_loop];
    (destruct (Nat.ltb_spec (_connection_attempts self) (_max_retries self)); [|lia]).
  - rewrite Nat.add_0_r in *.
    destruct (connect_attempt_connects Srv self w Hok)
      as (w' & -> & Hn & Hcalls & Hcache & Htrace).
    exists w'. repeat split; try done; lia.
  - destruct (Hfail 0 ltac:(lia)) as [e He]. rewrite Nat.add_0_r in He.
    destruct (connect_iteration_fails Srv self w e He)
      as (st & w1 & Hattempt & Hhandler & Hn & Hcalls & Hcache & Htrace).
    rewrite Hattempt, Hhandler; cbn [_max_retries _connection_attempts].
    destruct (Nat.leb_spec (_max_retries self) (_connection_attempts self + 1)); [lia|].
    destruct (IH fuel (mk_client None None (_connection_attempts self + 1)
                         (_max_retries self)) w1 (Some e))
      as (w' & Hloop & Hn' & Hcalls' & Hcache' & Htrace').
    + intros i Hi. rewrite Hn.
      replace (S (attempts_started w) + i) with (attempts_started w + S i) by lia.
      apply Hfail. lia.
    + rewrite Hn. by replace (S (attempts_started w) + k) with (attempts_started w + S k) by lia.
    + simpl. lia.
    + lia.
    + exists w'. simpl in Hloop. rewrite Hloop, Hn.
      replace (S (attempts_started w) + k) with (attempts_started w + S k) by lia.
      rewrite Hn in Hn', Htrace'.
      replace (S (attempts_started w) + k) with (attempts_started w + S k) in Htrace' by lia.
      repeat split; try done; try lia; try congruence.
      rewrite Htrace', Htrace. unfold failed_attempts_trace.
      cbn [seq map concat]. by rewrite <- !app_assoc.
Qed.

Lemma connected_trace_open n :
  open_resources (connected_trace n) [] = [ClientSession n; Transport n].
Proof. done. Qed.

(** X13: [connect] retries.  When the first [k] attempts fail and the next
    one succeeds, with [k] below what the counter leaves room for, it
    returns normally after [k + 1] attempts, connected by the last one and
    with the counter back at 0.  Every context of a failed attempt was left
    before the next attempt; the two contexts of the last attempt are the
    only ones open. *)
Theorem connect_retries_until_success Srv self w k :
  session self = None ->
  _connection_attempts self + k < _max_retries self ->
  (forall i, i < k ->
     is_Some (attempt_error (connect_outcome_at Srv (attempts_started w + i)))) ->
  connect_outcome_at Srv (attempts_started w + k) = Connects ->
  exists w',
    connect Srv (self, w) =
      ((connected_by (attempts_started w + k) (_max_retries self), w'), Return tt) /\
    attempts_started w' = attempts_started w + S k /\
    trace w' =
      trace w ++ failed_attempts_trace Srv (attempts_started w) k ++
      connected_trace (attempts_started w + k) /\
    open_resources
      (failed_attempts_trace Srv (attempts_started w) k ++
       connected_trace (attempts_started w + k)) [] =
      [ClientSession (attempts_started w + k); Transport (attempts_started w + k)].
Proof.
  intros Hsession Hroom Hfail Hok. unfold connect. rewrite Hsession.
  destruct (connect_loop_succeeds Srv k
              (_max_retries self - _connection_attempts self) self w None)
    as (w' & -> & Hn & _ & _ & Htrace); try done; [lia|].
  exists w'. repeat split; try done.
  rewrite open_resources_app, failed_attempts_leave_nothing_open.
  apply connected_trace_open.
Qed.

Lemma connect_retries_until_success_witness :
  exists w',
    connect recovering_server (new_client, fresh_world) =
      ((connected_by 2 3, w'), Return tt) /\
    attempts_started w' = 3 /\
    trace w' =
      [Acquire (Transport 0); Release (Transport 0);
       Acquire (Transport 1); Release (Transport 1);
       Acquire (Transport 2); Acquire (ClientSession 2)].
Proof.
  destruct (connect_retries_until_success recovering_server new_client fresh_world 2)
    as (w' & Hconnect & Hn & Htrace & _).
  - reflexivity.
  - simpl. lia.
  - intros [|[|i]] Hi; [by eexists | by eexists | lia].
  - reflexivity.
  - exists w'. split; [exact Hconnect|]. split; [exact Hn | exact Htrace].
Defined.
Lemma connect_attempt_cases Srv (w : world) :
  (connect_outcome_at Srv (attempts_started w) = Connects) \/
  (exists e, attempt_error (connect_outcome_at Srv (attempts_started w)) = Some e).
Proof. destruct (connect_outcome_at Srv (attempts_started w)); eauto. Qed.

(** Every run of the loop of [connect] that starts below the retry bound:
    it ends connected by one of the attempts the counter left room for, or
    it raises after the last of them. *)
Lemma connect_loop_outcomes Srv fuel :
  forall last_error self w,
    _connection_attempts self < _max_retries self ->
    _max_retries self - _connection_attempts self <= fuel ->
    exists self' w' r,
      connect_loop Srv fuel last_error (self, w) = ((self', w'), r) /\
      attempts_started w < attempts_started w' <=
        attempts_started w + (_max_retries self - _connection_attempts self) /\
      match r with
      | Return _ =>
          connect_outcome_at Srv (attempts_started w' - 1) = Connects /\
          self' = connected_by (attempts_started w' - 1) (_max_retries self)
      | Raise e =>
          attempts_started w' =
            attempts_started w + (_max_retries self - _connection_attempts self) /\
          self' = mk_client None None (_max_retries self) (_max_retries self) /\
          exists cause,
            attempt_error (connect_outcome_at Srv (attempts_started w' - 1)) = Some cause /\
            e = connect_error (_max_retries self) cause
      end.
Proof.
  induction fuel as [|fuel IH]; intros last_error self w Hroom Hfuel; [lia|].
  cbn [connect_loop].
  destruct (Nat.ltb_spec (_connection_attempts self) (_max_retries self)); [|lia].
  destruct (connect_attempt_cases Srv w) as [Hok | [e He]].
  - destruct (connect_attempt_connects Srv self w Hok)
      as (w' & -> & Hn & _ & _ & _).
    exists (connected_by (attempts_started w) (_max_retries self)), w', (Return tt).
    split; [done|]. rewrite Hn. split; [lia|].
    replace (S (attempts_started w) - 1) with (attempts_started w) by lia. done.
  - destruct (connect_iteration_fails Srv self w e He)
      as (st & w1 & Hattempt & Hhandler & Hn & _ & _ & _).
    rewrite Hattempt, Hhandler; cbn [_max_retries _connection_attempts].
    destruct (Nat.leb_spec (_max_retries self) (_connection_attempts self + 1)).
    + eexists _, _, _. split; [reflexivity|]. rewrite Hn. split; [lia|].
      split; [lia|]. split; [f_equal; lia|].
      exists e. replace (S (attempts_started w) - 1) with (attempts_started w) by lia.
      done.
    + destruct (IH (Some e) (mk_client None None (_connection_attempts self + 1)
                               (_max_retries self)) w1)
        as (self' & w' & r & Hloop & Hbound & Hr); [simpl; lia | simpl; lia |].
      simpl in Hloop, Hbound, Hr.
      exists self', w', r. split; [exact Hloop|]. rewrite Hn in Hbound.
      split; [lia|]. destruct r as [[]|e']; [done|].
      destruct Hr as (Hn' & -> & Hcause). split; [lia | done].
Qed.

(** X14: every outcome of [connect] on a client without a session, for any
    server.  It makes no remote call, leaves the cache alone, and starts
    at most as many attempts as the counter leaves room for.  If it
    returns, either there was no room (nothing was attempted and nothing
    changed) or the last attempt succeeded and the client is connected by
    it with the counter at 0.  If it raises, all the attempts were made,
    session and stack are [None], the counter is at the bound, and the
    exception wraps the failure of the last attempt. *)
Theorem connect_outcomes Srv self w :
  session self = None ->
  exists self' w' r,
    connect Srv (self, w) = ((self', w'), r) /\
    attempts_started w' <=
      attempts_started w + (_max_retries self - _connection_attempts self) /\
    calls_made w' = calls_made w /\ cache w' = cache w /\
    match r with
    | Return _ =>
        (_max_retries self <= _connection_attempts self /\ self' = self /\ w' = w) \/
        (_connection_attempts self < _max_retries self /\
         attempts_started w < attempts_started w' /\
         connect_outcome_at Srv (attempts_started w' - 1) = Connects /\
         self' = connected_by (attempts_started w' - 1) (_max_retries self))
    | Raise e =>
        _connection_attempts self < _max_retries self /\
        attempts_started w' =
          attempts_started w + (_max_retries self - _connection_attempts self) /\
        self' = mk_client None None (_max_retries self) (_max_retries self) /\
        exists cause,
          attempt_error (connect_outcome_at Srv (attempts_started w' - 1)) = Some cause /\
          e = connect_error (_max_retries self) cause
    end.
Proof.
  intros Hsession.
  pose proof (connect_loop_same_calls Srv
                (_max_retries self - _connection_attempts self) None self w)
    as [Hcache Hcalls].
  unfold connect. rewrite Hsession.
  destruct (Nat.lt_ge_cases (_connection_attempts self) (_max_retries self))
    as [Hroom | Hnone].
  - destruct (connect_loop_outcomes Srv
                (_max_retries self - _connection_attempts self) None self w Hroom)
      as (self' & w' & r & Hloop & Hbound & Hr); [done|].
    rewrite Hloop in Hcache, Hcalls. simpl in Hcache, Hcalls.
    exists self', w', r. split; [exact Hloop|]. split; [lia|].
    split; [done|]. split; [done|].
    destruct r as [[]|e].
    + right. destruct Hr. repeat split; try done; lia.
    + destruct Hr as (? & ? & ?). done.
  - exists self, w, (Return tt). split.
    + replace (_max_retries self - _connection_attempts self) with 0 by lia.
      cbn [connect_loop].
      by destruct (Nat.ltb_spec (_connection_attempts self) (_max_retries self)); [lia|].
    + split; [lia|]. split; [done|]. split; [done|]. left. done.
Qed.

Lemma connect_outcomes_witness :
  exists self' w' r,
    connect sticky_server (new_client, fresh_world) = ((self', w'), r) /\
    attempts_started w' <= 3 /\ calls_made w' = 0.
Proof.
  destruct (connect_outcomes sticky_server new_client fresh_world eq_refl)
    as (self' & w' & r & Hconnect & Hbound & Hcalls & _).
  exists self', w', r. split; [exact Hconnect|]. split; [exact Hbound | exact Hcalls].
Defined.
(** ** MCP client: the context manager *)

(** X15: [async with MCPClient(...)] on a server that accepts the
    connection and whose contexts close quietly: [__aenter__] returns the
    client, connected; [__aexit__] returns it to the state of a new client;
    transport and session were entered in this order and left in the
    reverse order, and nothing stays open. *)
Theorem context_manager_round_trip Srv w :
  connect_outcome_at Srv (attempts_started w) = Connects ->
  (forall r, release_error Srv r = None) ->
  exists w1 w2,
    __aenter__ Srv (new_client, w) =
      ((connected_by (attempts_started w) 3, w1),
       Return (connected_by (attempts_started w) 3)) /\
    __aexit__ Srv (connected_by (attempts_started w) 3, w1) =
      ((new_client, w2), Return tt) /\
    trace w2 =
      trace w ++
      [Acquire (Transport (attempts_started w));
       Acquire (ClientSession (attempts_started w));
       Release (ClientSession (attempts_started w));
       Release (Transport (attempts_started w))] /\
    open_resources
      [Acquire (Transport (attempts_started w));
       Acquire (ClientSession (attempts_started w));
       Release (ClientSession (attempts_started w));
       Release (Transport (attempts_started w))] [] = [].
Proof.
  intros Hok Hquiet.
  destruct (connect_first_try Srv w Hok) as (w1 & Hconnect & Htrace1).
  destruct (disconnect_clean Srv (connected_by (attempts_started w) 3) w1
              [ClientSession (attempts_started w); Transport (attempts_started w)]
              eq_refl)
    as (w2 & Hdisconnect & Htrace2).
  { apply Forall_forall. intros r _. apply Hquiet. }
  exists w1, w2. split; [|split; [|split]].
  - unfold __aenter__, bind. by rewrite Hconnect.
  - exact Hdisconnect.
  - rewrite Htrace2, Htrace1. by rewrite <- app_assoc.
  - apply (failed_attempt_leaves_nothing_open
             (InitializeRaises (Exc "" "")) (attempts_started w)).
Qed.

Lemma context_manager_round_trip_witness :
  exists w1 w2,
    __aenter__ flaky_server (new_client, fresh_world) =
      ((connected_by 0 3, w1), Return (connected_by 0 3)) /\
    __aexit__ flaky_server (connected_by 0 3, w1) = ((new_client, w2), Return tt) /\
    trace w2 =
      [Acquire (Transport 0); Acquire (ClientSession 0);
       Release (ClientSession 0); Release (Transport 0)].
Proof.
  destruct (context_manager_round_trip flaky_server fresh_world eq_refl
              (fun r => eq_refl))
    as (w1 & w2 & Henter & Hexit & Htrace & _).
  exists w1, w2. split; [exact Henter|]. split; [exact Hexit | exact Htrace].
Defined.

(** ** MCP client: after the retries are used up *)

Lemma connect_exhausted Srv self w :
  exhausted self -> connect Srv (self, w) = ((self, w), Return tt).
Proof.
  intros (Hsession & _ & Hcount). unfold connect. rewrite Hsession.
  replace (_max_retries self - _connection_attempts self) with 0 by lia.
  cbn [connect_loop].
  by destruct (Nat.ltb_spec (_connection_attempts self) (_max_retries self)); [lia|].
Qed.

(** X16: a client whose retries are used up stays so.  [connect],
    [disconnect] and [ensure_connected] return normally and leave it as it
    is; [invoke_tool], on a cache miss, makes no connection attempt and no
    remote call and raises the invocation error caused by the
    [AttributeError] of the missing session. *)
Theorem exhausted_client_is_stuck Srv self w name arguments :
  exhausted self ->
  connect Srv (self, w) = ((self, w), Return tt) /\
  disconnect Srv (self, w) = ((self, w), Return tt) /\
  ensure_connected Srv (self, w) =
    ((self, add_log "warning" "Connection lost, attempting to reconnect" w),
     Return tt) /\
  (cache_get (cache w) name arguments = None ->
   exists w',
     invoke_tool Srv name arguments (self, w) =
       ((self, w'), Raise (invocation_error name no_session_error)) /\
     attempts_started w' = attempts_started w /\
     calls_made w' = calls_made w /\
     trace w' = trace w /\
     cache w' = cache w).
Proof.
  intros Hexhausted. pose proof Hexhausted as (Hsession & Hstack & Hcount).
  split; [by apply connect_exhausted|].
  split; [by apply disconnect_without_stack|].
  assert (ensure_connected Srv (self, w) =
            ((self, add_log "warning" "Connection lost, attempting to reconnect" w),
             Return tt)) as Hensure.
  { unfold ensure_connected. rewrite Hsession. by apply connect_exhausted. }
  split; [exact Hensure|].
  intros Hmiss. unfold invoke_tool. rewrite Hmiss.
  unfold try_except, bind, modify, raise. rewrite Hensure.
  unfold call_tool. rewrite Hsession. simpl.
  eexists. split; [reflexivity|]. done.
Qed.

Lemma exhausted_client_is_stuck_witness :
  exists w',
    invoke_tool flaky_server "prometheus_query" query_arguments
      (mk_client None None 3 3, fresh_world) =
      ((mk_client None None 3 3, w'),
       Raise (invocation_error "prometheus_query" no_session_error)) /\
    attempts_started w' = 0 /\ calls_made w' = 0.
Proof.
  destruct (exhausted_client_is_stuck flaky_server (mk_client None None 3 3)
              fresh_world "prometheus_query" query_arguments)
    as (_ & _ & _ & Hinvoke).
  - repeat split. simpl. lia.
  - destruct (Hinvoke ltac:(vm_compute; reflexivity))
      as (w' & Hcall & Hattempts & Hcalls & _).
    exists w'. split; [exact Hcall|]. split; [exact Hattempts | exact Hcalls].
Defined.

(** ** MCP client: [disconnect] twice *)

(** X17: two calls of [disconnect] always disconnect a client that holds
    an exit stack: whether or not leaving a context raises in the first
    call, after the second the session and the stack are [None] and the
    counter is 0, and each context was left exactly once. *)
Theorem second_disconnect_completes_cleanup Srv self w stack :
  _exit_stack self = Some stack ->
  exists self1 w1 w2,
    disconnect Srv (self, w) = ((self1, w1), Return tt) /\
    disconnect Srv (self1, w1) =
      ((mk_client None None 0 (_max_retries self), w2), Return tt) /\
    trace w2 = trace w ++ map Release stack.
Proof.
  intros Hstack. unfold disconnect at 1. unfold try_except, modify.
  rewrite Hstack, aexit_spec.
  destruct (teardown_error Srv stack None) as [e|]; simpl.
  - eexists _, _, _. split; [reflexivity|].
    unfold disconnect, try_except. simpl. split; reflexivity.
  - eexists _, _, _. split; [reflexivity|].
    rewrite disconnect_without_stack by done. split; reflexivity.
Qed.

Lemma second_disconnect_completes_cleanup_witness :
  exists self1 w1 w2,
    disconnect sticky_server (connected_client, fresh_world) =
      ((self1, w1), Return tt) /\
    disconnect sticky_server (self1, w1) = ((new_client, w2), Return tt) /\
    trace w2 = [Release (ClientSession 0); Release (Transport 0)].
Proof.
  apply (second_disconnect_completes_cleanup sticky_server connected_client
           fresh_world [ClientSession 0; Transport 0]).
  reflexivity.
Defined.
(** ** MCP client: [invoke_tool] on a miss *)

(** X18: a response without content is not cached.  [invoke_tool] then
    returns the error dictionary after one remote call, with the cache as
    it was, and the same invocation again makes another remote call. *)
Theorem invoke_tool_no_content_not_cached Srv name arguments self w n :
  session self = Some n ->
  cache_get (cache w) name arguments = None ->
  call_tool_at Srv (calls_made w) name arguments = Return None ->
  exists w1,
    invoke_tool Srv name arguments (self, w) =
      ((self, w1), Return (ToolError ("No response from tool " +:+ name))) /\
    cache w1 = cache w /\
    calls_made w1 = S (calls_made w) /\
    trace w1 = trace w ++ [CallTool name arguments] /\
    calls_made (invoke_tool Srv name arguments (self, w1)).1.2 = S (S (calls_made w)).
Proof.
  intros Hsession Hmiss Hanswer. unfold invoke_tool at 1. rewrite Hmiss.
  unfold try_except, bind, modify, ret.
  rewrite (ensure_connected_connected Srv self w n Hsession).
  unfold call_tool. rewrite Hsession. simpl. rewrite Hanswer. simpl.
  eexists. split; [reflexivity|]. simpl. repeat split.
  unfold invoke_tool. cbn [cache add_log add_event count_call]. rewrite Hmiss.
  unfold try_except, bind, modify, ret, raise.
  rewrite (ensure_connected_connected Srv self _ n Hsession).
  unfold call_tool. rewrite Hsession. simpl.
  by destruct (call_tool_at Srv (S (calls_made w)) name arguments) as [[v|]|e].
Qed.

Lemma invoke_tool_no_content_not_cached_witness :
  exists w1,
    invoke_tool silent_server "prometheus_query" query_arguments
      (connected_client, fresh_world) =
      ((connected_client, w1),
       Return (ToolError "No response from tool prometheus_query")) /\
    cache w1 = cache fresh_world /\
    calls_made w1 = 1 /\
    trace w1 = [CallTool "prometheus_query" query_arguments] /\
    calls_made (invoke_tool silent_server "prometheus_query" query_arguments
                  (connected_client, w1)).1.2 = 2.
Proof.
  apply (invoke_tool_no_content_not_cached silent_server "prometheus_query"
           query_arguments connected_client fresh_world 0).
  - reflexivity.
  - vm_compute. reflexivity.
  - reflexivity.
Defined.

(** X19: [invoke_tool] connects on demand.  On a client without a session,
    with room to retry and a server that accepts the connection, a cache
    miss makes it connect, call the tool once, cache the content and
    return it. *)
Theorem invoke_tool_connects_first Srv name arguments self w v :
  session self = None ->
  _connection_attempts self < _max_retries self ->
  connect_outcome_at Srv (attempts_started w) = Connects ->
  cache_get (cache w) name arguments = None ->
  call_tool_at Srv (calls_made w) name arguments = Return (Some v) ->
  exists w1,
    invoke_tool Srv name arguments (self, w) =
      ((connected_by (attempts_started w) (_max_retries self), w1),
       Return (ToolContent v)) /\
    attempts_started w1 = S (attempts_started w) /\
    calls_made w1 = S (calls_made w) /\
    cache_get (cache w1) name arguments = Some v /\
    trace w1 =
      trace w ++ connected_trace (attempts_started w) ++ [CallTool name arguments].
Proof.
  intros Hsession Hroom Hok Hmiss Hanswer. unfold invoke_tool. rewrite Hmiss.
  unfold try_except, bind, modify, ret.
  unfold ensure_connected, connect. rewrite Hsession. cbn [session add_log].
  destruct (connect_loop_succeeds Srv 0
              (_max_retries self - _connection_attempts self) self
              (add_log "warning" "Connection lost, attempting to reconnect" w) None)
    as (w' & Hloop & Hn & Hcalls & Hcache & Htrace).
  - intros i Hi. lia.
  - simpl. by rewrite Nat.add_0_r.
  - lia.
  - lia.
  - rewrite Hloop. cbn [attempts_started add_log] in *. rewrite Nat.add_0_r in *.
    unfold call_tool. cbn [session connected_by]. cbn [calls_made add_log] in *.
    rewrite Hcalls, Hanswer.
    eexists. split; [reflexivity|]. simpl.
    split; [lia|]. split; [by rewrite Hcalls|]. split; [apply cache_get_set|].
    rewrite Htrace. simpl. by rewrite <- app_assoc.
Qed.

Lemma invoke_tool_connects_first_witness :
  exists w1,
    invoke_tool flaky_server "prometheus_query" query_arguments
      (new_client, fresh_world) =
      ((connected_by 0 3, w1), Return (ToolContent ["result of prometheus_query"])) /\
    attempts_started w1 = 1 /\
    calls_made w1 = 1.
Proof.
  destruct (invoke_tool_connects_first flaky_server "prometheus_query" query_arguments
              new_client fresh_world ["result of prometheus_query"])
    as (w1 & Hcall & Hattempts & Hcalls & _).
  - reflexivity.
  - simpl. lia.
  - reflexivity.
  - vm_compute. reflexivity.
  - reflexivity.
  - exists w1. split; [exact Hcall|]. split; [exact Hattempts | exact Hcalls].
Defined.

(** X20: when on a cache miss the connection of a new client fails three
    times, [invoke_tool] raises the invocation error whose cause is the
    connection error, whose cause is the failure of the third attempt.  No
    remote call was made, the cache is as before, no context is left to
    close, and the client is left with its retries used up. *)
Theorem invoke_tool_wraps_connect_failure Srv name arguments w :
  every_attempt_fails Srv ->
  cache_get (cache w) name arguments = None ->
  exists w1 e,
    invoke_tool Srv name arguments (new_client, w) =
      ((mk_client None None 3 3, w1),
       Raise (invocation_error name (connect_error 3 e))) /\
    attempt_error (connect_outcome_at Srv (attempts_started w + 2)) = Some e /\
    exn_cause (invocation_error name (connect_error 3 e)) = Some (connect_error 3 e) /\
    exn_cause (connect_error 3 e) = Some e /\
    attempts_started w1 = attempts_started w + 3 /\
    calls_made w1 = calls_made w /\
    cache w1 = cache w /\
    trace w1 = trace w ++ failed_attempts_trace Srv (attempts_started w) 3 /\
    open_resources (failed_attempts_trace Srv (attempts_started w) 3) [] = [] /\
    exhausted (mk_client None None 3 3).
Proof.
  intros Hfail Hmiss. unfold invoke_tool. rewrite Hmiss.
  unfold try_except, bind, modify, raise.
  unfold ensure_connected, connect. cbn [session new_client].
  destruct (connect_loop_exhausts Srv 2 Hfail 3 new_client
              (add_log "warning" "Connection lost, attempting to reconnect" w) None)
    as (w' & e & Hloop & He & Hn & Hcalls & Hcache & Htrace); [done | done |].
  change (_max_retries new_client - _connection_attempts new_client) with 3.
  cbn [_max_retries new_client] in Hloop. rewrite Hloop.
  exists (add_log "error"
            ("Tool invocation failed: " +:+ exn_str (connect_error 3 e)) w'), e.
  split; [reflexivity|]. cbn [attempts_started calls_made cache trace add_log] in *.
  repeat split; try done. apply failed_attempts_leave_nothing_open.
Qed.

Lemma invoke_tool_wraps_connect_failure_witness :
  exists w1 e,
    invoke_tool refusing_server "prometheus_query" query_arguments
      (new_client, fresh_world) =
      ((mk_client None None 3 3, w1),
       Raise (invocation_error "prometheus_query" (connect_error 3 e))) /\
    attempts_started w1 = 3 /\
    calls_made w1 = 0.
Proof.
  destruct (invoke_tool_wraps_connect_failure refusing_server "prometheus_query"
              query_arguments fresh_world)
    as (w1 & e & Hcall & _ & _ & _ & Hattempts & Hcalls & _).
  - intros n. simpl. by eexists.
  - vm_compute. reflexivity.
  - exists w1, e. split; [exact Hcall|]. split; [exact Hattempts | exact Hcalls].
Defined.
(** ** Confidence: two decimals *)

(** The doubles nearest to the hundredths from 0 to 100 are numbers: each
    equals itself. *)
Lemma round2_hundredths (c : float) :
  not_negative (Prim2SF c) -> ((c <? 1)%float = true \/ c = 1%float) ->
  exists h : Z,
    (0 <= h <= 100)%Z /\
    (round2 c =? of_uint63 (Uint63.of_Z h) / 100)%float = true.
Proof.
  intros Hsign [Hlt | ->]; [|exists 100%Z; split; [lia | by vm_compute]].
  destruct (below_one c Hsign Hlt) as [[s Hzero] | (m & e & Hfinite & He & Hm)].
  - exists 0%Z. split; [lia|]. unfold round2. rewrite Hzero.
    rewrite FloatAxioms.eqb_spec, Hzero. by destruct s.
  - exists (round_half_even (100 * Z.pos m) (2 ^ (- e))).
    assert (0 <= round_half_even (100 * Z.pos m) (2 ^ (- e)) <= 100)%Z as Hh.
    { apply round_half_even_bound; [lia|]. apply Z.pow_pos_nonneg; lia. }
    split; [exact Hh|]. unfold round2. rewrite Hfinite.
    destruct (Z.leb_spec 0 e); [lia|]. by apply hundredths_eqb.
Qed.

(** X21: the confidence is always a whole number of hundredths: it equals
    (as floats compare) the double nearest to [h / 100] for an integer [h]
    from 0 to 100. *)
Theorem confidence_has_two_decimals (result : AgentResult.t) :
  exists h : Z,
    (0 <= h <= 100)%Z /\
    (calculate_confidence result =? of_uint63 (Uint63.of_Z h) / 100)%float = true.
Proof.
  unfold calculate_confidence.
  set (raw := (float_of_len (length (AgentResult.tool_calls result)) * 0.15 +
               py_min 0.4 (float_of_len (len (AgentResult.message result)) /
                           2000))%float).
  apply round2_hundredths.
  - apply py_min_not_negative; [done | apply raw_confidence_not_negative].
  - change (py_min 1 raw) with (if (raw <? 1)%float then raw else 1%float).
    destruct (raw <? 1)%float eqn:Hlt; [by left | by right].
Qed.
(** ** Confidence: without tool calls *)

Lemma round_half_even_le (n den k : Z) :
  (0 < den)%Z -> (2 * n < (2 * k + 1) * den)%Z ->
  (round_half_even n den <= k)%Z.
Proof.
  intros Hden Hn. unfold round_half_even.
  pose proof (Z.div_mod n den ltac:(lia)) as Hdiv.
  pose proof (Z.mod_pos_bound n den Hden) as Hmod.
  destruct (Z.compare_spec (2 * (n mod den)) den) as [Heq | Hlt | Hgt].
  - destruct (Z.even (n / den)); nia.
  - nia.
  - nia.
Qed.

(** A float that is not negative and below the double 0.4 is a zero, or a
    positive number [m * 2^e] below 1 with [e < 0] whose hundredths round
    to 40 at most. *)
Lemma below_two_fifths (y : float) :
  not_negative (Prim2SF y) -> (y <? 0.4)%float = true ->
  (exists s, Prim2SF y = S754_zero s) \/
  (exists m e, Prim2SF y = S754_finite false m e /\ (e < 0)%Z /\
               (y <? 1)%float = true /\
               (2 * (100 * Z.pos m) < (2 * 40 + 1) * 2 ^ (- e))%Z).
Proof.
  intros Hsign Hlt.
  assert ((y <? 1)%float = true) as Hone.
  { rewrite ltb_spec in *.
    change (Prim2SF 0.4) with (S754_finite false 7205759403792794 (-54)) in Hlt.
    change (Prim2SF 1) with (S754_finite false 4503599627370496 (-52)).
    destruct (Prim2SF y) as [s|s| |s m e]; simpl in Hsign; subst; try done.
    unfold SFltb, SFcompare in *. revert Hlt.
    destruct (Z.compare_spec e (-54)) as [Heq | He | He]; intros Hlt; [| |done].
    - by subst e.
    - destruct (Z.compare_spec e (-52)) as [? | ? | ?]; [lia | done | lia]. }
  rewrite ltb_spec in Hlt.
  change (Prim2SF 0.4) with (S754_finite false 7205759403792794 (-54)) in Hlt.
  destruct (Prim2SF y) as [s|s| |s m e] eqn:Hy; simpl in Hsign; subst.
  - left. by exists s.
  - done.
  - done.
  - right. exists m, e. split; [done|].
    pose proof (mantissa_bound y false m e Hy) as Hm.
    unfold SFltb, SFcompare in Hlt. revert Hlt.
    destruct (Z.compare_spec e (-54)) as [Heq | He | He]; intros Hlt; [| |done].
    + subst e. split; [lia|]. split; [done|].
      rewrite Pos.compare_cont_spec in Hlt. simpl in Hlt.
      destruct (Pos.compare_spec m 7205759403792794) as [? | Hlt' | ?]; try done.
      change (2 ^ (- -54))%Z with 18014398509481984%Z.
      apply Pos2Z.pos_lt_pos in Hlt'.
      apply Z.le_lt_trans with (2 * (100 * 7205759403792793))%Z; [|done].
      apply Z.mul_le_mono_nonneg_l; [done|].
      apply Z.mul_le_mono_nonneg_l; [done|].
      apply Z.lt_succ_r. exact Hlt'.
    + split; [lia|]. split; [done|].
      assert (2 ^ 55 <= 2 ^ (- e))%Z as Hpow
        by (apply Z.pow_le_mono_r; clear - He; lia).
      apply Z.lt_le_trans with (81 * 2 ^ 55)%Z.
      * apply Z.lt_trans with (200 * 2 ^ 53)%Z; [|done].
        rewrite Z.mul_assoc. apply Z.mul_lt_mono_pos_l; [done | exact Hm].
      * apply Z.mul_le_mono_nonneg_l; [done | exact Hpow].
Qed.

(** The doubles nearest to the hundredths up to 40 are at most the double
    0.4. *)
Lemma hundredths_at_most_two_fifths (h : Z) :
  (0 <= h <= 40)%Z -> (of_uint63 (Uint63.of_Z h) / 100 <=? 0.4)%float = true.
Proof.
  intros Hh.
  assert (forallb (fun n => (of_uint63 (Uint63.of_Z (Z.of_nat n)) / 100 <=? 0.4)%float)
            (seq 0 41) = true) as Hall by (vm_compute; reflexivity).
  rewrite forallb_forall in Hall.
  specialize (Hall (Z.to_nat h)). rewrite Z2Nat.id in Hall by lia.
  apply Hall. apply in_seq. lia.
Qed.

Lemma round_half_even_not_negative (n den : Z) :
  (0 <= n)%Z -> (0 < den)%Z -> (0 <= round_half_even n den)%Z.
Proof.
  intros Hn Hden. unfold round_half_even.
  assert (0 <= n / den)%Z by (apply Z.div_pos; lia).
  destruct (2 * (n mod den) ?= den)%Z; [destruct (Z.even (n / den))| |]; lia.
Qed.

(** X22: without tool calls the confidence is at most 0.4, however long
    the message is. *)
Theorem confidence_without_tool_calls (result : AgentResult.t) :
  AgentResult.tool_calls result = [] ->
  (calculate_confidence result <=? 0.4)%float = true.
Proof.
  intros Htools. unfold calculate_confidence. rewrite Htools.
  change (float_of_len (length []) * 0.15)%float with 0%float.
  set (q := (float_of_len (len (AgentResult.message result)) / 2000)%float).
  assert (not_negative (Prim2SF q)) as Hsign.
  { unfold q. rewrite div_spec.
    apply (SFdiv_not_negative _ 8796093022208000 (-42)).
    apply float_of_len_not_negative. }
  change (py_min 0.4 q) with (if (q <? 0.4)%float then q else 0.4%float).
  destruct (q <? 0.4)%float eqn:Hlt; [|by vm_compute].
  destruct (below_two_fifths q Hsign Hlt)
    as [[s Hzero] | (m & e & Hfinite & He & Hone & Hm)].
  - assert ((0 + q)%float = 0%float) as ->.
    { rewrite <- (SF2Prim_Prim2SF (0 + q)), add_spec, Hzero. by destruct s. }
    by vm_compute.
  - assert ((0 + q)%float = q) as ->.
    { rewrite <- (SF2Prim_Prim2SF (0 + q)), add_spec, Hfinite.
      change (SF64add (Prim2SF 0) (S754_finite false m e))
        with (S754_finite false m e).
      rewrite <- Hfinite. apply SF2Prim_Prim2SF. }
    change (py_min 1 q) with (if (q <? 1)%float then q else 1%float).
    rewrite Hone. unfold round2. rewrite Hfinite.
    destruct (Z.leb_spec 0 e); [lia|].
    apply hundredths_at_most_two_fifths. split.
    + apply round_half_even_not_negative; [lia|]. apply Z.pow_pos_nonneg; lia.
    + apply round_half_even_le; [|exact Hm]. apply Z.pow_pos_nonneg; lia.
Qed.

Lemma confidence_without_tool_calls_witness :
  (calculate_confidence
     {| AgentResult.message := text_of_length 1000; AgentResult.tool_calls := [] |} <=?
   0.4)%float = true.
Proof.
  apply (confidence_without_tool_calls
           {| AgentResult.message := text_of_length 1000;
              AgentResult.tool_calls := [] |}).
  reflexivity.
Defined.
(** ** Webhook: the response and the queue *)

(** An alert list either has string severities throughout, or has a first
    alert on whose severity [.lower()] raises. *)
Lemma first_without_severity alerts :
  Forall has_severity alerts \/
  exists before alert after e,
    alerts = before ++ alert :: after /\ Forall has_severity before /\
    ingress_severity alert = Raise e.
Proof.
  induction alerts as [|alert alerts IH]; [by left|].
  destruct (ingress_severity alert) as [severity|e] eqn:Hseverity.
  - destruct IH as [Hall | (before & bad & after & e & -> & Hbefore & Hraise)].
    + left. constructor; [by exists severity | done].
    + right. exists (alert :: before), bad, after, e.
      split; [done|]. split; [|done]. constructor; [by exists severity | done].
  - right. by exists [], alert, alerts, e.
Qed.

(** X23: the webhook only adds to the task queue, at most one task per
    alert of the payload.  A payload that is not firing adds nothing and is
    answered as ignored.  For a firing one whose severity labels are all
    strings, [processed_count] of the response is the number of tasks
    added, the entries carry the fingerprints of the queued alerts in the
    order of the tasks, and each has severity ["critical"] or ["high"] and
    status ["queued_for_investigation"].  For a firing one with a severity
    label that is not a string there is no response: the handler raises
    the error of [.lower()] on the first such alert, and the tasks added
    are those of the retained alerts before it. *)
Theorem webhook_response_matches_queue payload background_tasks :
  exists added,
    (grafana_webhook payload background_tasks).1 = background_tasks ++ added /\
    length added <= length (GrafanaWebhookPayload.alerts payload) /\
    match (grafana_webhook payload background_tasks).2 with
    | Return (ResponseIgnored _ _) =>
        GrafanaWebhookPayload.status payload <> "firing" /\ added = []
    | Return (ResponseReceived _ processed_count alerts) =>
        GrafanaWebhookPayload.status payload = "firing" /\
        Forall has_severity (GrafanaWebhookPayload.alerts payload) /\
        processed_count = length added /\
        (fun task => GrafanaAlert.fingerprint (task_alert task)) <$> added =
          queued_fingerprint <$> alerts /\
        Forall (fun entry => queued_severity entry ∈ ["critical"; "high"] /\
                             queued_status entry = "queued_for_investigation") alerts
    | Raise e =>
        GrafanaWebhookPayload.status payload = "firing" /\
        exists before alert after,
          GrafanaWebhookPayload.alerts payload = before ++ alert :: after /\
          Forall has_severity before /\
          ingress_severity alert = Raise e /\
          added = map (task_of payload) (retained before)
    end.
Proof.
  unfold grafana_webhook. rewrite eqb_firing.
  destruct (decide (GrafanaWebhookPayload.status payload = "firing")) as [Hfiring | Hother].
  - rewrite bool_decide_eq_true_2 by done. cbn [negb].
    destruct (first_without_severity (GrafanaWebhookPayload.alerts payload))
      as [Hall | (before & alert & after & e & Halerts & Hbefore & Hraise)].
    + rewrite webhook_loop_spec by done. cbn [fst snd app].
      eexists. split; [reflexivity|]. split.
      { rewrite length_map. apply length_filter. }
      split; [done|]. split; [done|]. split; [by rewrite !length_map|]. split.
      * rewrite <- !list_fmap_compose. done.
      * apply Forall_fmap, Forall_forall. intros alert Hin.
        apply list_elem_of_filter in Hin as [Hmajor Hmember].
        rewrite Forall_forall in Hall.
        destruct (Hall alert Hmember) as [severity Hseverity].
        split; [|done]. unfold acknowledgement. rewrite Hseverity. simpl.
        by apply (ingress_severity_major alert severity Hseverity).
    + rewrite Halerts, (webhook_loop_raises payload before alert after _ _ e) by done.
      cbn [fst snd].
      eexists. split; [reflexivity|]. split.
      { rewrite length_map, length_app. etrans; [apply length_filter|]. lia. }
      split; [done|]. by exists before, alert, after.
  - rewrite bool_decide_eq_false_2 by done. cbn [negb fst snd].
    exists []. rewrite app_nil_r. split; [done|]. split; [simpl; lia | done].
Qed.
